(** * kcloanapp: financial normalisation and risk analysis engine

    A shallow embedding of the algorithmic core of the loan appraisal
    application (modules/data_processing.py, modules/financial_analysis.py,
    modules/projections.py, modules/risk_models.py) together with the
    properties its specification states about it.

    Conventions of the embedding.
    - Column labels are byte strings ([string]); Python's [str.lower] and
      [str.strip] are modelled on ASCII letters and ASCII white space.
    - Python floats are idealised as exact rationals ([Q]); the special
      values that NumPy produces instead of raising (nan, inf) are explicit
      constructors where the code can produce them.
    - A Python [dict] is a [gmap]; where the iteration order of a dict
      literal matters it is an association list in insertion order.
    - A raised exception is the [Raise] constructor of the result type
      [exc]; [try/except] is a match on it. Python's division raises on
      a zero divisor, NumPy's returns nan or an infinity. The power of a
      Python float raises OverflowError when its result is out of the
      range of floats; this is modelled where a handler turns the
      exception into a result (the structural default model). *)

From Stdlib Require Import QArith Qabs Qpower Qfield Lqa ZArith Lia Ascii String List.
From stdpp Require Import gmap strings list.

Local Open Scope string_scope.
Local Open Scope list_scope.

(** ** Python exceptions as an error monad *)

Inductive exc (A : Type) : Type :=
| Ok (a : A)
| Raise (e : string).
Arguments Ok {A} a.
Arguments Raise {A} e.

Definition ebind {A B} (m : exc A) (k : A -> exc B) : exc B :=
  match m with
  | Ok a => k a
  | Raise e => Raise e
  end.

Global Instance exc_ret : MRet exc := fun A a => Ok a.
Global Instance exc_bind : MBind exc := fun A B k m => ebind m k.

(** ** Python and NumPy numbers *)

Module PyNum.
Local Open Scope Q_scope.

(** Comparisons of finite floats, as booleans. *)
Definition Qltb (x y : Q) : bool := negb (Qle_bool y x).
Definition Qgtb (x y : Q) : bool := Qltb y x.

(** [max(0, x)] : Python returns its first argument unless the second is
    strictly greater. *)
Definition max0 (x : Q) : Q := if Qgtb x 0 then x else 0.

(** [a / b] on Python numbers: raises ZeroDivisionError on a zero divisor. *)
Definition py_div (a b : Q) : exc Q :=
  if Qeq_bool b 0 then Raise "ZeroDivisionError" else Ok (a / b).

(** The conditional expression [a / b if cond else 0]. *)
Definition div_if (cond : bool) (a b : Q) : exc Q :=
  if cond then py_div a b else Ok 0.

(** The least magnitude that rounds to an infinite float:
    2^1024 - 2^970, half a unit in the last place above the largest
    finite float. *)
Definition float_overflow : Q := inject_Z (2 ^ 1024 - 2 ^ 970).

(** [x ** n] on a Python float with an int exponent. Unlike [*] and [/]
    on floats, which return inf, the power raises OverflowError when its
    result is out of the range of floats; a zero base with a negative
    exponent raises ZeroDivisionError. *)
Definition py_float_pow (x : Q) (n : Z) : exc Q :=
  if (n <? 0)%Z && Qeq_bool x 0 then Raise "ZeroDivisionError"
  else if Qle_bool float_overflow (Qabs (x ^ n)) then Raise "OverflowError"
  else Ok (x ^ n).

(** A float as NumPy handles it: a finite value or one of the special
    values that NumPy returns (with a warning) instead of raising. The
    sign of zero is not represented. *)
Inductive npfloat :=
| Fin (q : Q)
| PInf
| NInf
| NaN.

Definition sign_inf (positive : bool) : npfloat := if positive then PInf else NInf.

Definition np_neg (x : npfloat) : npfloat :=
  match x with
  | Fin q => Fin (- q)
  | PInf => NInf
  | NInf => PInf
  | NaN => NaN
  end.

Definition np_add (x y : npfloat) : npfloat :=
  match x, y with
  | NaN, _ | _, NaN => NaN
  | PInf, NInf | NInf, PInf => NaN
  | PInf, _ | _, PInf => PInf
  | NInf, _ | _, NInf => NInf
  | Fin a, Fin b => Fin (a + b)
  end.

Definition np_sub (x y : npfloat) : npfloat := np_add x (np_neg y).

(** inf * 0 is nan; otherwise an infinite product takes the product of
    the signs. *)
Definition np_mul (x y : npfloat) : npfloat :=
  match x, y with
  | NaN, _ | _, NaN => NaN
  | Fin a, Fin b => Fin (a * b)
  | Fin a, PInf | PInf, Fin a =>
      if Qeq_bool a 0 then NaN else sign_inf (Qgtb a 0)
  | Fin a, NInf | NInf, Fin a =>
      if Qeq_bool a 0 then NaN else sign_inf (Qltb a 0)
  | PInf, PInf | NInf, NInf => PInf
  | PInf, NInf | NInf, PInf => NInf
  end.

(** NumPy division never raises: x/0 is an infinity of the sign of x
    (nan for 0/0), inf/inf is nan, a finite value over an infinity is 0. *)
Definition np_div (x y : npfloat) : npfloat :=
  match x, y with
  | NaN, _ | _, NaN => NaN
  | Fin a, Fin b =>
      if Qeq_bool b 0
      then (if Qeq_bool a 0 then NaN else sign_inf (Qgtb a 0))
      else Fin (a / b)
  | Fin _, (PInf | NInf) => Fin 0
  | PInf, Fin b => sign_inf (negb (Qltb b 0))
  | NInf, Fin b => sign_inf (Qltb b 0)
  | (PInf | NInf), (PInf | NInf) => NaN
  end.

(** [x >= c] for a finite constant [c]; every comparison with nan is
    false. *)
Definition np_geb (x : npfloat) (c : Q) : bool :=
  match x with
  | Fin q => Qle_bool c q
  | PInf => true
  | NInf | NaN => false
  end.

(** The order [x >= c] as a proposition. *)
Definition np_ge (x : npfloat) (c : Q) : Prop :=
  match x with
  | Fin q => c <= q
  | PInf => True
  | NInf | NaN => False
  end.

(** [sum] and [np.mean] of a vector. *)
Definition np_sum (l : list npfloat) : npfloat := foldl np_add (Fin 0) l.

Definition np_mean (l : list npfloat) : npfloat :=
  np_div (np_sum l) (Fin (inject_Z (Z.of_nat (length l)))).

Definition Qsum (l : list Q) : Q := foldl Qplus 0 l.

(** [x <= y] and [x < y], [x > y] on floats; a comparison with nan is
    false. *)
Definition np_leb (x y : npfloat) : bool :=
  match x, y with
  | NaN, _ | _, NaN => false
  | NInf, _ | _, PInf => true
  | PInf, _ | _, NInf => false
  | Fin a, Fin b => Qle_bool a b
  end.

Definition np_ltb (x y : npfloat) : bool :=
  match x, y with
  | NaN, _ | _, NaN => false
  | PInf, _ | _, NInf => false
  | NInf, _ | _, PInf => true
  | Fin a, Fin b => Qltb a b
  end.

Definition np_gtb (x y : npfloat) : bool := np_ltb y x.

(** [Series.min()]: the least value that is not nan; nan for a series
    without any. *)
Definition np_min2 (acc x : npfloat) : npfloat :=
  match acc, x with
  | _, NaN => acc
  | NaN, _ => x
  | _, _ => if np_ltb x acc then x else acc
  end.

Definition series_min (l : list npfloat) : npfloat := foldl np_min2 NaN l.

End PyNum.

(** ** Python string primitives *)

Module PyStr.

(** [str.lower] on ASCII: 'A'..'Z' are shifted by 32, every other byte is
    kept. *)
Definition lower_ascii (c : ascii) : ascii :=
  let n := nat_of_ascii c in
  if (65 <=? n)%nat && (n <=? 90)%nat then ascii_of_nat (n + 32) else c.

Fixpoint lower (s : string) : string :=
  match s with
  | EmptyString => EmptyString
  | String c s' => String (lower_ascii c) (lower s')
  end.

(** White space removed by [str.strip()]: tab, line feed, vertical tab,
    form feed, carriage return, the separators 28..31 and the space. *)
Definition is_py_space (c : ascii) : bool :=
  let n := nat_of_ascii c in
  ((9 <=? n)%nat && (n <=? 13)%nat) || ((28 <=? n)%nat && (n <=? 32)%nat).

Fixpoint lstrip (s : string) : string :=
  match s with
  | EmptyString => EmptyString
  | String c s' => if is_py_space c then lstrip s' else s
  end.

(** [rstrip s] drops the trailing white space: a character is kept when
    it is not a space or when something is kept after it. *)
Fixpoint rstrip (s : string) : string :=
  match s with
  | EmptyString => EmptyString
  | String c s' =>
      match rstrip s' with
      | EmptyString => if is_py_space c then EmptyString else String c EmptyString
      | r => String c r
      end
  end.

Definition strip (s : string) : string := rstrip (lstrip s).

(** [needle in hay]: the substring test of Python's [in] on strings. *)
Fixpoint contains (needle hay : string) : bool :=
  String.prefix needle hay ||
  match hay with
  | EmptyString => false
  | String _ hay' => contains needle hay'
  end.

(** The mathematical reading of the substring test. *)
Definition is_substring (needle hay : string) : Prop :=
  exists pre post, hay = pre +:+ needle +:+ post.

(** [s.startswith(prefix)] *)
Definition startswith (s prefix : string) : bool := String.prefix prefix s.

(** [s[n:]] *)
Fixpoint drop_chars (n : nat) (s : string) : string :=
  match n, s with
  | O, _ => s
  | S n', String _ s' => drop_chars n' s'
  | S _, EmptyString => EmptyString
  end.

(** Does the character occur in the string? *)
Fixpoint has_char (c : ascii) (s : string) : bool :=
  match s with
  | EmptyString => false
  | String d s' => Ascii.eqb c d || has_char c s'
  end.

(** [s.split(sep)[-1]] for a one-character separator: what follows the
    last occurrence of the separator, the whole string when there is
    none. *)
Fixpoint after_last (sep : ascii) (s : string) : string :=
  match s with
  | EmptyString => EmptyString
  | String c s' =>
      if has_char sep s' then after_last sep s'
      else if Ascii.eqb c sep then s'
      else s
  end.

End PyStr.

(** ** modules/data_processing.py *)

Module DataProcessor.

(** [self.column_mappings]: the dict literal, in insertion order. *)
Definition column_mappings : list (string * list string) :=
  [ ("revenue", ["revenue"; "sales"; "turnover"; "gross revenue"; "total revenue"; "income"]);
    ("net_income", ["net income"; "net profit"; "profit after tax"; "pat"; "net profit after tax"]);
    ("total_assets", ["total assets"; "assets"; "non-current assets"; "current assets"; "fixed assets"]);
    ("total_liabilities", ["total liabilities"; "liabilities"; "non-current liabilities"; "current liabilities"]);
    ("current_assets", ["current assets"; "inventories"; "receivables"; "cash and cash equivalents"]);
    ("current_liabilities", ["current liabilities"; "payables"; "short term debt"]);
    ("equity", ["equity"; "shareholders equity"; "share capital"; "retained earnings"]);
    ("gross_profit", ["gross profit"; "gross margin"]);
    ("operating_expenses", ["operating expenses"; "administrative expenses"; "selling expenses"]);
    ("ebit", ["ebit"; "operating profit"; "profit before interest and tax"]);
    ("cogs", ["cost of goods sold"; "cogs"; "cost of sales"]);
    ("cash_flow_operating", ["operating cash flow"; "cash from operations"; "net cash from operating activities"]);
    ("cash_flow_investing", ["investing cash flow"; "cash from investing activities"]);
    ("cash_flow_financing", ["financing cash flow"; "cash from financing activities"]) ].

(** [str(col_name).lower().strip()] *)
Definition col_lower (col_name : string) : string :=
  PyStr.strip (PyStr.lower col_name).

(** The innermost loop of [_map_column_names]: does some possible name
    satisfy [possible_name in col_lower or col_lower in possible_name]?
    (The loop assigns the same value whichever name matches and then
    breaks, so only the existence of a match is observable.) *)
Definition any_possible_name (possible_names : list string) (cl : string) : bool :=
  existsb (fun possible_name =>
             PyStr.contains possible_name cl || PyStr.contains cl possible_name)
          possible_names.

(** The loop over [df_clean.columns] for one standard name. *)
Definition map_columns_for (standard_name : string) (possible_names : list string)
    (columns : list string) (column_mapping : gmap string string) : gmap string string :=
  foldl (fun m col_name =>
           if any_possible_name possible_names (col_lower col_name)
           then <[col_name := standard_name]> m
           else m)
        column_mapping columns.

(** The outer loop over [self.column_mappings.items()]. *)
Definition build_column_mapping (mappings : list (string * list string))
    (columns : list string) : gmap string string :=
  foldl (fun m kv => map_columns_for kv.1 kv.2 columns m) ∅ mappings.

(** [df.rename(columns=column_mapping)] on the labels. *)
Definition rename (column_mapping : gmap string string) (columns : list string)
    : list string :=
  map (fun c => default c (column_mapping !! c)) columns.

(** [_map_column_names], on the column labels of the table (the cells are
    not touched by it). *)
Definition _map_column_names (columns : list string) : list string :=
  let column_mapping := build_column_mapping column_mappings columns in
  if bool_decide (column_mapping = ∅) then columns
  else rename column_mapping columns.

(** The rule as the specification words it: the first canonical key, in
    key order, whose synonym list matches. *)
Definition first_match (col_name : string) : option string :=
  fst <$> List.find (fun kv => any_possible_name kv.2 (col_lower col_name))
                    column_mappings.

(** What the loops compute: the last such key. *)
Definition last_match_in (mappings : list (string * list string))
    (col_name : string) : option string :=
  fst <$> List.find (fun kv => any_possible_name kv.2 (col_lower col_name))
                    (rev mappings).

Definition last_match : string -> option string := last_match_in column_mappings.

(** The bidirectional substring rule between a column label and the
    synonym list of one canonical key. *)
Definition key_matches (possible_names : list string) (col_name : string) : Prop :=
  exists possible_name,
    possible_name ∈ possible_names /\
    (PyStr.is_substring possible_name (col_lower col_name) \/
     PyStr.is_substring (col_lower col_name) possible_name).

(** *** Statement classification *)

Inductive statement_type := income_statement | balance_sheet | cash_flow | unknown.

Global Instance statement_type_eq_dec : EqDecision statement_type.
Proof. solve_decision. Defined.

Definition income_indicators : list string :=
  ["revenue"; "sales"; "cogs"; "gross profit"; "operating income"; "net income"; "ebit"; "ebitda"].
Definition balance_indicators : list string :=
  ["assets"; "liabilities"; "equity"; "current assets"; "fixed assets"; "inventory"].
Definition cashflow_indicators : list string :=
  ["operating cash flow"; "investing cash flow"; "financing cash flow"; "cash flow"].

(** [any(indicator in col for col in column_names)] *)
Definition any_col_contains (indicator : string) (column_names : list string) : bool :=
  existsb (fun col => PyStr.contains indicator col) column_names.

(** [sum(1 for indicator in indicators if any(...))] *)
Definition indicator_score (indicators column_names : list string) : nat :=
  length (filter (fun indicator => any_col_contains indicator column_names = true) indicators).

Definition column_names_lower (columns : list string) : list string :=
  map PyStr.lower columns.

Definition income_score (columns : list string) : nat :=
  indicator_score income_indicators (column_names_lower columns).
Definition balance_score (columns : list string) : nat :=
  indicator_score balance_indicators (column_names_lower columns).
Definition cashflow_score (columns : list string) : nat :=
  indicator_score cashflow_indicators (column_names_lower columns).

(** The [scores] dict, in insertion order. *)
Definition scores (columns : list string) : list (statement_type * nat) :=
  [ (income_statement, income_score columns);
    (balance_sheet, balance_score columns);
    (cash_flow, cashflow_score columns) ].

Definition max_score (columns : list string) : nat :=
  foldr Nat.max 0%nat (map snd (scores columns)).

Definition best_types (columns : list string) : list statement_type :=
  map fst (filter (fun ts => ts.2 = max_score columns) (scores columns)).

(** The tie-breaker cascade. *)
Definition tie_break (columns : list string) : statement_type :=
  let column_names := column_names_lower columns in
  if any_col_contains "cash flow" column_names then cash_flow
  else if any_col_contains "assets" column_names
          && any_col_contains "liabilities" column_names then balance_sheet
  else income_statement.

(** [detect_financial_statement_type], on the column labels. Nothing in
    its body raises on a list of labels, so the handler that answers
    'unknown' is not entered. *)
Definition detect_financial_statement_type (columns : list string) : statement_type :=
  if (0 <? max_score columns)%nat then
    match best_types columns with
    | [t] => t
    | _ => tie_break columns
    end
  else unknown.

(** All the indicator keywords of the classifier. *)
Definition all_indicators : list string :=
  income_indicators ++ balance_indicators ++ cashflow_indicators.

(** The canonical keys. *)
Definition canonical_keys : list string := map fst column_mappings.

(** The labels of the specification's end-to-end classification
    scenario. *)
Definition example_labels : list string :=
  ["Total Revenue"; "Net Profit After Tax"; "Total Assets"; "Total Liabilities"].

(** *** Metric extraction *)

Import PyNum.
Local Open Scope Q_scope.

(** A cell of a table: a number, a missing value (nan) or a string. *)
Inductive cell :=
| CNum (q : Q)
| CNaN
| CStr (s : string).

(** A table: the column labels and the rows, each row holding one cell
    per column, by position. *)
Record DataFrame := {
  columns : list string;
  rows : list (list cell)
}.

Definition core_metrics : list string :=
  ["revenue"; "net_income"; "total_assets"; "total_liabilities";
   "current_assets"; "current_liabilities"; "equity"; "gross_profit";
   "operating_expenses"; "ebit"; "cogs"].

(** Positions of a label among the columns. *)
Fixpoint positions_from (i : nat) (label : string) (cols : list string) : list nat :=
  match cols with
  | [] => []
  | c :: cols' =>
      (if String.eqb c label then [i] else []) ++ positions_from (S i) label cols'
  end.

Definition positions (label : string) (cols : list string) : list nat :=
  positions_from 0 label cols.

(** [row[label]] where the result is used as a scalar: a label that is
    not unique yields a Series, on which the scalar tests raise. *)
Definition row_get (cols : list string) (row : list cell) (label : string) : exc cell :=
  match positions label cols with
  | [i] => match row !! i with
           | Some c => Ok c
           | None => Raise "IndexError"
           end
  | [] => Raise "KeyError"
  | _ => Raise "ValueError"
  end.

(** [df.iloc[0]] and [df.iloc[-1]] *)
Definition iloc_first (df : DataFrame) : exc (list cell) :=
  match rows df with
  | r :: _ => Ok r
  | [] => Raise "IndexError"
  end.

Definition iloc_last (df : DataFrame) : exc (list cell) :=
  match last (rows df) with
  | Some r => Ok r
  | None => Raise "IndexError"
  end.

(** Order of two sort keys that are not nan: numbers by value, strings
    lexicographically; a string against a number raises TypeError. *)
Definition key_gt (a b : cell) : exc bool :=
  match a, b with
  | CNum x, CNum y => Ok (Qgtb x y)
  | CStr s, CStr t => Ok (String.ltb t s)
  | _, _ => Raise "TypeError"
  end.

(** [df.sort_values(by=label, ascending=False).iloc[0]]: the row with the
    greatest key, nan keys last, the earliest row among equal keys. *)
Fixpoint greatest_row (best : option (cell * list cell)) (firstnan : option (list cell))
    (keyed : list (cell * list cell)) : exc (list cell) :=
  match keyed with
  | [] =>
      match best, firstnan with
      | Some (_, r), _ => Ok r
      | None, Some r => Ok r
      | None, None => Raise "IndexError"
      end
  | (CNaN, r) :: rest =>
      greatest_row best (match firstnan with Some _ => firstnan | None => Some r end) rest
  | (k, r) :: rest =>
      match best with
      | None => greatest_row (Some (k, r)) firstnan rest
      | Some (kb, rb) =>
          gt ← key_gt k kb;
          greatest_row (if gt : bool then Some (k, r) else best) firstnan rest
      end
  end.

Definition sort_values_desc_first (df : DataFrame) (label : string) : exc (list cell) :=
  keyed ← foldr (fun r acc =>
                   acc' ← acc;
                   k ← row_get (columns df) r label;
                   Ok ((k, r) :: acc'))
                (Ok []) (rows df);
  greatest_row None None keyed.

(** [date_columns]: labels whose lower-cased text contains 'date' or
    'year'. *)
Definition date_columns (df : DataFrame) : list string :=
  List.filter (fun col => PyStr.contains "date" (PyStr.lower col)
                          || PyStr.contains "year" (PyStr.lower col))
              (columns df).

Definition latest_row (df : DataFrame) : exc (list cell) :=
  if (1 <? length (rows df))%nat then
    match date_columns df with
    | d :: _ => sort_values_desc_first df d
    | [] => iloc_last df
    end
  else iloc_first df.

Section Extract.

(** Python's [float(s)] on a string: the parsed value, or [None] where
    it raises ValueError. It is a builtin, taken as a parameter. *)
Variable float_of_str : string -> option Q.

(** One iteration of the extraction loop. *)
Definition extract_metric (df : DataFrame) (row : list cell)
    (metrics : gmap string Q) (metric : string) : exc (gmap string Q) :=
  if bool_decide (metric ∈ columns df) then
    value ← row_get (columns df) row metric;
    match value with
    | CNaN => Ok metrics
    | CNum q => if Qeq_bool q 0 then Ok metrics else Ok (<[metric := q]> metrics)
    | CStr s =>
        match float_of_str s with
        | Some q => Ok (<[metric := q]> metrics)
        | None => Raise "ValueError"
        end
    end
  else Ok metrics.

Definition extract_core (df : DataFrame) (row : list cell) : exc (gmap string Q) :=
  foldl (fun acc metric => m ← acc; extract_metric df row m metric)
        (Ok ∅) core_metrics.

(** The derived metrics of an income statement. *)
Definition derive_income (metrics : gmap string Q) : gmap string Q :=
  let metrics1 :=
    match metrics !! "revenue", metrics !! "cogs" with
    | Some revenue, Some cogs => <["gross_profit" := revenue - cogs]> metrics
    | _, _ => metrics
    end in
  match metrics1 !! "gross_profit", metrics1 !! "operating_expenses" with
  | Some gross_profit, Some opex => <["ebit" := gross_profit - opex]> metrics1
  | _, _ => metrics1
  end.

(** The accounting identity of a balance sheet. *)
Definition derive_balance (metrics : gmap string Q) : gmap string Q :=
  match metrics !! "total_assets", metrics !! "total_liabilities" with
  | Some total_assets, Some total_liabilities =>
      let calculated_equity := total_assets - total_liabilities in
      match metrics !! "equity" with
      | None => <["equity" := calculated_equity]> metrics
      | Some equity =>
          if Qgtb (Qabs (calculated_equity - equity)) 0.01
          then <["equity" := calculated_equity]> metrics
          else metrics
      end
  | _, _ => metrics
  end.

(** The body of the [try] block. *)
Definition extract_body (df : DataFrame) (st : statement_type) : exc (gmap string Q) :=
  row ← latest_row df;
  metrics ← extract_core df row;
  Ok (match st with
      | income_statement => derive_income metrics
      | balance_sheet => derive_balance metrics
      | _ => metrics
      end).

(** [extract_financial_metrics]: the body under [except Exception],
    whose handler returns the empty dict. *)
Definition extract_financial_metrics (df : DataFrame) (st : statement_type)
    : gmap string Q :=
  match extract_body df st with
  | Ok metrics => metrics
  | Raise _ => ∅
  end.

End Extract.

(** *** Processing of the uploaded files *)

Inductive upload_status := success | error.

(** The dict stored for one file; [data] and [error] are the keys that
    may be absent ([None] for 'data': None). *)
Record upload_entry (D : Type) := {
  entry_data : option D;
  entry_type : string;
  entry_status : upload_status;
  entry_error : option string
}.
Arguments entry_data {D} _.
Arguments entry_type {D} _.
Arguments entry_status {D} _.
Arguments entry_error {D} _.

(** [file.name.split('.')[-1].lower()] *)
Definition file_type_of (name : string) : string :=
  PyStr.lower (PyStr.after_last "." name).

Section Upload.

(** An uploaded file and its name; the three readers of [FileProcessor]
    (spreadsheet, CSV and PDF parsing are library code), each returning
    the parsed data or raising with a message. *)
Variables (File D : Type).
Variable file_name : File -> string.
Variables (process_excel_file process_csv_file extract_financial_data_from_pdf
             : File -> exc D).

(** The body of the loop for one file: the entry stored under the file's
    name, and the message appended to [errors], if any. *)
Definition process_file (file : File) : upload_entry D * option string :=
  let file_type := file_type_of (file_name file) in
  let attempt (reader : File -> exc D) (kind : string) :=
    match reader file with
    | Ok data =>
        ({| entry_data := Some data; entry_type := kind;
            entry_status := success; entry_error := None |}, None)
    | Raise e =>
        let error_msg := "Error processing " +:+ file_name file +:+ ": " +:+ e in
        ({| entry_data := None; entry_type := file_type;
            entry_status := error; entry_error := Some error_msg |}, Some error_msg)
    end in
  if String.eqb file_type "xlsx" || String.eqb file_type "xls" then
    attempt process_excel_file "excel"
  else if String.eqb file_type "csv" then attempt process_csv_file "csv"
  else if String.eqb file_type "pdf" then attempt extract_financial_data_from_pdf "pdf"
  else
    ({| entry_data := None; entry_type := file_type; entry_status := error;
        entry_error := Some ("Unsupported file type: " +:+ file_type) |},
     Some ("Unsupported file type: " +:+ file_type +:+ " for " +:+ file_name file)).

(** [process_uploaded_files]: the dict of entries by file name and the
    list of error messages. *)
Definition process_uploaded_files (uploaded_files : list File)
    : gmap string (upload_entry D) * list string :=
  foldl (fun acc file =>
           let '(entry, err) := process_file file in
           (<[file_name file := entry]> acc.1,
            acc.2 ++ match err with Some msg => [msg] | None => [] end))
        (∅, []) uploaded_files.

End Upload.

End DataProcessor.


(** ** modules/financial_analysis.py *)

Module FinancialAnalyzer.
Import PyNum.
Local Open Scope Q_scope.

Record liquidity_ratios := {
  current_ratio : Q;
  quick_ratio : Q
}.

Definition calculate_liquidity_ratios (current_assets current_liabilities : Q)
    : exc liquidity_ratios :=
  if Qeq_bool current_liabilities 0 then
    Ok {| current_ratio := 0; quick_ratio := 0 |}
  else
    cr ← py_div current_assets current_liabilities;
    qr ← py_div current_assets current_liabilities;
    Ok {| current_ratio := cr; quick_ratio := qr |}.

Record profitability_ratios := {
  return_on_assets : Q;
  return_on_equity : Q;
  net_profit_margin : Q
}.

Definition calculate_profitability_ratios (revenue net_income total_assets equity : Q)
    : exc profitability_ratios :=
  roa ← div_if (Qgtb total_assets 0) net_income total_assets;
  roe ← div_if (Qgtb equity 0) net_income equity;
  net_margin ← div_if (Qgtb revenue 0) net_income revenue;
  Ok {| return_on_assets := roa; return_on_equity := roe; net_profit_margin := net_margin |}.

Record leverage_ratios := {
  debt_to_equity : Q;
  debt_to_assets : Q
}.

Definition calculate_leverage_ratios (total_liabilities total_assets equity : Q)
    : exc leverage_ratios :=
  d2e ← div_if (Qgtb equity 0) total_liabilities equity;
  d2a ← div_if (Qgtb total_assets 0) total_liabilities total_assets;
  Ok {| debt_to_equity := d2e; debt_to_assets := d2a |}.

Record efficiency_ratios := {
  asset_turnover : Q;
  receivables_turnover : Q
}.

Definition calculate_efficiency_ratios (revenue total_assets accounts_receivable : Q)
    : exc efficiency_ratios :=
  at_ ← div_if (Qgtb total_assets 0) revenue total_assets;
  rt ← div_if (Qgtb accounts_receivable 0) revenue accounts_receivable;
  Ok {| asset_turnover := at_; receivables_turnover := rt |}.

(** [financial_data.get(key, 0)] *)
Definition get0 (financial_data : gmap string Q) (key : string) : Q :=
  default 0 (financial_data !! key).

(** The ratio dict of [comprehensive_ratio_analysis], before the
    benchmark assessment is attached to it. *)
Definition comprehensive_ratios (financial_data : gmap string Q) : exc (gmap string Q) :=
  liq ← calculate_liquidity_ratios (get0 financial_data "current_assets")
          (get0 financial_data "current_liabilities");
  prof ← calculate_profitability_ratios (get0 financial_data "revenue")
           (get0 financial_data "net_income") (get0 financial_data "total_assets")
           (get0 financial_data "equity");
  lev ← calculate_leverage_ratios (get0 financial_data "total_liabilities")
          (get0 financial_data "total_assets") (get0 financial_data "equity");
  eff ← calculate_efficiency_ratios (get0 financial_data "revenue")
          (get0 financial_data "total_assets")
          (get0 financial_data "accounts_receivable");
  Ok (<["receivables_turnover" := receivables_turnover eff]>
     (<["asset_turnover" := asset_turnover eff]>
     (<["debt_to_assets" := debt_to_assets lev]>
     (<["debt_to_equity" := debt_to_equity lev]>
     (<["net_profit_margin" := net_profit_margin prof]>
     (<["return_on_equity" := return_on_equity prof]>
     (<["return_on_assets" := return_on_assets prof]>
     (<["quick_ratio" := quick_ratio liq]>
     (<["current_ratio" := current_ratio liq]> ∅))))))))).

(** The keys of the ratio dict. *)
Definition ratio_keys : list string :=
  ["current_ratio"; "quick_ratio"; "return_on_assets"; "return_on_equity";
   "net_profit_margin"; "debt_to_equity"; "debt_to_assets"; "asset_turnover";
   "receivables_turnover"].

(** *** Benchmark assessment *)

(** An entry of [INDUSTRY_BENCHMARKS] (config/constants.py); every entry
    has both bounds, and an open upper bound is [float('inf')]. *)
Record benchmark := {
  bench_min : Q;
  bench_max : npfloat
}.

Definition INDUSTRY_BENCHMARKS : gmap string benchmark :=
  <["current_ratio" := {| bench_min := 1.5; bench_max := Fin 3.0 |}]>
  (<["debt_to_equity" := {| bench_min := 0.3; bench_max := Fin 2.0 |}]>
  (<["debt_service_ratio" := {| bench_min := 1.5; bench_max := PInf |}]>
  (<["roe" := {| bench_min := 0.15; bench_max := PInf |}]>
  (<["roa" := {| bench_min := 0.05; bench_max := PInf |}]> ∅)))).

(** The body of the loop of [assess_against_benchmarks] for one ratio. *)
Definition assess_ratio (benchmarks : gmap string benchmark) (ratio : string) (value : Q)
    : string :=
  match benchmarks !! ratio with
  | Some b =>
      if Qltb value (bench_min b) then "Below Benchmark"
      else if np_gtb (Fin value) (bench_max b) then "Above Benchmark"
      else "Within Benchmark"
  | None => "No Benchmark"
  end.

Definition assess_against_benchmarks (ratios : gmap string Q) : gmap string string :=
  map_imap (fun ratio value => Some (assess_ratio INDUSTRY_BENCHMARKS ratio value)) ratios.

(** [comprehensive_ratio_analysis]: the ratio dict and, under its key
    'assessment', the assessment of the ratios computed before that key
    is added. *)
Definition comprehensive_ratio_analysis (financial_data : gmap string Q)
    : exc (gmap string Q * gmap string string) :=
  ratios ← comprehensive_ratios financial_data;
  Ok (ratios, assess_against_benchmarks ratios).

End FinancialAnalyzer.

(** ** modules/projections.py *)

Module FinancialProjections.
Import PyNum.
Local Open Scope Q_scope.

(** A row of the repayment schedule. *)
Record schedule_row := {
  month : Z;
  payment : Q;
  principal : Q;
  interest : Q;
  remaining_balance : Q
}.

(** The loop of [calculate_loan_repayment_schedule]: [count] months are
    left, [m] is the current month and [balance] the running (unclamped)
    balance. *)
Fixpoint schedule_loop (monthly_rate monthly_payment : Q) (m : Z) (count : nat)
    (balance : Q) : list schedule_row :=
  match count with
  | O => []
  | S count' =>
      let interest_payment := balance * monthly_rate in
      let principal_payment := monthly_payment - interest_payment in
      let balance' := balance - principal_payment in
      {| month := m;
         payment := monthly_payment;
         principal := principal_payment;
         interest := interest_payment;
         remaining_balance := max0 balance' |}
      :: schedule_loop monthly_rate monthly_payment (m + 1) count' balance'
  end.

Definition monthly_rate_of (interest_rate : Q) : Q := interest_rate / 12 / 100.

Definition calculate_loan_repayment_schedule (loan_amount interest_rate : Q)
    (repayment_period : nat) : exc (list schedule_row) :=
  let monthly_rate := monthly_rate_of interest_rate in
  monthly_payment ←
    py_div (loan_amount * monthly_rate * (1 + monthly_rate) ^ Z.of_nat repayment_period)
           ((1 + monthly_rate) ^ Z.of_nat repayment_period - 1);
  Ok (schedule_loop monthly_rate monthly_payment 1 repayment_period loan_amount).

(** The closed form of the running balance after [k] of [n] months at
    the monthly rate [r]: P ((1+r)^n - (1+r)^k) / ((1+r)^n - 1), stated
    without the division. *)
Definition closed_form (P r : Q) (n k : nat) (balance : Q) : Prop :=
  balance * ((1 + r) ^ Z.of_nat n - 1)
  == P * ((1 + r) ^ Z.of_nat n - (1 + r) ^ Z.of_nat k).

(** A sequence of balances that never rises, starting below [b]. *)
Fixpoint non_increasing_from (b : Q) (l : list Q) : Prop :=
  match l with
  | [] => True
  | x :: l' => x <= b /\ non_increasing_from x l'
  end.

(** [_get_annual_loan_payment]: [None] stands for a missing schedule. *)
Definition _get_annual_loan_payment (repayment_schedule : option (list schedule_row))
    (year : Z) : Q :=
  match repayment_schedule with
  | None | Some [] => 0
  | Some schedule =>
      let start_month := ((year - 1) * 12 + 1)%Z in
      let end_month := (year * 12)%Z in
      let annual_payments :=
        List.filter (fun r => (start_month <=? month r)%Z && (month r <=? end_month)%Z)
                    schedule in
      match annual_payments with
      | [] => 0
      | _ => Qsum (map payment annual_payments)
      end
  end.

(** The payments of year [y] are those of months 12(y-1)+1 .. 12y; their
    sum is the year's amortization payment, 0 without a schedule. *)
Definition in_year (y : Z) (r : schedule_row) : bool :=
  ((y - 1) * 12 + 1 <=? month r)%Z && (month r <=? y * 12)%Z.

Definition year_payments (repayment_schedule : option (list schedule_row)) (y : Z) : Q :=
  match repayment_schedule with
  | None => 0
  | Some schedule => Qsum (map payment (List.filter (in_year y) schedule))
  end.

(** The columns of an income projection row that the coverage ratio
    reads; [interest_expense] is read with [.get(..., 0)]. *)
Record income_row := {
  year : Z;
  ebitda : Q;
  interest_expense : option Q
}.

Inductive dscr_status := Adequate | Inadequate.

Record dscr_row := {
  dscr_year : Z;
  dscr_ebitda : Q;
  total_debt_service : Q;
  dscr : npfloat;
  status : dscr_status
}.

(** One iteration of the loop of [calculate_debt_service_coverage_ratio]. *)
Definition dscr_of_row (repayment_schedule : option (list schedule_row))
    (income : income_row) : exc dscr_row :=
  let annual_loan_payment := _get_annual_loan_payment repayment_schedule (year income) in
  let tds := default 0 (interest_expense income) + annual_loan_payment in
  d ← (if Qgtb tds 0 then q ← py_div (ebitda income) tds; Ok (Fin q) else Ok PInf);
  Ok {| dscr_year := year income;
        dscr_ebitda := ebitda income;
        total_debt_service := tds;
        dscr := d;
        status := if np_geb d 1.25 then Adequate else Inadequate |}.

Fixpoint calculate_debt_service_coverage_ratio (income_projections : list income_row)
    (repayment_schedule : option (list schedule_row)) : exc (list dscr_row) :=
  match income_projections with
  | [] => Ok []
  | income :: rest =>
      row ← dscr_of_row repayment_schedule income;
      rows ← calculate_debt_service_coverage_ratio rest repayment_schedule;
      Ok (row :: rows)
  end.

(** *** Projections of the three statements *)

(** [d.get(key, default)] on a dict of numbers. *)
Definition get_or (d : gmap string Q) (key : string) (default_value : Q) : Q :=
  default default_value (d !! key).

(** [x ** year] where [year] is read from a row of a numeric table, hence
    a NumPy scalar: the power is NumPy's, which returns an infinity for a
    zero base with a negative exponent and raises nothing. *)
Definition np_pow (x : Q) (e : Z) : npfloat :=
  if Qeq_bool x 0 && (e <? 0)%Z then PInf else Fin (x ^ e).

(** A row of the projected income statement. *)
Record income_projection_row := {
  ip_year : Z;
  ip_revenue : Q;
  ip_cogs : Q;
  ip_gross_profit : Q;
  ip_operating_expenses : Q;
  ip_ebitda : Q;
  ip_interest_expense : Q;
  ip_ebit : Q;
  ip_tax : Q;
  ip_net_income : Q;
  ip_loan_impact : Q
}.

(** The additional interest of the new loan, computed before the loop. *)
Definition additional_annual_interest (loan_amount interest_rate : Q) : Q :=
  if Qgtb loan_amount 0 && Qgtb interest_rate 0 then
    let monthly_interest := loan_amount * (interest_rate / 100) / 12 in
    monthly_interest * 12
  else 0.

(** The body of the loop of [project_income_statement] for one year (the
    exponent is a year of [range(1, periods + 1)], so the power cannot
    raise). *)
Definition income_projection_of_year (historical_data assumptions : gmap string Q)
    (loan_amount interest_rate : Q) (y : Z) : income_projection_row :=
  let current_revenue := get_or historical_data "revenue" 0 in
  let current_interest_expense := get_or historical_data "interest_expense" 0 in
  let revenue := current_revenue * (1 + get_or assumptions "revenue_growth" 0.05) ^ y in
  let cogs := revenue * get_or assumptions "cogs_percentage" 0.6 in
  let gross_profit := revenue - cogs in
  let opex := revenue * get_or assumptions "opex_percentage" 0.25 in
  let ebitda := gross_profit - opex in
  let interest_expense :=
    current_interest_expense + additional_annual_interest loan_amount interest_rate in
  let ebit := ebitda - interest_expense in
  let tax := ebit * get_or assumptions "tax_rate" 0.3 in
  let net_income := ebit - tax in
  {| ip_year := y;
     ip_revenue := revenue;
     ip_cogs := cogs;
     ip_gross_profit := gross_profit;
     ip_operating_expenses := opex;
     ip_ebitda := ebitda;
     ip_interest_expense := interest_expense;
     ip_ebit := ebit;
     ip_tax := tax;
     ip_net_income := net_income;
     ip_loan_impact := additional_annual_interest loan_amount interest_rate |}.

(** [project_income_statement]; its [repayment_period] argument is not
    read. *)
Definition project_income_statement (historical_data assumptions : gmap string Q)
    (periods : nat) (loan_amount interest_rate : Q) (repayment_period : Z)
    : list income_projection_row :=
  map (fun i => income_projection_of_year historical_data assumptions
                  loan_amount interest_rate (Z.of_nat i))
      (seq 1 periods).

(** What the coverage ratio reads of a projected income row. *)
Definition income_row_of (r : income_projection_row) : income_row :=
  {| year := ip_year r;
     ebitda := ip_ebitda r;
     interest_expense := Some (ip_interest_expense r) |}.

(** [_calculate_remaining_loan_balance]: straight-line, by whole years. *)
Definition _calculate_remaining_loan_balance (loan_amount : Q) (y : Z)
    (repayment_period : Q) : exc Q :=
  if Qgtb (inject_Z y) (repayment_period / 12) then Ok 0
  else
    annual_repayment ← py_div loan_amount (repayment_period / 12);
    Ok (max0 (loan_amount - annual_repayment * (inject_Z y - 1))).

(** A row of the projected balance sheet. *)
Record balance_projection_row := {
  bp_year : Z;
  bp_total_assets : npfloat;
  bp_total_liabilities : npfloat;
  bp_equity : Q;
  bp_current_assets : npfloat;
  bp_current_liabilities : npfloat;
  bp_loan_balance : Q;
  bp_existing_debt : npfloat
}.

(** The body of the loop of [project_balance_sheet] for one income row. *)
Definition balance_projection_of (historical_data assumptions : gmap string Q)
    (loan_amount : Q) (year_data : income_projection_row) : exc balance_projection_row :=
  let current_assets := get_or historical_data "total_assets" 0 in
  let current_liabilities := get_or historical_data "total_liabilities" 0 in
  let current_equity := get_or historical_data "equity" 0 in
  let y := ip_year year_data in
  let net_income := ip_net_income year_data in
  let assets :=
    np_mul (Fin current_assets) (np_pow (1 + get_or assumptions "asset_growth" 0.05) y) in
  let existing_liabilities :=
    np_mul (Fin current_liabilities) (np_pow (1 + get_or assumptions "debt_growth" 0.03) y) in
  remaining_loan_balance ←
    (if Qgtb loan_amount 0
     then _calculate_remaining_loan_balance loan_amount y
            (get_or assumptions "repayment_period" 60)
     else Ok 0);
  let total_liabilities :=
    if Qgtb loan_amount 0 then np_add existing_liabilities (Fin remaining_loan_balance)
    else existing_liabilities in
  let equity := current_equity + net_income * inject_Z y in
  Ok {| bp_year := y;
        bp_total_assets := assets;
        bp_total_liabilities := total_liabilities;
        bp_equity := equity;
        bp_current_assets := np_mul assets (Fin 0.6);
        bp_current_liabilities := np_mul total_liabilities (Fin 0.4);
        bp_loan_balance := remaining_loan_balance;
        bp_existing_debt := existing_liabilities |}.

Fixpoint project_balance_sheet (historical_data assumptions : gmap string Q)
    (income_projections : list income_projection_row) (loan_amount : Q)
    : exc (list balance_projection_row) :=
  match income_projections with
  | [] => Ok []
  | year_data :: rest =>
      row ← balance_projection_of historical_data assumptions loan_amount year_data;
      rows ← project_balance_sheet historical_data assumptions rest loan_amount;
      Ok (row :: rows)
  end.

(** A row of the projected cash flow. *)
Record cashflow_projection_row := {
  cp_year : Z;
  cp_operating_cashflow : Q;
  cp_investing_cashflow : npfloat;
  cp_financing_cashflow : Q;
  cp_net_cashflow : npfloat;
  cp_loan_impact : Q
}.

(** The body of the loop of [project_cash_flow] for one pair of rows. *)
Definition cashflow_projection_of (assumptions : gmap string Q) (loan_amount : Q)
    (repayment_schedule : option (list schedule_row))
    (income : income_projection_row) (balance : balance_projection_row)
    : cashflow_projection_row :=
  let y := ip_year income in
  let net_income := ip_net_income income in
  let interest_expense := ip_interest_expense income in
  let operating_cashflow := net_income + interest_expense in
  let investing_cashflow :=
    np_mul (np_neg (bp_total_assets balance))
           (Fin (get_or assumptions "capex_percentage" 0.1)) in
  let financing_cashflow :=
    match repayment_schedule with
    | Some _ =>
        if Qgtb loan_amount 0 then
          if (y =? 1)%Z then loan_amount
          else - _get_annual_loan_payment repayment_schedule y
        else 0
    | None => 0
    end in
  let net_cashflow :=
    np_add (np_add (Fin operating_cashflow) investing_cashflow) (Fin financing_cashflow) in
  {| cp_year := y;
     cp_operating_cashflow := operating_cashflow;
     cp_investing_cashflow := investing_cashflow;
     cp_financing_cashflow := financing_cashflow;
     cp_net_cashflow := net_cashflow;
     cp_loan_impact := financing_cashflow |}.

(** [project_cash_flow]: the rows of the two projections are paired by
    [zip], which stops at the shorter one. *)
Fixpoint project_cash_flow (assumptions : gmap string Q)
    (income_projections : list income_projection_row)
    (balance_projections : list balance_projection_row) (loan_amount : Q)
    (repayment_schedule : option (list schedule_row)) : list cashflow_projection_row :=
  match income_projections, balance_projections with
  | income :: incomes, balance :: balances =>
      cashflow_projection_of assumptions loan_amount repayment_schedule income balance
      :: project_cash_flow assumptions incomes balances loan_amount repayment_schedule
  | _, _ => []
  end.

End FinancialProjections.

(** ** modules/risk_models.py *)

Module RiskModels.
Import PyNum.
Local Open Scope Q_scope.

Definition altman_z_score (working_capital retained_earnings ebit
    market_value_equity total_assets total_liabilities : Q) : exc Q :=
  if Qeq_bool total_assets 0 then Ok 0
  else
    X1 ← py_div working_capital total_assets;
    X2 ← py_div retained_earnings total_assets;
    X3 ← py_div ebit total_assets;
    X4 ← div_if (Qgtb total_liabilities 0) market_value_equity total_liabilities;
    let X5 := total_assets in
    let z_score := 1.2 * X1 + 1.4 * X2 + 3.3 * X3 + 0.6 * X4 + 1.0 * X5 in
    Ok z_score.

Definition interpret_altman_z_score (z_score : Q) : string * string :=
  if Qgtb z_score 2.99 then ("Safe Zone", "Low bankruptcy risk")
  else if Qgtb z_score 1.81 then ("Grey Zone", "Moderate bankruptcy risk")
  else ("Distress Zone", "High bankruptcy risk").

Section Merton.

(** The transcendental functions of NumPy and SciPy on the finite
    arguments where they are defined: the natural logarithm of a
    positive number, the square root of a non-negative number and the
    standard normal distribution function. *)
Variables (ln sqrt Phi : Q -> Q).

(** [np.log]: nan below zero, -inf at zero; a warning, no exception. *)
Definition np_log (x : Q) : npfloat :=
  if Qltb x 0 then NaN else if Qeq_bool x 0 then NInf else Fin (ln x).

(** [np.sqrt]: nan below zero. *)
Definition np_sqrt (x : Q) : npfloat :=
  if Qltb x 0 then NaN else Fin (sqrt x).

(** [stats.norm.cdf] *)
Definition norm_cdf (x : npfloat) : npfloat :=
  match x with
  | Fin q => Fin (Phi q)
  | PInf => Fin 1
  | NInf => Fin 0
  | NaN => NaN
  end.

(** The body of the [try] block, for arguments that are Python floats.
    Two of its operations raise: the quotient of the two Python numbers
    (ZeroDivisionError) and the power [volatility**2] (OverflowError), in
    this order of evaluation; everything downstream of [np.log] and
    [np.sqrt] is NumPy arithmetic, which returns nan or inf. *)
Definition merton_body (company_value debt_face_value risk_free_rate
    volatility time_to_maturity : Q) : exc (npfloat * npfloat) :=
  ratio ← py_div company_value debt_face_value;
  variance ← py_float_pow volatility 2;
  let spread := np_mul (Fin volatility) (np_sqrt time_to_maturity) in
  let d1 := np_div
              (np_add (np_log ratio)
                      (Fin ((risk_free_rate + 0.5 * variance) * time_to_maturity)))
              spread in
  let d2 := np_sub d1 spread in
  let probability_default := norm_cdf (np_neg d2) in
  let distance_to_default := d2 in
  Ok (probability_default, distance_to_default).

(** The fallback of the bare [except]. *)
Definition merton_fallback : npfloat * npfloat := (Fin 0.5, Fin 0).

Definition merton_structural_model (company_value debt_face_value risk_free_rate
    volatility time_to_maturity : Q) : npfloat * npfloat :=
  match merton_body company_value debt_face_value risk_free_rate
          volatility time_to_maturity with
  | Ok r => r
  | Raise _ => merton_fallback
  end.

End Merton.

Section MonteCarlo.

(** NumPy's global generator: its state, the state that [seed] installs
    and the draw of one normal variate of mean 0 and the given scale,
    which advances the state. *)
Variable rng : Type.
Variable seed : Z -> rng.
Variable draw_normal : Q -> rng -> Q * rng.

Fixpoint draws (scale : Q) (size : nat) (g : rng) : list Q * rng :=
  match size with
  | O => ([], g)
  | S size' =>
      let '(x, g1) := draw_normal scale g in
      let '(xs, g2) := draws scale size' g1 in
      (x :: xs, g2)
  end.

(** [np.random.normal(0, scale, size)]: a negative scale raises
    ValueError. *)
Definition np_random_normal (scale : Q) (size : nat) (g : rng) : exc (list Q) * rng :=
  if Qltb scale 0 then (Raise "ValueError", g)
  else let '(xs, g') := draws scale size g in (Ok xs, g').

(** The loop over [range(periods)]: each period's vector is the current
    cash flow times (1 + shock), and the next current cash flow is the
    mean of that vector. *)
Fixpoint simulate (volatility : Q) (simulations : nat) (periods : nat)
    (current_cashflow : npfloat) (g : rng) : exc (list (list npfloat)) * rng :=
  match periods with
  | O => (Ok [], g)
  | S periods' =>
      match np_random_normal volatility simulations g with
      | (Raise e, g1) => (Raise e, g1)
      | (Ok random_shocks, g1) =>
          let simulated_cashflows :=
            map (fun shock => np_mul current_cashflow (Fin (1 + shock))) random_shocks in
          match simulate volatility simulations periods'
                  (np_mean simulated_cashflows) g1 with
          | (Raise e, g2) => (Raise e, g2)
          | (Ok data, g2) => (Ok (simulated_cashflows :: data), g2)
          end
      end
  end.

(** [monte_carlo_cashflow_simulation], run from the generator state
    [g]: the result and the state it leaves behind. *)
Definition monte_carlo_cashflow_simulation (base_cashflow volatility : Q)
    (periods simulations : nat) (g : rng) : exc (list (list npfloat)) * rng :=
  let g0 := seed 42 in
  simulate volatility simulations periods (Fin base_cashflow) g0.

End MonteCarlo.

(** [financial_ratios.get(key, 0)] *)
Definition ratio (financial_ratios : gmap string Q) (key : string) : Q :=
  default 0 (financial_ratios !! key).

(** The score before the final [min(score, 100)]. *)
Definition rule_score (financial_ratios : gmap string Q) : Z :=
  let score := 0%Z in
  let score := if Qgtb (ratio financial_ratios "current_ratio") 1.5
               then (score + 25)%Z else score in
  let score := if Qltb (ratio financial_ratios "debt_to_equity") 2.0
               then (score + 25)%Z else score in
  let score := if Qgtb (ratio financial_ratios "return_on_assets") 0.05
               then (score + 25)%Z else score in
  let score := if Qgtb (ratio financial_ratios "net_profit_margin") 0.1
               then (score + 25)%Z else score in
  score.

Definition machine_learning_credit_scoring (financial_ratios : gmap string Q) : Z :=
  Z.min (rule_score financial_ratios) 100.

(** The worth of one satisfied threshold. *)
Definition points (satisfied : bool) : Z := if satisfied then 25%Z else 0%Z.

End RiskModels.

(** ** utils/file_processing.py *)

Module FileProcessor.
Import DataProcessor.

(** [df.empty]: no rows or no columns. *)
Definition df_empty (df : DataFrame) : bool :=
  match rows df, columns df with
  | [], _ | _, [] => true
  | _, _ => false
  end.

Definition sheet_financial_terms : list string :=
  ["revenue"; "income"; "profit"; "assets"; "liabilities"; "equity"; "cash"; "debt"].

(** [_looks_like_financial_data]; [None] is the missing sample. *)
Definition _looks_like_financial_data (df_sample : option DataFrame) : bool :=
  match df_sample with
  | None => false
  | Some df =>
      if df_empty df then false
      else
        let columns_lower := map PyStr.lower (columns df) in
        let financial_columns :=
          length (List.filter (fun term => any_col_contains term columns_lower)
                              sheet_financial_terms) in
        (2 <=? financial_columns)%nat
  end.

Definition text_financial_terms : list string :=
  ["revenue"; "sales"; "income"; "profit"; "loss"; "assets"; "liabilities";
   "equity"; "cash"; "debt"; "loan"; "interest"; "tax"; "ebitda"; "ebit";
   "current ratio"; "debt to equity"; "return on equity"; "net margin"].

(** [_extract_financial_terms] *)
Definition _extract_financial_terms (text : string) : list string :=
  let text_lower := PyStr.lower text in
  List.filter (fun term => PyStr.contains term text_lower) text_financial_terms.

End FileProcessor.

(** ** config/cbk_regulations.py *)

Module CBKRegulations.
Import PyNum.
Local Open Scope Q_scope.

Definition check_single_obligor_limit (loan_amount core_capital : npfloat) : bool :=
  np_leb loan_amount (np_mul core_capital (Fin 0.25)).

Definition check_sector_exposure (portfolio_exposure total_portfolio : npfloat) : bool :=
  np_leb portfolio_exposure (np_mul total_portfolio (Fin 0.30)).

Definition check_debt_service_ratio (debt_service_ratio : npfloat) : bool :=
  np_leb debt_service_ratio (Fin 0.50).

Definition check_liquidity_ratio (liquidity_ratio : npfloat) : bool :=
  np_leb (Fin 0.20) liquidity_ratio.

(** [loan_data[key]]: a missing key raises KeyError. *)
Definition item (loan_data : gmap string npfloat) (key : string) : exc npfloat :=
  match loan_data !! key with
  | Some v => Ok v
  | None => Raise "KeyError"
  end.

Definition generate_compliance_report (loan_data : gmap string npfloat)
    : exc (list string) :=
  loan_amount ← item loan_data "loan_amount";
  core_capital ← item loan_data "core_capital";
  let violations :=
    if negb (check_single_obligor_limit loan_amount core_capital)
    then ["Exceeds single obligor limit (25% of core capital)"] else [] in
  let violations :=
    if negb (check_debt_service_ratio
               (default (Fin 0) (loan_data !! "debt_service_ratio")))
    then violations ++ ["Debt service ratio exceeds 50%"] else violations in
  Ok violations.

(** The compliance check of the report page (pages/6, "CBK Compliance
    Check"): the debt service ratio handed to the report is the least dscr
    of the coverage analysis, 0.35 when there is none. A coverage
    analysis of no year is a frame without columns, and its ['dscr']
    raises KeyError. *)
Definition compliance_data (loan_amount core_capital : Q)
    (dscr_analysis : option (list FinancialProjections.dscr_row))
    : exc (gmap string npfloat) :=
  debt_service_ratio ←
    match dscr_analysis with
    | Some [] => Raise "KeyError"
    | Some analysis => Ok (series_min (map FinancialProjections.dscr analysis))
    | None => Ok (Fin 0.35)
    end;
  Ok (<["debt_service_ratio" := debt_service_ratio]>
      (<["core_capital" := Fin core_capital]>
      (<["loan_amount" := Fin loan_amount]> ∅))).

Definition page_compliance_check (loan_amount core_capital : Q)
    (dscr_analysis : option (list FinancialProjections.dscr_row)) : exc (list string) :=
  loan_data ← compliance_data loan_amount core_capital dscr_analysis;
  generate_compliance_report loan_data.

End CBKRegulations.

(** ** utils/helpers.py *)

Module Helpers.
Local Open Scope Q_scope.

(** [format_phone_number], on the text of the number. *)
Definition format_phone_number (phone : string) : string :=
  let phone := PyStr.strip phone in
  if PyStr.startswith phone "0" then "+254" +:+ PyStr.drop_chars 1 phone
  else if PyStr.startswith phone "254" then "+" +:+ phone
  else phone.

Definition calculate_loan_affordability (monthly_income monthly_expenses
    existing_debt_payments : Q) : Q :=
  let disposable_income := monthly_income - monthly_expenses - existing_debt_payments in
  let max_affordable_loan_payment := disposable_income * 0.4 in
  max_affordable_loan_payment.

End Helpers.

(** ** modules/auth.py *)

Module Authentication.

Definition role_hierarchy : gmap string nat :=
  <["Loan Officer" := 1%nat]>
  (<["Branch Manager" := 2%nat]>
  (<["Risk Manager" := 3%nat]>
  (<["Admin" := 4%nat]> ∅))).

(** [role_hierarchy.get(role, 0)] *)
Definition rank (role : string) : nat := default 0%nat (role_hierarchy !! role).

Definition check_permission (user_role required_role : string) : bool :=
  (rank required_role <=? rank user_role)%nat.

End Authentication.

(** * Properties *)

(** ** The substring test *)

Module PyStrFacts.
Import PyStr.

Lemma prefix_iff (needle hay : string) :
  String.prefix needle hay = true <-> exists post, hay = needle +:+ post.
Proof.
  revert hay. induction needle as [|c needle IH]; intros hay; simpl.
  - split; [intros _; exists hay; reflexivity | destruct hay; reflexivity].
  - destruct hay as [|d hay]; simpl.
    + split; [discriminate | intros [post H]; discriminate].
    + destruct (ascii_dec c d) as [->|Hne].
      * rewrite IH. split; intros [post H]; exists post.
        -- rewrite H. reflexivity.
        -- simpl in H. injection H as H. exact H.
      * split; [discriminate | intros [post H]; simpl in H; injection H as H1 H2; subst; contradiction].
Qed.

Lemma contains_iff (needle hay : string) :
  contains needle hay = true <-> is_substring needle hay.
Proof.
  unfold is_substring. induction hay as [|d hay IH].
  - change (contains needle "") with (String.prefix needle "" || false).
    rewrite orb_false_r, prefix_iff. split.
    + intros [post H]. exists "", post. exact H.
    + intros [pre [post H]]. destruct pre; [exists post; exact H | discriminate].
  - change (contains needle (String d hay))
      with (String.prefix needle (String d hay) || contains needle hay).
    rewrite orb_true_iff, prefix_iff, IH. split.
    + intros [[post H] | [pre [post H]]].
      * exists "", post. exact H.
      * exists (String d pre), post. rewrite H. reflexivity.
    + intros [pre [post H]]. destruct pre as [|e pre]; simpl in H.
      * left. exists post. exact H.
      * right. exists pre, post. injection H as H1 H2. exact H2.
Qed.

(** Python's [in] holds of the empty needle and of a string in itself. *)
Lemma contains_empty (hay : string) : contains "" hay = true.
Proof. apply contains_iff. exists "", hay. reflexivity. Qed.

End PyStrFacts.

(** ** Column renaming *)

Module ColumnMappingFacts.
Import PyStr PyStrFacts DataProcessor.

(** The boolean test of the inner loop decides the bidirectional
    substring rule. *)
Lemma any_possible_name_iff (possible_names : list string) (col_name : string) :
  any_possible_name possible_names (col_lower col_name) = true
  <-> key_matches possible_names col_name.
Proof.
  unfold any_possible_name, key_matches. rewrite existsb_exists. split.
  - intros [p [Hin Hp]]. exists p. split; [apply list_elem_of_In; exact Hin|].
    apply orb_true_iff in Hp. rewrite !contains_iff in Hp. exact Hp.
  - intros [p [Hin Hp]]. exists p. split; [apply list_elem_of_In; exact Hin|].
    apply orb_true_iff. rewrite !contains_iff. exact Hp.
Qed.

(** One pass over the columns writes the standard name at exactly the
    matching labels of the table. *)
Lemma map_columns_for_lookup (standard_name : string) (possible_names columns : list string)
    (m : gmap string string) (c : string) :
  map_columns_for standard_name possible_names columns m !! c =
  if bool_decide (c ∈ columns) && any_possible_name possible_names (col_lower c)
  then Some standard_name else m !! c.
Proof.
  unfold map_columns_for. revert m.
  induction columns as [|col columns IH]; intros m; simpl; [reflexivity|].
  rewrite IH. destruct (decide (c = col)) as [->|Hne].
  - rewrite (bool_decide_eq_true_2 (col ∈ col :: columns)) by left.
    destruct (any_possible_name possible_names (col_lower col)) eqn:Hm; simpl.
    + rewrite lookup_insert_eq. destruct (bool_decide (col ∈ columns)); reflexivity.
    + rewrite andb_false_r. reflexivity.
  - assert (Hdec : bool_decide (c ∈ col :: columns) = bool_decide (c ∈ columns)).
    { apply bool_decide_ext. rewrite elem_of_cons. tauto. }
    rewrite Hdec.
    destruct (bool_decide (c ∈ columns) && any_possible_name possible_names (col_lower c));
      [reflexivity|].
    destruct (any_possible_name possible_names (col_lower col)); [|reflexivity].
    rewrite lookup_insert_ne by congruence. reflexivity.
Qed.

Lemma last_match_in_cons (kv : string * list string) (mappings : list (string * list string))
    (c : string) :
  last_match_in (kv :: mappings) c =
  match last_match_in mappings c with
  | Some k => Some k
  | None => if any_possible_name kv.2 (col_lower c) then Some kv.1 else None
  end.
Proof.
  unfold last_match_in. simpl rev.
  induction (rev mappings) as [|x l IH]; simpl.
  - destruct (any_possible_name kv.2 (col_lower c)); reflexivity.
  - destruct (any_possible_name x.2 (col_lower c)); [reflexivity | exact IH].
Qed.

(** The dictionary built by the two nested loops holds, for every label
    of the table, the last matching key. *)
Lemma build_column_mapping_lookup (mappings : list (string * list string))
    (columns : list string) (c : string) :
  build_column_mapping mappings columns !! c =
  if bool_decide (c ∈ columns) then last_match_in mappings c else None.
Proof.
  unfold build_column_mapping.
  assert (G : forall m : gmap string string,
             foldl (fun m kv => map_columns_for kv.1 kv.2 columns m) m mappings !! c =
             match (if bool_decide (c ∈ columns) then last_match_in mappings c else None) with
             | Some k => Some k
             | None => m !! c
             end).
  { induction mappings as [|kv mappings IH]; intros m; simpl.
    - destruct (bool_decide (c ∈ columns)); reflexivity.
    - rewrite IH, last_match_in_cons, map_columns_for_lookup.
      destruct (bool_decide (c ∈ columns)); simpl; [|reflexivity].
      destruct (last_match_in mappings c); [reflexivity|].
      destruct (any_possible_name kv.2 (col_lower c)); reflexivity. }
  rewrite G, lookup_empty.
  destruct (bool_decide (c ∈ columns)); [|reflexivity].
  destruct (last_match_in mappings c); reflexivity.
Qed.

(** Renaming acts on each label by itself. *)
Lemma map_column_names_pointwise (columns : list string) :
  _map_column_names columns = map (fun c => default c (last_match c)) columns.
Proof.
  unfold _map_column_names, rename, last_match.
  case_bool_decide as Hempty.
  - rewrite <- (map_id columns) at 1. apply map_ext_in. intros c Hc.
    apply list_elem_of_In in Hc.
    pose proof (build_column_mapping_lookup column_mappings columns c) as L.
    rewrite Hempty, lookup_empty, bool_decide_eq_true_2 in L by exact Hc.
    rewrite <- L. reflexivity.
  - apply map_ext_in. intros c Hc. apply list_elem_of_In in Hc.
    rewrite build_column_mapping_lookup, bool_decide_eq_true_2 by exact Hc.
    reflexivity.
Qed.

(** The last matching key, read through the rule. *)
Lemma last_match_in_last (before after : list (string * list string))
    (key : string) (names : list string) (c : string) :
  key_matches names c ->
  (forall kv, kv ∈ after -> ~ key_matches kv.2 c) ->
  last_match_in (before ++ (key, names) :: after) c = Some key.
Proof.
  intros Hm Hafter. induction before as [|kv before IH]; simpl.
  - induction after as [|kv after IHa].
    + rewrite last_match_in_cons. simpl.
      apply any_possible_name_iff in Hm. rewrite Hm. reflexivity.
    + rewrite last_match_in_cons.
      assert (Hnone : last_match_in (kv :: after) c = None).
      { clear IHa. induction (kv :: after) as [|kv' l IHl]; [reflexivity|].
        rewrite last_match_in_cons, IHl.
        - destruct (any_possible_name kv'.2 (col_lower c)) eqn:E; [|reflexivity].
          apply any_possible_name_iff in E. exfalso.
          apply (Hafter kv'); [left | exact E].
        - intros kv0 H0. apply Hafter. right. exact H0. }
      rewrite Hnone. simpl.
      apply any_possible_name_iff in Hm. rewrite Hm. reflexivity.
  - rewrite last_match_in_cons, IH. reflexivity.
Qed.

Lemma last_match_in_none (mappings : list (string * list string)) (c : string) :
  (forall kv, kv ∈ mappings -> ~ key_matches kv.2 c) ->
  last_match_in mappings c = None.
Proof.
  induction mappings as [|kv l IH]; intros H; [reflexivity|].
  rewrite last_match_in_cons, IH.
  - destruct (any_possible_name kv.2 (col_lower c)) eqn:E; [|reflexivity].
    apply any_possible_name_iff in E. exfalso. apply (H kv); [left | exact E].
  - intros kv0 H0. apply H. right. exact H0.
Qed.

(** C1 (as amended): in every table, the column at position [i] is
    renamed by the bidirectional substring rule, and the LAST canonical
    key, in the fixed key order, whose synonym list matches the label is
    the one that names it; a label that no key matches is passed through;
    the label is given one name only. In particular a column named
    "Net Profit After Tax" becomes net_income and a column named "assets"
    becomes current_assets. *)
Theorem map_column_names_last_key_wins (columns : list string) (i : nat)
    (col_name : string) :
  columns !! i = Some col_name ->
  length (_map_column_names columns) = length columns /\
  (forall before key names after,
      column_mappings = before ++ (key, names) :: after ->
      key_matches names col_name ->
      (forall kv, kv ∈ after -> ~ key_matches kv.2 col_name) ->
      _map_column_names columns !! i = Some key) /\
  ((forall kv, kv ∈ column_mappings -> ~ key_matches kv.2 col_name) ->
      _map_column_names columns !! i = Some col_name) /\
  (col_name = "Net Profit After Tax" ->
      _map_column_names columns !! i = Some "net_income") /\
  (col_name = "assets" ->
      _map_column_names columns !! i = Some "current_assets").
Proof.
  intros Hi. rewrite map_column_names_pointwise.
  rewrite length_map, list_lookup_fmap, Hi. simpl.
  split; [reflexivity|]. split; [|split; [|split]].
  - intros before key names after Heq Hm Hafter. unfold last_match.
    rewrite Heq, (last_match_in_last before after key names col_name Hm Hafter).
    reflexivity.
  - intros Hnone. unfold last_match. rewrite last_match_in_none by exact Hnone.
    reflexivity.
  - intros ->. reflexivity.
  - intros ->. reflexivity.
Qed.

Lemma map_column_names_last_key_wins_witness :
  _map_column_names ["Total Assets"; "assets"; "memo"] !! 1%nat = Some "current_assets".
Proof.
  pose proof (map_column_names_last_key_wins
                ["Total Assets"; "assets"; "memo"] 1 "assets" eq_refl) as H.
  exact (proj2 (proj2 (proj2 (proj2 H))) eq_refl).
Defined.

(** C1, as stated, fails: for the label "assets" the first matching key
    is total_assets, and the column is renamed current_assets. *)
Lemma first_key_does_not_win :
  first_match "assets" = Some "total_assets" /\
  _map_column_names ["assets"] = ["current_assets"] /\
  _map_column_names ["assets"] <> ["total_assets"].
Proof.
  split; [reflexivity|]. split; [reflexivity|].
  intros H. vm_compute in H. discriminate H.
Qed.

End ColumnMappingFacts.

(** ** Statement classification *)

Module ClassifierFacts.
Import DataProcessor.

(** A unique best category is returned without consulting the
    tie-breaker. *)
Lemma detect_unique_best (columns : list string) (t : statement_type) :
  (0 < max_score columns)%nat ->
  best_types columns = [t] ->
  detect_financial_statement_type columns = t.
Proof.
  intros Hpos Hbest. unfold detect_financial_statement_type.
  apply Nat.ltb_lt in Hpos. rewrite Hpos, Hbest. reflexivity.
Qed.

(** A table without any indicator is unknown. *)
Lemma detect_no_columns : detect_financial_statement_type [] = unknown.
Proof. reflexivity. Qed.

(** C5 (as amended): for the labels "Total Revenue", "Net Profit After
    Tax", "Total Assets", "Total Liabilities" the income score is 1 (only
    revenue occurs: no label contains "net income"), the balance-sheet
    score is 2 (assets, liabilities) and the cash-flow score is 0, so
    balance_sheet is the only category with the maximal score and is
    returned as such; the tie-breaker, which would also answer
    balance_sheet (no label contains "cash flow", one contains "assets"
    and one contains "liabilities"), is not consulted. *)
Theorem example_classifies_as_balance_sheet :
  income_score example_labels = 1%nat /\
  filter (fun ind => any_col_contains ind (column_names_lower example_labels) = true)
         income_indicators = ["revenue"] /\
  balance_score example_labels = 2%nat /\
  filter (fun ind => any_col_contains ind (column_names_lower example_labels) = true)
         balance_indicators = ["assets"; "liabilities"] /\
  cashflow_score example_labels = 0%nat /\
  best_types example_labels = [balance_sheet] /\
  detect_financial_statement_type example_labels = balance_sheet /\
  any_col_contains "cash flow" (column_names_lower example_labels) = false /\
  any_col_contains "assets" (column_names_lower example_labels) = true /\
  any_col_contains "liabilities" (column_names_lower example_labels) = true /\
  tie_break example_labels = balance_sheet.
Proof. repeat split; reflexivity. Qed.

(** C5, as stated, fails: the income score of these labels is not 2, and
    the two categories are not tied. *)
Lemma example_income_score_is_not_two :
  income_score example_labels <> 2%nat /\
  income_score example_labels <> balance_score example_labels /\
  any_col_contains "net income" (column_names_lower example_labels) = false.
Proof. repeat split; try reflexivity; intros H; vm_compute in H; discriminate H. Qed.

End ClassifierFacts.

(** ** Metric extraction *)

Module ExtractFacts.
Import DataProcessor PyNum.
Local Open Scope Q_scope.

(** Row selection fails on a table without rows. *)
Lemma latest_row_empty (cols : list string) :
  latest_row {| columns := cols; rows := [] |} = Raise "IndexError".
Proof. reflexivity. Qed.

(** With one row, that row is the latest one. *)
Lemma latest_row_single (cols : list string) (r : list cell) :
  latest_row {| columns := cols; rows := [r] |} = Ok r.
Proof. reflexivity. Qed.

(** C9: metric extraction is total at its public interface. For every
    parser of numeric strings, every table and every statement type,
    either the body of the try block returns a metric mapping, which is
    the result, or it raises, and the result is the empty mapping; no
    exception leaves the function. A table without rows is an instance of
    the second case: selecting the latest row raises IndexError, and the
    empty mapping is returned. *)
Theorem extract_financial_metrics_never_raises (float_of_str : string -> option Q)
    (df : DataFrame) (st : statement_type) (cols : list string) :
  ((exists metrics, extract_body float_of_str df st = Ok metrics /\
                    extract_financial_metrics float_of_str df st = metrics) \/
   (exists e, extract_body float_of_str df st = Raise e /\
              extract_financial_metrics float_of_str df st = ∅)) /\
  extract_body float_of_str {| columns := cols; rows := [] |} st = Raise "IndexError" /\
  extract_financial_metrics float_of_str {| columns := cols; rows := [] |} st = ∅.
Proof.
  split; [|split; reflexivity].
  unfold extract_financial_metrics.
  destruct (extract_body float_of_str df st) as [metrics|e].
  - left. exists metrics. split; reflexivity.
  - right. exists e. split; reflexivity.
Qed.

(** Extraction at work: the latest year is selected, zero and missing
    cells are skipped, and the gross profit of an income statement is
    recomputed; a table in which a metric label is ambiguous makes the
    body raise, and the result is the empty mapping. *)
Lemma extract_examples (float_of_str : string -> option Q) :
  extract_financial_metrics float_of_str
    {| columns := ["year"; "revenue"; "cogs"; "equity"];
       rows := [ [CNum 2021; CNum 120; CNum 70; CNaN];
                 [CNum 2020; CNum 100; CNum 60; CNum 0] ] |}
    income_statement
  = <["gross_profit" := 120 - 70]> (<["cogs" := 70]> (<["revenue" := 120]> ∅)) /\
  extract_body float_of_str
    {| columns := ["revenue"; "revenue"]; rows := [ [CNum 1; CNum 2] ] |} unknown
  = Raise "ValueError" /\
  extract_financial_metrics float_of_str
    {| columns := ["revenue"; "revenue"]; rows := [ [CNum 1; CNum 2] ] |} unknown
  = ∅.
Proof. repeat split; vm_compute; reflexivity. Qed.

End ExtractFacts.

(** ** Comparisons and arithmetic on rationals *)

Module PyNumFacts.
Import PyNum.
Local Open Scope Q_scope.

Lemma Qltb_iff (x y : Q) : Qltb x y = true <-> x < y.
Proof.
  unfold Qltb. rewrite negb_true_iff. split.
  - intros H. apply Qnot_le_lt. intros Hle. apply Qle_bool_iff in Hle. congruence.
  - intros H. destruct (Qle_bool y x) eqn:E; [|reflexivity].
    apply Qle_bool_iff in E. exfalso. exact (Qlt_not_le _ _ H E).
Qed.

Lemma Qltb_false_iff (x y : Q) : Qltb x y = false <-> y <= x.
Proof.
  unfold Qltb. rewrite negb_false_iff. apply Qle_bool_iff.
Qed.

Lemma Qgtb_iff (x y : Q) : Qgtb x y = true <-> y < x.
Proof. apply Qltb_iff. Qed.

Lemma Qgtb_false_iff (x y : Q) : Qgtb x y = false <-> x <= y.
Proof. apply Qltb_false_iff. Qed.

Lemma Qeq_bool_false_iff (x y : Q) : Qeq_bool x y = false <-> ~ x == y.
Proof.
  split.
  - intros H Heq. apply Qeq_bool_iff in Heq. congruence.
  - intros H. destruct (Qeq_bool x y) eqn:E; [|reflexivity].
    apply Qeq_bool_iff in E. contradiction.
Qed.

(** A division by a non-zero number returns the quotient. *)
Lemma py_div_ok (a b : Q) : ~ b == 0 -> py_div a b = Ok (a / b).
Proof.
  intros H. unfold py_div. apply Qeq_bool_false_iff in H. rewrite H. reflexivity.
Qed.

(** The guard [b > 0] protects the division. *)
Lemma div_if_gt (a b : Q) :
  div_if (Qgtb b 0) a b = Ok (if Qgtb b 0 then a / b else 0).
Proof.
  unfold div_if. destruct (Qgtb b 0) eqn:E; [|reflexivity].
  apply py_div_ok. apply Qgtb_iff in E. lra.
Qed.

Lemma Qdiv_nonneg (a b : Q) : 0 <= a -> 0 <= b -> 0 <= a / b.
Proof.
  intros Ha Hb. unfold Qdiv. apply Qmult_le_0_compat; [exact Ha|].
  apply Qinv_le_0_compat. exact Hb.
Qed.

Lemma max0_nonneg (x : Q) : 0 <= max0 x.
Proof.
  unfold max0. destruct (Qgtb x 0) eqn:E.
  - apply Qgtb_iff in E. apply Qlt_le_weak. exact E.
  - apply Qle_refl.
Qed.

Lemma max0_of_nonneg (x : Q) : 0 <= x -> max0 x == x.
Proof.
  intros H. unfold max0. destruct (Qgtb x 0) eqn:E; [reflexivity|].
  apply Qgtb_false_iff in E. apply Qle_antisym; assumption.
Qed.

End PyNumFacts.

(** ** Ratio analysis *)

Module RatioFacts.
Import PyNum PyNumFacts FinancialAnalyzer.
Local Open Scope Q_scope.

(** The four ratio functions never raise: every division is behind a
    guard that excludes a zero divisor. *)
Lemma liquidity_ratios_value (current_assets current_liabilities : Q) :
  calculate_liquidity_ratios current_assets current_liabilities =
  Ok (if Qeq_bool current_liabilities 0
      then {| current_ratio := 0; quick_ratio := 0 |}
      else {| current_ratio := current_assets / current_liabilities;
              quick_ratio := current_assets / current_liabilities |}).
Proof.
  unfold calculate_liquidity_ratios.
  destruct (Qeq_bool current_liabilities 0) eqn:E; [reflexivity|].
  rewrite py_div_ok by (apply Qeq_bool_false_iff; exact E). reflexivity.
Qed.

Lemma profitability_ratios_value (revenue net_income total_assets equity : Q) :
  calculate_profitability_ratios revenue net_income total_assets equity =
  Ok {| return_on_assets := if Qgtb total_assets 0 then net_income / total_assets else 0;
        return_on_equity := if Qgtb equity 0 then net_income / equity else 0;
        net_profit_margin := if Qgtb revenue 0 then net_income / revenue else 0 |}.
Proof. unfold calculate_profitability_ratios. rewrite !div_if_gt. reflexivity. Qed.

Lemma leverage_ratios_value (total_liabilities total_assets equity : Q) :
  calculate_leverage_ratios total_liabilities total_assets equity =
  Ok {| debt_to_equity := if Qgtb equity 0 then total_liabilities / equity else 0;
        debt_to_assets :=
          if Qgtb total_assets 0 then total_liabilities / total_assets else 0 |}.
Proof. unfold calculate_leverage_ratios. rewrite !div_if_gt. reflexivity. Qed.

Lemma efficiency_ratios_value (revenue total_assets accounts_receivable : Q) :
  calculate_efficiency_ratios revenue total_assets accounts_receivable =
  Ok {| asset_turnover := if Qgtb total_assets 0 then revenue / total_assets else 0;
        receivables_turnover :=
          if Qgtb accounts_receivable 0 then revenue / accounts_receivable else 0 |}.
Proof. unfold calculate_efficiency_ratios. rewrite !div_if_gt. reflexivity. Qed.

Lemma comprehensive_ratios_never_raise (financial_data : gmap string Q) :
  exists ratios, comprehensive_ratios financial_data = Ok ratios.
Proof.
  unfold comprehensive_ratios.
  rewrite liquidity_ratios_value, profitability_ratios_value,
    leverage_ratios_value, efficiency_ratios_value.
  eexists. reflexivity.
Qed.

(** C6 (as amended): for every metric set whose current_assets,
    current_liabilities and total_liabilities are not negative (equity
    and total_assets being any numbers), the ratio functions return
    without a division error and the computed current_ratio and
    debt_to_equity are not negative; the guards return 0 for the ratio
    where the division would fail or is not wanted: the current ratio is
    0 when current_liabilities is 0, debt_to_equity is 0 when equity is
    not positive. *)
Theorem ratios_nonneg_on_nonneg_inputs
    (current_assets current_liabilities total_liabilities total_assets equity : Q) :
  0 <= current_assets -> 0 <= current_liabilities -> 0 <= total_liabilities ->
  exists liquidity leverage,
    calculate_liquidity_ratios current_assets current_liabilities = Ok liquidity /\
    calculate_leverage_ratios total_liabilities total_assets equity = Ok leverage /\
    0 <= current_ratio liquidity /\
    0 <= debt_to_equity leverage /\
    (current_liabilities == 0 -> current_ratio liquidity = 0) /\
    (equity <= 0 -> debt_to_equity leverage = 0).
Proof.
  intros Hca Hcl Htl.
  rewrite liquidity_ratios_value, leverage_ratios_value.
  eexists. eexists. split; [reflexivity|]. split; [reflexivity|].
  split; [|split; [|split]].
  - destruct (Qeq_bool current_liabilities 0); simpl;
      [apply Qle_refl | apply Qdiv_nonneg; assumption].
  - simpl. destruct (Qgtb equity 0) eqn:E; [|apply Qle_refl].
    apply Qdiv_nonneg; [exact Htl|]. apply Qgtb_iff in E. apply Qlt_le_weak. exact E.
  - intros Hz. apply Qeq_bool_iff in Hz. rewrite Hz. reflexivity.
  - intros Hle. simpl. apply Qgtb_false_iff in Hle. rewrite Hle. reflexivity.
Qed.

Lemma ratios_nonneg_on_nonneg_inputs_witness :
  exists liquidity leverage,
    calculate_liquidity_ratios 3 2 = Ok liquidity /\
    calculate_leverage_ratios 5 10 (-4) = Ok leverage /\
    0 <= current_ratio liquidity /\
    0 <= debt_to_equity leverage.
Proof.
  assert (H3 : 0 <= 3) by (vm_compute; discriminate).
  assert (H2 : 0 <= 2) by (vm_compute; discriminate).
  assert (H5 : 0 <= 5) by (vm_compute; discriminate).
  destruct (ratios_nonneg_on_nonneg_inputs 3 2 5 10 (-4) H3 H2 H5)
    as [liquidity [leverage [Hliq [Hlev [Hcr [Hde _]]]]]].
  exists liquidity, leverage. repeat split; assumption.
Defined.

(** C6, as stated, fails on negative amounts: the division is guarded
    against a zero divisor only, not against the sign of its operands. *)
Lemma ratios_negative_on_negative_inputs :
  (exists liquidity, calculate_liquidity_ratios (-1) 1 = Ok liquidity /\
                     current_ratio liquidity < 0) /\
  (exists liquidity, calculate_liquidity_ratios 1 (-1) = Ok liquidity /\
                     current_ratio liquidity < 0) /\
  (exists leverage, calculate_leverage_ratios (-1) 1 1 = Ok leverage /\
                    debt_to_equity leverage < 0).
Proof. repeat split; eexists; split; reflexivity. Qed.

End RatioFacts.

(** ** Risk scores *)

Module RiskFacts.
Import PyNum PyNumFacts RiskModels.
Local Open Scope Q_scope.

(** C4: the Altman Z computation returns exactly 0 when total_assets is
    0 (no division takes place, and none raises); otherwise it returns
    1.2 X1 + 1.4 X2 + 3.3 X3 + 0.6 X4 + 1.0 X5, where X1, X2, X3 are
    working capital, retained earnings and ebit over total assets, X4 is
    market_value_equity / total_liabilities, or 0 when total_liabilities
    is not positive, and X5 is total_assets. The interpretation maps
    z > 2.99 to the safe zone, 1.81 < z <= 2.99 to the grey zone and
    z <= 1.81 to the distress zone. *)
Theorem altman_z_score_spec
    (working_capital retained_earnings ebit market_value_equity
     total_assets total_liabilities z : Q) :
  ((total_assets == 0 /\
    altman_z_score working_capital retained_earnings ebit market_value_equity
      total_assets total_liabilities = Ok 0) \/
   (~ total_assets == 0 /\
    exists X4,
      ((0 < total_liabilities /\ X4 = market_value_equity / total_liabilities) \/
       (total_liabilities <= 0 /\ X4 = 0)) /\
      altman_z_score working_capital retained_earnings ebit market_value_equity
        total_assets total_liabilities =
      Ok (1.2 * (working_capital / total_assets) + 1.4 * (retained_earnings / total_assets)
          + 3.3 * (ebit / total_assets) + 0.6 * X4 + 1.0 * total_assets))) /\
  ((2.99 < z /\ interpret_altman_z_score z = ("Safe Zone", "Low bankruptcy risk")) \/
   (1.81 < z /\ z <= 2.99 /\
    interpret_altman_z_score z = ("Grey Zone", "Moderate bankruptcy risk")) \/
   (z <= 1.81 /\
    interpret_altman_z_score z = ("Distress Zone", "High bankruptcy risk"))).
Proof.
  split.
  - unfold altman_z_score. destruct (Qeq_bool total_assets 0) eqn:E.
    + left. split; [apply Qeq_bool_iff; exact E | reflexivity].
    + right. apply Qeq_bool_false_iff in E. split; [exact E|].
      rewrite !py_div_ok, div_if_gt by exact E.
      destruct (Qgtb total_liabilities 0) eqn:G.
      * exists (market_value_equity / total_liabilities). split; [|reflexivity].
        left. split; [apply Qgtb_iff; exact G | reflexivity].
      * exists 0. split; [|reflexivity].
        right. split; [apply Qgtb_false_iff; exact G | reflexivity].
  - unfold interpret_altman_z_score. destruct (Qgtb z 2.99) eqn:E1.
    + left. split; [apply Qgtb_iff; exact E1 | reflexivity].
    + right. destruct (Qgtb z 1.81) eqn:E2.
      * left. split; [apply Qgtb_iff; exact E2|].
        split; [apply Qgtb_false_iff; exact E1 | reflexivity].
      * right. split; [apply Qgtb_false_iff; exact E2 | reflexivity].
Qed.

(** The zone boundaries themselves: 2.99 is grey, 1.81 is distress. *)
Lemma altman_zone_boundaries :
  fst (interpret_altman_z_score 2.99) = "Grey Zone" /\
  fst (interpret_altman_z_score 1.81) = "Distress Zone" /\
  fst (interpret_altman_z_score 3) = "Safe Zone".
Proof. repeat split. Qed.

(** C10: for every ratio mapping, the rule-based credit score is the sum
    of four indicators worth 25 points each (current_ratio > 1.5,
    debt_to_equity < 2.0, return_on_assets > 0.05, net_profit_margin >
    0.1, a missing ratio counting as 0), each of which looks at its own
    ratio only; the score therefore is one of 0, 25, 50, 75, 100, and
    the final cap at 100 returns the sum unchanged. *)
Theorem credit_score_is_sum_of_four_indicators (financial_ratios : gmap string Q) :
  machine_learning_credit_scoring financial_ratios =
    (points (Qgtb (ratio financial_ratios "current_ratio") 1.5)
     + points (Qltb (ratio financial_ratios "debt_to_equity") 2.0)
     + points (Qgtb (ratio financial_ratios "return_on_assets") 0.05)
     + points (Qgtb (ratio financial_ratios "net_profit_margin") 0.1))%Z /\
  machine_learning_credit_scoring financial_ratios ∈ [0; 25; 50; 75; 100]%Z /\
  machine_learning_credit_scoring financial_ratios = rule_score financial_ratios.
Proof.
  unfold machine_learning_credit_scoring, rule_score, points.
  destruct (Qgtb (ratio financial_ratios "current_ratio") 1.5),
           (Qltb (ratio financial_ratios "debt_to_equity") 2.0),
           (Qgtb (ratio financial_ratios "return_on_assets") 0.05),
           (Qgtb (ratio financial_ratios "net_profit_margin") 0.1);
    (split; [reflexivity | split; [|reflexivity]]);
    cbn; repeat (first [apply list_elem_of_here | apply list_elem_of_further]).
Qed.

(** The thresholds are strict, and an absent debt_to_equity scores. *)
Lemma credit_score_examples :
  machine_learning_credit_scoring ∅ = 25%Z /\
  machine_learning_credit_scoring
    (<["current_ratio" := 1.5]> (<["debt_to_equity" := 2.0]> ∅)) = 0%Z /\
  machine_learning_credit_scoring
    (<["current_ratio" := 2]> (<["debt_to_equity" := 1]>
     (<["return_on_assets" := 0.06]> (<["net_profit_margin" := 0.2]> ∅)))) = 100%Z.
Proof. repeat split. Qed.

End RiskFacts.

(** ** Debt service coverage *)

Module CoverageFacts.
Import PyNum PyNumFacts FinancialProjections.
Local Open Scope Q_scope.

Lemma get_annual_loan_payment_sum (repayment_schedule : option (list schedule_row))
    (y : Z) :
  _get_annual_loan_payment repayment_schedule y = year_payments repayment_schedule y.
Proof.
  destruct repayment_schedule as [[|r schedule]|]; try reflexivity.
  unfold _get_annual_loan_payment, year_payments.
  fold (in_year y).
  destruct (List.filter (in_year y) (r :: schedule)); reflexivity.
Qed.

Lemma np_geb_iff (x : npfloat) (c : Q) : np_geb x c = true <-> np_ge x c.
Proof.
  destruct x; simpl; try (split; [discriminate | contradiction]).
  - apply Qle_bool_iff.
  - split; [intros _; exact I | reflexivity].
Qed.

(** One row of the series: the division is behind the guard
    [total_debt_service > 0] and does not raise. *)
Lemma dscr_of_row_ok (repayment_schedule : option (list schedule_row))
    (income : income_row) :
  exists row,
    dscr_of_row repayment_schedule income = Ok row /\
    dscr_year row = year income /\
    total_debt_service row =
      default 0 (interest_expense income) + year_payments repayment_schedule (year income) /\
    ((0 < total_debt_service row /\
      dscr row = Fin (ebitda income / total_debt_service row)) \/
     (total_debt_service row <= 0 /\ dscr row = PInf)) /\
    (status row = Adequate <-> np_ge (dscr row) 1.25).
Proof.
  unfold dscr_of_row. rewrite get_annual_loan_payment_sum.
  set (tds := default 0 (interest_expense income)
              + year_payments repayment_schedule (year income)).
  assert (Hst : forall d, (if np_geb d 1.25 then Adequate else Inadequate) = Adequate
                          <-> np_ge d 1.25).
  { intros d. rewrite <- np_geb_iff. destruct (np_geb d 1.25); split; congruence. }
  destruct (Qgtb tds 0) eqn:E.
  - apply Qgtb_iff in E. rewrite py_div_ok by lra. cbn.
    eexists. split; [reflexivity|]. cbn.
    split; [reflexivity|]. split; [reflexivity|].
    split; [left; split; [exact E | reflexivity]|].
    exact (Hst (Fin (ebitda income / tds))).
  - apply Qgtb_false_iff in E. cbn.
    eexists. split; [reflexivity|]. cbn.
    split; [reflexivity|]. split; [reflexivity|].
    split; [right; split; [exact E | reflexivity]|].
    exact (Hst PInf).
Qed.

(** The series has one row per projected year, in order. *)
Lemma dscr_series_rows (income_projections : list income_row)
    (repayment_schedule : option (list schedule_row)) :
  exists rows,
    calculate_debt_service_coverage_ratio income_projections repayment_schedule = Ok rows /\
    Forall2 (fun income row => dscr_of_row repayment_schedule income = Ok row)
            income_projections rows.
Proof.
  induction income_projections as [|income rest IH]; simpl.
  - exists []. split; [reflexivity | constructor].
  - destruct IH as [rows [Hrows Hall]].
    destruct (dscr_of_row_ok repayment_schedule income) as [row [Hrow _]].
    rewrite Hrow, Hrows. cbn. exists (row :: rows).
    split; [reflexivity | constructor; assumption].
Qed.

(** The row of one projected year, whatever the sign of the inputs: the
    guard of the division is [total_debt_service > 0]. *)
Lemma dscr_series_row (income_projections : list income_row)
    (repayment_schedule : option (list schedule_row)) (i : nat) (income : income_row) :
  income_projections !! i = Some income ->
  exists rows row,
    calculate_debt_service_coverage_ratio income_projections repayment_schedule
      = Ok rows /\
    length rows = length income_projections /\
    rows !! i = Some row /\
    dscr_year row = year income /\
    total_debt_service row =
      default 0 (interest_expense income) + year_payments repayment_schedule (year income) /\
    ((0 < total_debt_service row /\
      dscr row = Fin (ebitda income / total_debt_service row)) \/
     (total_debt_service row <= 0 /\ dscr row = PInf)) /\
    (status row = Adequate <-> np_ge (dscr row) 1.25).
Proof.
  intros Hi.
  destruct (dscr_series_rows income_projections repayment_schedule) as [rows [Hrows Hall]].
  destruct (Forall2_lookup_l _ _ _ _ _ Hall Hi) as [row [Hrow Hok]].
  destruct (dscr_of_row_ok repayment_schedule income)
    as [row' [Hok' [Hyear [Htds [Hd Hst]]]]].
  assert (row' = row) as -> by congruence.
  exists rows, row. split; [exact Hrows|].
  split; [symmetry; exact (Forall2_length _ _ _ Hall)|].
  split; [exact Hrow|]. split; [exact Hyear|]. split; [exact Htds|].
  split; [exact Hd | exact Hst].
Qed.

(** Payments that are not negative sum to a year's payment that is not
    negative. *)
Lemma foldl_Qplus_nonneg (l : list Q) :
  Forall (fun x => 0 <= x) l -> forall a, 0 <= a -> 0 <= foldl Qplus a l.
Proof.
  induction 1 as [|x l Hx _ IH]; intros a Ha; simpl; [exact Ha|].
  apply IH. lra.
Qed.

Lemma year_payments_nonneg (repayment_schedule : option (list schedule_row)) (y : Z) :
  (forall schedule, repayment_schedule = Some schedule ->
                    Forall (fun r => 0 <= payment r) schedule) ->
  0 <= year_payments repayment_schedule y.
Proof.
  intros H. destruct repayment_schedule as [schedule|]; simpl; [|lra].
  specialize (H schedule eq_refl). unfold Qsum.
  apply foldl_Qplus_nonneg; [|lra].
  apply Forall_fmap. apply Forall_forall. intros r Hr.
  apply list_elem_of_In, filter_In in Hr as [Hr _].
  apply list_elem_of_In in Hr. exact (proj1 (Forall_forall _ _) H r Hr).
Qed.

(** C3: on the inputs of the projection engine, an interest expense
    that is not negative (0 when the row has none) and a repayment
    schedule whose payments are not negative, every row of the income
    projection yields a row of the DSCR series, for the same year, whose
    total debt service is the interest expense plus the sum of that
    year's monthly amortization payments and is not negative. When the
    total debt service is not 0, dscr = ebitda / total debt service;
    when it is 0 the dscr is infinite. The status is Adequate if and
    only if dscr >= 1.25, so a dscr of exactly 1.25 is Adequate. *)
Theorem dscr_series_spec (income_projections : list income_row)
    (repayment_schedule : option (list schedule_row)) (i : nat) (income : income_row) :
  income_projections !! i = Some income ->
  0 <= default 0 (interest_expense income) ->
  (forall schedule, repayment_schedule = Some schedule ->
                    Forall (fun r => 0 <= payment r) schedule) ->
  exists rows row,
    calculate_debt_service_coverage_ratio income_projections repayment_schedule
      = Ok rows /\
    length rows = length income_projections /\
    rows !! i = Some row /\
    dscr_year row = year income /\
    total_debt_service row =
      default 0 (interest_expense income) + year_payments repayment_schedule (year income) /\
    0 <= total_debt_service row /\
    (~ total_debt_service row == 0 ->
       dscr row = Fin (ebitda income / total_debt_service row)) /\
    (total_debt_service row == 0 -> dscr row = PInf) /\
    (status row = Adequate <-> np_ge (dscr row) 1.25) /\
    (forall q, dscr row = Fin q -> q == 1.25 -> status row = Adequate).
Proof.
  intros Hi Hint Hpay.
  destruct (dscr_series_row income_projections repayment_schedule i income Hi)
    as [rows [row [Hrows [Hlen [Hrow [Hyear [Htds [Hd Hst]]]]]]]].
  pose proof (year_payments_nonneg repayment_schedule (year income) Hpay) as Hyp.
  assert (Hnn : 0 <= total_debt_service row) by (rewrite Htds; lra).
  exists rows, row. split; [exact Hrows|]. split; [exact Hlen|].
  split; [exact Hrow|]. split; [exact Hyear|]. split; [exact Htds|].
  split; [exact Hnn|]. split; [|split; [|split; [exact Hst|]]].
  - intros Hne. destruct Hd as [[_ Hd]|[Hle _]]; [exact Hd|].
    exfalso. apply Hne. apply Qle_antisym; assumption.
  - intros Hz. destruct Hd as [[Hpos _]|[_ Hd]]; [|exact Hd].
    exfalso. rewrite Hz in Hpos. exact (Qlt_irrefl 0 Hpos).
  - intros q Hq Heq. apply Hst. rewrite Hq. simpl. rewrite Heq. apply Qle_refl.
Qed.

Lemma dscr_series_spec_witness :
  exists rows row,
    calculate_debt_service_coverage_ratio
      [ {| year := 1; ebitda := 5; interest_expense := Some 1 |} ]
      (Some [ {| month := 1; payment := 3; principal := 2; interest := 1;
                 remaining_balance := 0 |} ]) = Ok rows /\
    rows !! 0%nat = Some row /\
    total_debt_service row = 1 + (0 + 3) /\
    dscr row = Fin (5 / total_debt_service row) /\
    status row = Adequate.
Proof.
  destruct (dscr_series_spec
              [ {| year := 1; ebitda := 5; interest_expense := Some 1 |} ]
              (Some [ {| month := 1; payment := 3; principal := 2; interest := 1;
                         remaining_balance := 0 |} ])
              0 {| year := 1; ebitda := 5; interest_expense := Some 1 |} eq_refl)
    as [rows [row [Hrows [_ [Hrow [_ [Htds [_ [Hd _]]]]]]]]].
  - discriminate.
  - intros schedule E. injection E as <-. repeat constructor. discriminate.
  - exists rows, row. split; [exact Hrows|]. split; [exact Hrow|]. split; [exact Htds|].
    injection Hrows as <-. injection Hrow as <-.
    split; [apply Hd; discriminate | reflexivity].
Defined.

(** Without a schedule and without interest the total debt service is
    0 and the dscr is infinite, which counts as Adequate. *)
Lemma dscr_without_debt_service :
  exists row,
    calculate_debt_service_coverage_ratio
      [ {| year := 1; ebitda := 1; interest_expense := None |} ] None = Ok [row] /\
    total_debt_service row == 0 /\
    dscr row = PInf /\
    status row = Adequate.
Proof.
  eexists. split; [reflexivity|]. repeat split.
Qed.

(** Outside these inputs, with a total debt service that is negative,
    the guard [> 0] of the code also reports an infinite dscr. *)
Lemma dscr_negative_debt_service_is_infinite :
  exists row,
    calculate_debt_service_coverage_ratio
      [ {| year := 1; ebitda := 1; interest_expense := Some (-1) |} ] None = Ok [row] /\
    total_debt_service row == -1 /\
    ~ total_debt_service row == 0 /\
    dscr row = PInf /\
    dscr row <> Fin (1 / total_debt_service row) /\
    status row = Adequate.
Proof.
  eexists. split; [reflexivity|]. repeat split; discriminate.
Qed.

(** The boundary is inclusive. *)
Lemma dscr_boundary_is_adequate :
  (exists row,
     dscr_of_row None {| year := 1; ebitda := 5; interest_expense := Some 4 |} = Ok row /\
     dscr row = Fin (5 / (4 + 0)) /\ status row = Adequate) /\
  (exists row,
     dscr_of_row None {| year := 1; ebitda := 4.99; interest_expense := Some 4 |} = Ok row /\
     status row = Inadequate).
Proof. split; eexists; repeat split. Qed.

End CoverageFacts.

(** ** The structural default model *)

Module MertonFacts.
Import PyNum PyNumFacts RiskModels.
Local Open Scope Q_scope.

(** The square of a float overflows exactly when it reaches the bound. *)
Lemma py_float_pow_square (x : Q) :
  (float_overflow <= x ^ 2 -> py_float_pow x 2 = Raise "OverflowError") /\
  (x ^ 2 < float_overflow -> py_float_pow x 2 = Ok (x ^ 2)).
Proof.
  assert (Habs : Qabs (x ^ 2) == x ^ 2).
  { apply Qabs_pos. change (x ^ 2) with (x * x). nra. }
  unfold py_float_pow. change ((2 <? 0)%Z && Qeq_bool x 0) with false. cbv iota.
  destruct (Qle_bool float_overflow (Qabs (x ^ 2))) eqn:E.
  - split; [reflexivity|]. intros H. apply Qle_bool_iff in E. rewrite Habs in E.
    exfalso. exact (Qlt_not_le _ _ H E).
  - split; [|reflexivity]. intros H. rewrite <- Habs in H.
    apply Qle_bool_iff in H. congruence.
Qed.

Section Merton.
Variables (ln sqrt Phi : Q -> Q).

(** The body raises in two cases: the division of the two Python
    numbers by zero, and the overflow of the squared volatility. *)
Lemma merton_body_raises_iff (V D r sigma T : Q) :
  (exists e, merton_body ln sqrt Phi V D r sigma T = Raise e)
  <-> D == 0 \/ float_overflow <= sigma ^ 2.
Proof.
  unfold merton_body, py_div, mbind, exc_bind.
  destruct (Qeq_bool D 0) eqn:E; cbn [ebind].
  - split; [intros _; left; apply Qeq_bool_iff; exact E | intros _; eexists; reflexivity].
  - apply Qeq_bool_false_iff in E.
    destruct (Qlt_le_dec (sigma ^ 2) float_overflow) as [Hs|Hs].
    + rewrite (proj2 (py_float_pow_square sigma) Hs). cbn [ebind].
      split; [intros [e He]; discriminate He|].
      intros [H|H]; [contradiction | exfalso; exact (Qlt_not_le _ _ Hs H)].
    + rewrite (proj1 (py_float_pow_square sigma) Hs). cbn [ebind].
      split; [intros _; right; exact Hs | intros _; eexists; reflexivity].
Qed.

(** Both cases reach the fallback. *)
Lemma merton_fallback_cases (V D r sigma T : Q) :
  D == 0 \/ float_overflow <= sigma ^ 2 ->
  merton_structural_model ln sqrt Phi V D r sigma T = merton_fallback.
Proof.
  intros H. apply (merton_body_raises_iff V D r sigma T) in H as [e He].
  unfold merton_structural_model. rewrite He. reflexivity.
Qed.

(** A zero debt face value does reach the fallback. *)
Lemma merton_zero_debt_fallback (V D r sigma T : Q) :
  D == 0 -> merton_structural_model ln sqrt Phi V D r sigma T = merton_fallback.
Proof. intros H. apply merton_fallback_cases. left. exact H. Qed.

(** The value of the body when nothing raises. *)
Lemma merton_body_value (V D r sigma T : Q) :
  ~ D == 0 -> sigma ^ 2 < float_overflow ->
  merton_body ln sqrt Phi V D r sigma T
  = (let spread := np_mul (Fin sigma) (np_sqrt sqrt T) in
     let d2 := np_sub (np_div (np_add (np_log ln (V / D))
                                      (Fin ((r + 0.5 * sigma ^ 2) * T)))
                              spread) spread in
     Ok (norm_cdf Phi (np_neg d2), d2)).
Proof.
  intros HD Hs. apply Qeq_bool_false_iff in HD.
  unfold merton_body, py_div, mbind, exc_bind. rewrite HD. cbn [ebind].
  rewrite (proj2 (py_float_pow_square sigma) Hs). reflexivity.
Qed.

(** A non-zero debt face value with a volatility in range never
    does. *)
Lemma merton_nonzero_debt_no_fallback (V D r sigma T : Q) :
  ~ D == 0 -> sigma ^ 2 < float_overflow ->
  exists result, merton_body ln sqrt Phi V D r sigma T = Ok result /\
                 merton_structural_model ln sqrt Phi V D r sigma T = result.
Proof.
  intros HD Hs. unfold merton_structural_model.
  rewrite (merton_body_value V D r sigma T HD Hs). cbv zeta.
  eexists. split; reflexivity.
Qed.

(** A negative ratio V / D makes [np.log] return nan, which every later
    operation propagates. *)
Lemma merton_negative_ratio_nan (V D r sigma T : Q) :
  ~ D == 0 -> sigma ^ 2 < float_overflow -> V / D < 0 ->
  merton_body ln sqrt Phi V D r sigma T = Ok (NaN, NaN) /\
  merton_structural_model ln sqrt Phi V D r sigma T = (NaN, NaN).
Proof.
  intros HD Hs Hneg. apply Qltb_iff in Hneg.
  unfold merton_structural_model.
  rewrite (merton_body_value V D r sigma T HD Hs). cbv zeta.
  unfold np_log. rewrite Hneg.
  destruct (np_mul (Fin sigma) (np_sqrt sqrt T)); split; reflexivity.
Qed.

End Merton.

(** C7 fails on the code: with company value -1 and debt face value 1
    (risk-free rate 0.05, volatility 0.2, horizon 1) no exception is
    raised, the handler is not entered, and the result is the pair
    (nan, nan), not the fallback (0.5, 0); this holds whatever the
    logarithm, square root and distribution function are on their
    domains. *)
Theorem merton_negative_company_value_returns_nan (ln sqrt Phi : Q -> Q) :
  merton_body ln sqrt Phi (-1) 1 0.05 0.2 1 = Ok (NaN, NaN) /\
  merton_structural_model ln sqrt Phi (-1) 1 0.05 0.2 1 = (NaN, NaN) /\
  merton_structural_model ln sqrt Phi (-1) 1 0.05 0.2 1 <> merton_fallback.
Proof.
  destruct (merton_negative_ratio_nan ln sqrt Phi (-1) 1 0.05 0.2 1) as [Hb H];
    [discriminate | reflexivity | reflexivity |].
  split; [exact Hb|]. split; [exact H|]. rewrite H. discriminate.
Qed.

(** A company value of 0 is not caught either: [np.log] returns -inf,
    and with a positive spread the model reports a certain default at an
    infinite negative distance. *)
Lemma merton_zero_company_value (ln sqrt Phi : Q -> Q) :
  0 < sqrt 1 ->
  merton_structural_model ln sqrt Phi 0 1 0.05 0.2 1 = (Fin 1, NInf).
Proof.
  intros Hs. unfold merton_structural_model.
  rewrite (merton_body_value ln sqrt Phi 0 1 0.05 0.2 1)
    by (discriminate || reflexivity).
  unfold np_sqrt.
  destruct (sqrt 1) as [n d] eqn:E.
  destruct n as [|n|n]; [discriminate Hs | | discriminate Hs].
  vm_compute. reflexivity.
Qed.

(** A volatility of 2^512 is caught: its square is out of the range of
    floats. *)
Lemma merton_overflowing_volatility (ln sqrt Phi : Q -> Q) :
  merton_structural_model ln sqrt Phi 1 1 0.05 (inject_Z (2 ^ 512)) 1 = merton_fallback.
Proof.
  apply merton_fallback_cases. right. apply Qle_bool_iff. vm_compute. reflexivity.
Qed.

(** X1: for float arguments (exact arithmetic within the range of
    floats), the exception handler of the structural model is entered in
    exactly two cases: a debt face value of 0 (ZeroDivisionError of the
    quotient) and a volatility whose square is out of the range of
    floats (OverflowError of the power); in both the fallback (0.5, 0)
    is returned. In every other case the result is what the body
    computes, even where that is not a number: a negative ratio of
    company value to debt gives (nan, nan). *)
Theorem merton_handler_is_entered_on_zero_debt_or_overflow (ln sqrt Phi : Q -> Q)
    (V D r sigma T : Q) :
  ((exists e, merton_body ln sqrt Phi V D r sigma T = Raise e)
   <-> D == 0 \/ float_overflow <= sigma ^ 2) /\
  (D == 0 \/ float_overflow <= sigma ^ 2 ->
     merton_structural_model ln sqrt Phi V D r sigma T = merton_fallback) /\
  (~ D == 0 -> sigma ^ 2 < float_overflow ->
     exists result, merton_body ln sqrt Phi V D r sigma T = Ok result /\
                    merton_structural_model ln sqrt Phi V D r sigma T = result) /\
  (~ D == 0 -> sigma ^ 2 < float_overflow -> V / D < 0 ->
     merton_structural_model ln sqrt Phi V D r sigma T = (NaN, NaN)).
Proof.
  split; [apply merton_body_raises_iff|].
  split; [apply merton_fallback_cases|].
  split; [apply merton_nonzero_debt_no_fallback|].
  intros HD Hs Hneg. exact (proj2 (merton_negative_ratio_nan _ _ _ V D r sigma T HD Hs Hneg)).
Qed.

End MertonFacts.

(** ** The Monte Carlo simulation *)

Module MonteCarloFacts.
Import PyNum PyNumFacts RiskModels.
Local Open Scope Q_scope.

Section Generator.
Variable rng : Type.
Variable seed : Z -> rng.
Variable draw_normal : Q -> rng -> Q * rng.

Lemma draws_length (scale : Q) (size : nat) (g : rng) :
  length (draws rng draw_normal scale size g).1 = size.
Proof.
  revert g. induction size as [|size IH]; intros g; simpl; [reflexivity|].
  destruct (draw_normal scale g) as [x g1].
  specialize (IH g1). destruct (draws rng draw_normal scale size g1) as [xs g2].
  simpl in *. rewrite IH. reflexivity.
Qed.

(** With a volatility that is not negative the loop fills one row per
    period, each with one value per simulation. *)
Lemma simulate_shape (volatility : Q) (simulations periods : nat)
    (current : npfloat) (g : rng) :
  0 <= volatility ->
  exists data,
    (simulate rng draw_normal volatility simulations periods current g).1 = Ok data /\
    length data = periods /\
    Forall (fun row => length row = simulations) data.
Proof.
  intros Hvol. apply Qltb_false_iff in Hvol.
  revert current g. induction periods as [|periods IH]; intros current g.
  - exists []. repeat split. constructor.
  - simpl. unfold np_random_normal. rewrite Hvol.
    pose proof (draws_length volatility simulations g) as Hlen.
    destruct (draws rng draw_normal volatility simulations g) as [xs g1].
    simpl in Hlen.
    destruct (IH (np_mean (map (fun shock => np_mul current (Fin (1 + shock))) xs)) g1)
      as [data [Hdata [Hrows Hcols]]].
    destruct (simulate rng draw_normal volatility simulations periods _ g1)
      as [[data'|e] g2]; simpl in Hdata; [|discriminate].
    injection Hdata as ->.
    eexists. split; [reflexivity|]. split; [simpl; rewrite Hrows; reflexivity|].
    constructor; [|exact Hcols]. rewrite length_map. exact Hlen.
Qed.

(** A negative volatility is refused by the first draw. *)
Lemma simulate_negative_volatility (volatility : Q) (simulations periods : nat)
    (current : npfloat) (g : rng) :
  volatility < 0 ->
  simulate rng draw_normal volatility simulations (S periods) current g
    = (Raise "ValueError", g).
Proof.
  intros Hvol. apply Qltb_iff in Hvol. simpl. unfold np_random_normal.
  rewrite Hvol. reflexivity.
Qed.

(** The path dependency: the first row is the base cash flow under the
    first shocks, and what follows is the simulation started from the
    mean of that row. *)
Lemma simulate_step (volatility : Q) (simulations periods : nat)
    (current : npfloat) (g : rng) (row : list npfloat) (data : list (list npfloat)) :
  (simulate rng draw_normal volatility simulations (S periods) current g).1
    = Ok (row :: data) ->
  exists shocks g1,
    np_random_normal rng draw_normal volatility simulations g = (Ok shocks, g1) /\
    row = map (fun shock => np_mul current (Fin (1 + shock))) shocks /\
    (simulate rng draw_normal volatility simulations periods (np_mean row) g1).1
      = Ok data.
Proof.
  simpl. destruct (np_random_normal rng draw_normal volatility simulations g)
    as [[shocks|e] g1]; [|discriminate].
  destruct (simulate rng draw_normal volatility simulations periods _ g1)
    as [[data'|e] g2] eqn:E; [|discriminate].
  simpl. intros H. injection H as <- <-.
  exists shocks, g1. split; [reflexivity|]. split; [reflexivity|].
  rewrite E. reflexivity.
Qed.

(** C8: for every parameter tuple, two runs of the simulation, from
    whatever states the generator is in when they start, return the
    same result and leave the generator in the same state, because
    each run first installs the state of the fixed seed 42 and every
    period's base is a function of the previous period's row. The
    result is a matrix of [periods] rows of [simulations] values each;
    the one exception, raised by both runs alike, is the refusal of a
    negative volatility by the first draw. *)
Theorem monte_carlo_is_reproducible (base_cashflow volatility : Q)
    (periods simulations : nat) (g1 g2 : rng) :
  monte_carlo_cashflow_simulation rng seed draw_normal base_cashflow volatility
    periods simulations g1
  = monte_carlo_cashflow_simulation rng seed draw_normal base_cashflow volatility
      periods simulations g2 /\
  ((exists data,
      (monte_carlo_cashflow_simulation rng seed draw_normal base_cashflow volatility
         periods simulations g1).1 = Ok data /\
      length data = periods /\
      Forall (fun row => length row = simulations) data) \/
   (volatility < 0 /\ (0 < periods)%nat /\
    (monte_carlo_cashflow_simulation rng seed draw_normal base_cashflow volatility
       periods simulations g1).1 = Raise "ValueError")).
Proof.
  split; [reflexivity|]. unfold monte_carlo_cashflow_simulation.
  destruct (Qlt_le_dec volatility 0) as [Hneg|Hpos].
  - destruct periods as [|periods].
    + left. exists []. repeat split. constructor.
    + right. split; [exact Hneg|]. split; [lia|].
      rewrite simulate_negative_volatility by exact Hneg. reflexivity.
  - left. apply simulate_shape. exact Hpos.
Qed.

Lemma simulate_ok_cons (volatility : Q) (simulations periods : nat)
    (current : npfloat) (g : rng) (data : list (list npfloat)) :
  (simulate rng draw_normal volatility simulations (S periods) current g).1 = Ok data ->
  exists row rest, data = row :: rest.
Proof.
  simpl. destruct (np_random_normal rng draw_normal volatility simulations g)
    as [[shocks|e] g1]; [|discriminate].
  destruct (simulate rng draw_normal volatility simulations periods _ g1)
    as [[data'|e] g2]; [|discriminate].
  simpl. intros H. injection H as <-. eexists. eexists. reflexivity.
Qed.

Lemma np_random_normal_length (scale : Q) (size : nat) (g g' : rng) (xs : list Q) :
  np_random_normal rng draw_normal scale size g = (Ok xs, g') -> length xs = size.
Proof.
  unfold np_random_normal. destruct (Qltb scale 0); [discriminate|].
  pose proof (draws_length scale size g) as H.
  destruct (draws rng draw_normal scale size g) as [ys g1]. simpl in H.
  intros E. injection E as <- _. exact H.
Qed.

(** The shocks of a draw that succeeds are the next [size] variates of
    the generator, which is left after them. *)
Lemma np_random_normal_draws (scale : Q) (size : nat) (g g' : rng) (xs : list Q) :
  np_random_normal rng draw_normal scale size g = (Ok xs, g') ->
  xs = (draws rng draw_normal scale size g).1 /\
  g' = (draws rng draw_normal scale size g).2.
Proof.
  unfold np_random_normal. destruct (Qltb scale 0); [discriminate|].
  destruct (draws rng draw_normal scale size g) as [ys g1].
  intros E. injection E as <- <-. split; reflexivity.
Qed.

(** Row t + 1 is the mean of row t under the shocks that the generator
    yields after t + 1 periods of draws. *)
Lemma simulate_consecutive (volatility : Q) (simulations periods : nat) :
  forall (current : npfloat) (g : rng) (data : list (list npfloat)) (t : nat)
         (row next : list npfloat),
    (simulate rng draw_normal volatility simulations periods current g).1 = Ok data ->
    data !! t = Some row -> data !! S t = Some next ->
    next = map (fun shock => np_mul (np_mean row) (Fin (1 + shock)))
               (draws rng draw_normal volatility simulations
                  (Nat.iter (S t)
                     (fun g => (draws rng draw_normal volatility simulations g).2) g)).1.
Proof.
  induction periods as [|periods IH]; intros current g data t row next Hdata Hrow Hnext.
  - simpl in Hdata. injection Hdata as <-. discriminate.
  - destruct (simulate_ok_cons _ _ _ _ _ _ Hdata) as [row0 [rest ->]].
    destruct (simulate_step _ _ _ _ _ _ _ Hdata) as [shocks [g1 [Hd [_ Hrest]]]].
    apply np_random_normal_draws in Hd as [_ ->].
    destruct t as [|t]; simpl in Hrow, Hnext.
    + injection Hrow as <-.
      destruct periods as [|periods].
      * simpl in Hrest. injection Hrest as <-. discriminate.
      * destruct (simulate_ok_cons _ _ _ _ _ _ Hrest) as [row1 [rest1 ->]].
        destruct (simulate_step _ _ _ _ _ _ _ Hrest) as [shocks1 [g2 [Hn [Hr1 _]]]].
        apply np_random_normal_draws in Hn as [-> _].
        simpl in Hnext. injection Hnext as <-. exact Hr1.
    + rewrite (IH _ _ _ t row next Hrest Hrow Hnext).
      set (step := fun g => (draws rng draw_normal volatility simulations g).2).
      change ((draws rng draw_normal volatility simulations g).2) with (step g).
      rewrite (Nat.iter_swap (S t) _ step g). reflexivity.
Qed.

(** Two products by the same factor that is not 0 differ when the other
    factors do. *)
Lemma np_mul_fin_inj (a b c : Q) :
  ~ c == 0 -> np_mul (Fin a) (Fin c) = np_mul (Fin b) (Fin c) -> a == b.
Proof.
  intros Hc H. change (Fin (a * c) = Fin (b * c)) in H. injection H as H1 H2.
  apply (Qmult_inj_r a b c Hc). unfold Qeq. cbn [Qmult Qnum Qden].
  rewrite H1, H2. reflexivity.
Qed.

(** X2: the path dependency of the simulation. The shocks of period t
    are the t-th block of [simulations] consecutive normal variates of
    the generator seeded with 42. The first row is the base cash flow
    times (1 + shock) for the first block, and every later row is the
    MEAN OF THE ROW BEFORE IT times (1 + shock) for its own block: a walk
    on the mean. It is not a row of draws around the base: whenever the
    mean of a row differs from the base cash flow and one shock of the
    next block is not -1, the next row differs from the base cash flow
    times (1 + shock) over that block. *)
Theorem monte_carlo_walks_on_the_mean (base_cashflow volatility : Q)
    (periods simulations : nat) (g : rng) (data : list (list npfloat)) :
  (monte_carlo_cashflow_simulation rng seed draw_normal base_cashflow volatility
     periods simulations g).1 = Ok data ->
  let shocks_of_period (t : nat) : list Q :=
    (draws rng draw_normal volatility simulations
       (Nat.iter t (fun g => (draws rng draw_normal volatility simulations g).2)
          (seed 42))).1 in
  (forall first, data !! 0%nat = Some first ->
     first = map (fun shock => np_mul (Fin base_cashflow) (Fin (1 + shock)))
                 (shocks_of_period 0%nat)) /\
  (forall t row next, data !! t = Some row -> data !! S t = Some next ->
     next = map (fun shock => np_mul (np_mean row) (Fin (1 + shock)))
                (shocks_of_period (S t))) /\
  (forall t row next mean shock,
     data !! t = Some row -> data !! S t = Some next ->
     np_mean row = Fin mean -> ~ mean == base_cashflow ->
     shock ∈ shocks_of_period (S t) -> ~ 1 + shock == 0 ->
     next <> map (fun shock => np_mul (Fin base_cashflow) (Fin (1 + shock)))
                 (shocks_of_period (S t))).
Proof.
  intros Hdata shocks_of_period. unfold monte_carlo_cashflow_simulation in Hdata.
  assert (Hnext : forall t row next, data !! t = Some row -> data !! S t = Some next ->
            next = map (fun shock => np_mul (np_mean row) (Fin (1 + shock)))
                       (shocks_of_period (S t))).
  { intros t row next Hrow Hn.
    exact (simulate_consecutive _ _ _ _ _ _ t row next Hdata Hrow Hn). }
  split; [|split; [exact Hnext|]].
  - intros first Hfirst. destruct periods as [|periods].
    + simpl in Hdata. injection Hdata as <-. discriminate.
    + destruct (simulate_ok_cons _ _ _ _ _ _ Hdata) as [row0 [rest ->]].
      destruct (simulate_step _ _ _ _ _ _ _ Hdata) as [shocks [g1 [Hn [Hr _]]]].
      apply np_random_normal_draws in Hn as [-> _].
      simpl in Hfirst. injection Hfirst as <-. exact Hr.
  - intros t row next mean shock Hrow Hn Hmean Hne Hin Hshock Heq.
    rewrite (Hnext t row next Hrow Hn), Hmean in Heq.
    apply Hne.
    apply (np_mul_fin_inj mean base_cashflow (1 + shock) Hshock).
    apply list_elem_of_In in Hin.
    exact (proj1 map_ext_in_iff Heq shock Hin).
Qed.

End Generator.

(** A small generator to run the simulation on: the state is a counter,
    and the n-th draw is the scale times n. From the base 100 with
    volatility 0.5, the first row is 100 x (1.5, 2), its mean is 175, and
    the second row is 175 x (2.5, 3), not 100 x (2.5, 3). *)
Lemma monte_carlo_walks_on_the_mean_witness :
  exists data,
    (monte_carlo_cashflow_simulation nat (fun _ => 1%nat)
       (fun scale g => (scale * inject_Z (Z.of_nat g), S g)) 100 0.5 2 2 0%nat).1
    = Ok data /\
    data !! 1%nat
    = Some (map (fun shock => np_mul (np_mean
                                        (map (fun shock => np_mul (Fin 100) (Fin (1 + shock)))
                                             [0.5 * 1; 0.5 * 2]))
                                     (Fin (1 + shock)))
                [0.5 * 3; 0.5 * 4]) /\
    data !! 1%nat
    <> Some (map (fun shock => np_mul (Fin 100) (Fin (1 + shock))) [0.5 * 3; 0.5 * 4]).
Proof.
  pose (d := [ map (fun shock => np_mul (Fin 100) (Fin (1 + shock))) [0.5 * 1; 0.5 * 2];
               map (fun shock => np_mul (np_mean
                                           (map (fun shock => np_mul (Fin 100) (Fin (1 + shock)))
                                                [0.5 * 1; 0.5 * 2]))
                                        (Fin (1 + shock)))
                   [0.5 * 3; 0.5 * 4] ]).
  assert (Hrun : (monte_carlo_cashflow_simulation nat (fun _ => 1%nat)
                    (fun scale g => (scale * inject_Z (Z.of_nat g), S g))
                    100 0.5 2 2 0%nat).1 = Ok d) by reflexivity.
  destruct (monte_carlo_walks_on_the_mean nat (fun _ => 1%nat)
              (fun scale g => (scale * inject_Z (Z.of_nat g), S g))
              100 0.5 2 2 0%nat d Hrun) as [_ [Hnext Hbase]].
  exists d. split; [exact Hrun|]. split.
  - rewrite (Hnext 0%nat _ _ eq_refl eq_refl). reflexivity.
  - intros H. apply (inj Some) in H.
    eapply (Hbase 0%nat _ _ _ (0.5 * 3) eq_refl eq_refl); [reflexivity | | | | exact H].
    + vm_compute. discriminate.
    + left.
    + discriminate.
Defined.

End MonteCarloFacts.

(** ** The repayment schedule *)

Module AmortizationFacts.
Import PyNum PyNumFacts FinancialProjections.
Local Open Scope Q_scope.

Lemma Qsum_from (a : Q) (l : list Q) : foldl Qplus a l == a + Qsum l.
Proof.
  unfold Qsum. revert a. induction l as [|x l IH]; intros a; simpl.
  - ring.
  - rewrite (IH (a + x)), (IH (0 + x)). ring.
Qed.

Lemma Qsum_cons (x : Q) (l : list Q) : Qsum (x :: l) == x + Qsum l.
Proof. unfold Qsum at 1. simpl. rewrite Qsum_from. ring. Qed.

Lemma Qsum_nonneg (l : list Q) : Forall (fun x => 0 <= x) l -> 0 <= Qsum l.
Proof.
  induction 1 as [|x l Hx Hl IH]; [unfold Qsum; simpl; lra|].
  rewrite Qsum_cons. lra.
Qed.

Lemma max0_mono (x y : Q) : x <= y -> max0 x <= max0 y.
Proof.
  intros H. unfold max0.
  destruct (Qgtb x 0) eqn:Ex, (Qgtb y 0) eqn:Ey;
    rewrite ?Qgtb_iff, ?Qgtb_false_iff in *; lra.
Qed.

Lemma non_increasing_from_weaken (b b' : Q) (l : list Q) :
  b <= b' -> non_increasing_from b l -> non_increasing_from b' l.
Proof.
  destruct l as [|x l]; simpl; [tauto|]. intros Hb [Hx Hl]. split; [lra | exact Hl].
Qed.

Lemma non_increasing_from_lookup (b : Q) (l : list Q) (i : nat) (x y : Q) :
  non_increasing_from b l -> l !! i = Some x -> l !! S i = Some y -> y <= x.
Proof.
  revert b i. induction l as [|z l IH]; intros b i Hl Hx Hy; [discriminate|].
  destruct Hl as [_ Hl]. destruct i as [|i]; simpl in *.
  - injection Hx as ->. destruct l as [|w l]; [discriminate|].
    simpl in Hy. injection Hy as ->. destruct Hl as [Hw _]. exact Hw.
  - exact (IH z i Hl Hx Hy).
Qed.

(** The zero rate, which the loan form accepts, is the missed case of
    the payment formula: its divisor (1 + r)^n - 1 is 0. *)
Lemma zero_rate_divisor (n : nat) :
  (1 + monthly_rate_of 0) ^ Z.of_nat n - 1 == 0.
Proof.
  assert (H : 1 + monthly_rate_of 0 == 1) by reflexivity.
  rewrite H, Qpower_1. reflexivity.
Qed.

(** C2 fails on the code at an interest rate of 0 percent, for every
    principal and every term (the loan form offers 5,000,000 over 36
    months): computing the monthly payment divides by (1 + 0)^n - 1 = 0
    and raises ZeroDivisionError, so no schedule is produced. *)
Theorem zero_rate_schedule_raises (loan_amount : Q) (repayment_period : nat) :
  calculate_loan_repayment_schedule loan_amount 0 repayment_period
    = Raise "ZeroDivisionError" /\
  calculate_loan_repayment_schedule 5000000 0 36 = Raise "ZeroDivisionError".
Proof.
  assert (G : forall P n, calculate_loan_repayment_schedule P 0 n
                          = Raise "ZeroDivisionError").
  { intros P n. unfold calculate_loan_repayment_schedule, py_div.
    pose proof (zero_rate_divisor n) as H. apply Qeq_bool_iff in H.
    rewrite H. reflexivity. }
  split; apply G.
Qed.

Section PositiveRate.

Variables (loan_amount interest_rate : Q) (repayment_period : nat).
Hypothesis principal_pos : 0 < loan_amount.
Hypothesis rate_pos : 0 < interest_rate.
Hypothesis term_pos : (1 <= repayment_period)%nat.

Let r : Q := monthly_rate_of interest_rate.
Let pw (k : nat) : Q := (1 + r) ^ Z.of_nat k.
Let D : Q := pw repayment_period - 1.
Let M : Q := loan_amount * r * pw repayment_period / D.

Lemma r_pos : 0 < r.
Proof.
  unfold r, monthly_rate_of.
  apply Qlt_shift_div_l; [reflexivity|]. apply Qlt_shift_div_l; [reflexivity|]. lra.
Qed.

Lemma pw_succ (k : nat) : pw (S k) == (1 + r) * pw k.
Proof.
  unfold pw. pose proof r_pos as Hr.
  replace (Z.of_nat (S k)) with (1 + Z.of_nat k)%Z by lia.
  rewrite Qpower_plus by lra. rewrite Qpower_1_r. reflexivity.
Qed.

Lemma pw_pos (k : nat) : 0 < pw k.
Proof. unfold pw. apply Qpower_0_lt. pose proof r_pos. lra. Qed.

Lemma pw_mono (k : nat) : (k <= repayment_period)%nat -> pw k <= pw repayment_period.
Proof.
  intros H. unfold pw. apply Qpower_le_compat_l; [lia|]. pose proof r_pos. lra.
Qed.

Lemma D_pos : 0 < D.
Proof.
  unfold D, pw. pose proof r_pos as Hr.
  assert (H : 1 < (1 + r) ^ Z.of_nat repayment_period).
  { apply Qpower_1_lt; [lra | lia]. }
  lra.
Qed.

Lemma payment_times_divisor : M * D == loan_amount * r * pw repayment_period.
Proof.
  unfold M. pose proof D_pos as HD. field. lra.
Qed.

(** The invariant of the loop after [k] months. *)
Let balance_inv (k : nat) (balance : Q) : Prop :=
  closed_form loan_amount r repayment_period k balance.

Lemma balance_inv_start : balance_inv 0 loan_amount.
Proof. unfold balance_inv, closed_form. simpl. ring. Qed.

Lemma balance_inv_step (k : nat) (balance : Q) :
  balance_inv k balance ->
  balance_inv (S k) (balance - (M - balance * r)).
Proof.
  unfold balance_inv, closed_form. fold (pw repayment_period) (pw k) (pw (S k)) D. intros H.
  assert (E : (balance - (M - balance * r)) * D
              == (1 + r) * (balance * D) - M * D) by ring.
  rewrite E, H, payment_times_divisor, pw_succ. ring.
Qed.

Lemma balance_inv_nonneg (k : nat) (balance : Q) :
  (k <= repayment_period)%nat -> balance_inv k balance -> 0 <= balance.
Proof.
  unfold balance_inv, closed_form. fold (pw repayment_period) (pw k) D. intros Hk H.
  pose proof D_pos as HD. pose proof (pw_mono k Hk) as Hm.
  assert (Hrhs : 0 <= loan_amount * (pw repayment_period - pw k)).
  { apply Qmult_le_0_compat; lra. }
  nra.
Qed.

Lemma balance_inv_end (balance : Q) :
  balance_inv repayment_period balance -> balance == 0.
Proof.
  unfold balance_inv, closed_form. fold (pw repayment_period) D. intros H. pose proof D_pos as HD.
  assert (Hz : balance * D == 0) by (rewrite H; ring).
  nra.
Qed.

(** Every principal component is positive, so the balance falls. *)
Lemma principal_component_pos (k : nat) (balance : Q) :
  balance_inv k balance -> 0 < M - balance * r.
Proof.
  unfold balance_inv, closed_form. fold (pw repayment_period) (pw k) D. intros H.
  pose proof D_pos as HD. pose proof r_pos as Hr. pose proof (pw_pos k) as Hk.
  assert (Hp : (M - balance * r) * D == loan_amount * r * pw k).
  { assert (E : (M - balance * r) * D == M * D - r * (balance * D)) by ring.
    rewrite E, H, payment_times_divisor. ring. }
  assert (Hq : 0 < loan_amount * r * pw k).
  { apply Qmult_lt_0_compat; [apply Qmult_lt_0_compat|]; assumption. }
  nra.
Qed.

Lemma schedule_loop_props (count : nat) :
  forall (k : nat) (balance : Q) (m : Z),
    (k + count = repayment_period)%nat ->
    balance_inv k balance ->
    let schedule := schedule_loop r M m count balance in
    length schedule = count /\
    map month schedule = map (fun i => (m + Z.of_nat i)%Z) (seq 0 count) /\
    non_increasing_from (max0 balance) (map remaining_balance schedule) /\
    Qsum (map principal schedule) == balance /\
    ((0 < count)%nat ->
       exists row, last schedule = Some row /\
                   month row = (m + Z.of_nat count - 1)%Z /\
                   remaining_balance row = 0).
Proof.
  induction count as [|count IH]; intros k balance m Hk Hinv; simpl.
  - replace k with repayment_period in Hinv by lia.
    repeat split; [|lia].
    unfold Qsum. simpl. symmetry. apply balance_inv_end. exact Hinv.
  - pose proof (balance_inv_step k balance Hinv) as Hinv'.
    destruct (IH (S k) (balance - (M - balance * r)) (m + 1)%Z ltac:(lia) Hinv')
      as [Hlen [Hmonths [Hchain [Hsum Hlast]]]].
    split; [rewrite Hlen; reflexivity|].
    split.
    { rewrite Hmonths. f_equal; [f_equal; lia|].
      rewrite <- seq_shift, map_map. apply map_ext. intros i. lia. }
    split.
    { split; [|exact Hchain]. apply max0_mono.
      pose proof (principal_component_pos k balance Hinv). lra. }
    split.
    { rewrite Qsum_cons, Hsum. simpl. ring. }
    intros _. destruct count as [|count].
    + simpl. eexists. split; [reflexivity|]. simpl. split; [lia|].
      replace (S k) with repayment_period in Hinv' by lia.
      apply balance_inv_end in Hinv'. unfold max0.
      assert (E : Qgtb (balance - (M - balance * r)) 0 = false).
      { apply Qgtb_false_iff. lra. }
      rewrite E. reflexivity.
    + destruct (Hlast ltac:(lia)) as [row [Hrow [Hm Hz]]].
      exists row. split; [|split; [lia | exact Hz]].
      simpl in Hrow |- *. exact Hrow.
Qed.

(** For a positive rate the repayment schedule is produced and
    amortizes the loan: it has one row per month, numbered 1 to the
    term; the remaining balance never rises, from the principal down
    to exactly 0 in the last month; and the principal components sum
    to the principal. (Exact arithmetic; the floats of the program
    follow it up to rounding.) *)
Lemma schedule_amortizes :
  exists schedule,
    calculate_loan_repayment_schedule loan_amount interest_rate repayment_period
      = Ok schedule /\
    length schedule = repayment_period /\
    map month schedule = map Z.of_nat (seq 1 repayment_period) /\
    non_increasing_from loan_amount (map remaining_balance schedule) /\
    (forall i r1 r2, schedule !! i = Some r1 -> schedule !! S i = Some r2 ->
                     remaining_balance r2 <= remaining_balance r1) /\
    (exists row, last schedule = Some row /\
                 month row = Z.of_nat repayment_period /\
                 remaining_balance row = 0) /\
    Qsum (map principal schedule) == loan_amount.
Proof.
  unfold calculate_loan_repayment_schedule, py_div. fold r.
  fold (pw repayment_period). fold D.
  assert (E : Qeq_bool D 0 = false).
  { apply Qeq_bool_false_iff. pose proof D_pos. lra. }
  rewrite E. cbn. fold M.
  destruct (schedule_loop_props repayment_period 0 loan_amount 1
              ltac:(lia) balance_inv_start)
    as [Hlen [Hmonths [Hchain [Hsum Hlast]]]].
  eexists. split; [reflexivity|].
  split; [exact Hlen|].
  split.
  { rewrite Hmonths, <- seq_shift, map_map. apply map_ext. intros i. lia. }
  assert (Hchain' : non_increasing_from loan_amount
            (map remaining_balance (schedule_loop r M 1 repayment_period loan_amount))).
  { apply (non_increasing_from_weaken (max0 loan_amount)); [|exact Hchain].
    rewrite max0_of_nonneg by lra. lra. }
  split; [exact Hchain'|].
  split.
  { intros i r1 r2 H1 H2.
    apply (non_increasing_from_lookup _ _ i _ _ Hchain').
    - rewrite list_lookup_fmap, H1. reflexivity.
    - rewrite list_lookup_fmap, H2. reflexivity. }
  split; [|exact Hsum].
  destruct (Hlast ltac:(lia)) as [row [Hrow [Hm Hz]]].
  exists row. split; [exact Hrow|]. split; [lia | exact Hz].
Qed.

Lemma monthly_payment_pos : 0 < M.
Proof.
  pose proof D_pos as HD. pose proof r_pos as Hr.
  pose proof (pw_pos repayment_period) as Hn.
  pose proof payment_times_divisor as HM.
  assert (Hq : 0 < loan_amount * r * pw repayment_period).
  { apply Qmult_lt_0_compat; [apply Qmult_lt_0_compat|]; assumption. }
  nra.
Qed.

Lemma schedule_loop_anatomy (count : nat) :
  forall (k : nat) (balance : Q) (m : Z),
    (k + count = repayment_period)%nat ->
    balance_inv k balance ->
    let schedule := schedule_loop r M m count balance in
    Forall (fun row => payment row = M /\
                       payment row == principal row + interest row /\
                       0 < principal row /\ 0 <= interest row) schedule /\
    Qsum (map interest schedule) == inject_Z (Z.of_nat count) * M - balance.
Proof.
  induction count as [|count IH]; intros k balance m Hk Hinv; simpl.
  - replace k with repayment_period in Hinv by lia.
    apply balance_inv_end in Hinv. split; [constructor|].
    unfold Qsum. simpl. rewrite Hinv. ring.
  - pose proof (balance_inv_step k balance Hinv) as Hinv'.
    destruct (IH (S k) (balance - (M - balance * r)) (m + 1)%Z ltac:(lia) Hinv')
      as [Hall Hsum].
    pose proof (balance_inv_nonneg k balance ltac:(lia) Hinv) as Hb.
    pose proof r_pos as Hr.
    split.
    + constructor; [|exact Hall]. simpl.
      split; [reflexivity|]. split; [ring|].
      split; [exact (principal_component_pos k balance Hinv)|].
      apply Qmult_le_0_compat; lra.
    + rewrite Qsum_cons, Hsum. simpl.
      replace (Z.of_nat (S count)) with (Z.of_nat count + 1)%Z by lia.
      rewrite inject_Z_plus. ring.
Qed.

(** X3: for a positive principal, a positive rate and a term of at least
    one month, every row of the repayment schedule carries the same
    positive payment, which splits into a positive principal component
    and an interest component that is not negative; the interest paid
    over the whole term is the sum of the payments less the principal, so
    the borrower repays at least the principal. *)
Lemma schedule_anatomy :
  exists schedule monthly_payment,
    calculate_loan_repayment_schedule loan_amount interest_rate repayment_period
      = Ok schedule /\
    0 < monthly_payment /\
    Forall (fun row => payment row = monthly_payment /\
                       payment row == principal row + interest row /\
                       0 < principal row /\ 0 <= interest row) schedule /\
    Qsum (map interest schedule)
      == inject_Z (Z.of_nat repayment_period) * monthly_payment - loan_amount /\
    loan_amount <= inject_Z (Z.of_nat repayment_period) * monthly_payment.
Proof.
  unfold calculate_loan_repayment_schedule, py_div. fold r.
  fold (pw repayment_period). fold D.
  assert (E : Qeq_bool D 0 = false).
  { apply Qeq_bool_false_iff. pose proof D_pos. lra. }
  rewrite E. cbn. fold M.
  destruct (schedule_loop_anatomy repayment_period 0 loan_amount 1
              ltac:(lia) balance_inv_start) as [Hall Hsum].
  eexists. exists M. split; [reflexivity|].
  split; [exact monthly_payment_pos|]. split; [exact Hall|]. split; [exact Hsum|].
  assert (Hnn : 0 <= Qsum (map interest
                  (schedule_loop r M 1 repayment_period loan_amount))).
  { apply Qsum_nonneg. apply Forall_fmap. eapply Forall_impl; [exact Hall|].
    intros row [_ [_ [_ H]]]. exact H. }
  lra.
Qed.

End PositiveRate.

(** The loan of the specification's end-to-end scenario: 5,000,000 at
    12.5 percent over 36 months. *)
Lemma schedule_amortizes_loan_scenario :
  exists schedule,
    calculate_loan_repayment_schedule 5000000 12.5 36 = Ok schedule /\
    length schedule = 36%nat /\
    (exists row, last schedule = Some row /\ month row = 36%Z /\
                 remaining_balance row = 0) /\
    Qsum (map principal schedule) == 5000000.
Proof.
  destruct (schedule_amortizes 5000000 12.5 36) as [schedule H];
    [reflexivity | reflexivity | lia |].
  exists schedule. tauto.
Qed.

(** X4: for a positive principal, a positive annual rate and a term of
    at least one month, the repayment schedule is produced; it has one row
    per month, numbered from 1 to the term; the remaining balance never
    rises from one month to the next, starts below the principal and is
    exactly 0 in the last month; and the principal components sum to the
    principal. *)
Theorem schedule_amortizes_at_positive_rate (loan_amount interest_rate : Q)
    (repayment_period : nat) :
  0 < loan_amount -> 0 < interest_rate -> (1 <= repayment_period)%nat ->
  exists schedule,
    calculate_loan_repayment_schedule loan_amount interest_rate repayment_period
      = Ok schedule /\
    length schedule = repayment_period /\
    map month schedule = map Z.of_nat (seq 1 repayment_period) /\
    non_increasing_from loan_amount (map remaining_balance schedule) /\
    (forall i r1 r2, schedule !! i = Some r1 -> schedule !! S i = Some r2 ->
                     remaining_balance r2 <= remaining_balance r1) /\
    (exists row, last schedule = Some row /\
                 month row = Z.of_nat repayment_period /\
                 remaining_balance row = 0) /\
    Qsum (map principal schedule) == loan_amount.
Proof. exact (schedule_amortizes loan_amount interest_rate repayment_period). Qed.

Lemma schedule_amortizes_at_positive_rate_witness :
  exists schedule,
    calculate_loan_repayment_schedule 1200 12 3 = Ok schedule /\
    length schedule = 3%nat /\
    Qsum (map principal schedule) == 1200.
Proof.
  destruct (schedule_amortizes_at_positive_rate 1200 12 3) as [schedule H];
    [reflexivity | reflexivity | lia |].
  exists schedule. tauto.
Defined.

Lemma schedule_anatomy_witness :
  exists schedule monthly_payment,
    calculate_loan_repayment_schedule 1200 12 3 = Ok schedule /\
    0 < monthly_payment /\
    1200 <= inject_Z 3 * monthly_payment.
Proof.
  destruct (schedule_anatomy 1200 12 3) as [schedule [mp H]];
    [reflexivity | reflexivity | lia |].
  exists schedule, mp. tauto.
Defined.

(** What a successful call returns: the rows of the loop run with the
    computed payment. *)
Lemma schedule_ok_inv (loan_amount interest_rate : Q) (repayment_period : nat)
    (schedule : list schedule_row) :
  calculate_loan_repayment_schedule loan_amount interest_rate repayment_period
    = Ok schedule ->
  exists monthly_payment,
    schedule = schedule_loop (monthly_rate_of interest_rate) monthly_payment 1
                 repayment_period loan_amount.
Proof.
  unfold calculate_loan_repayment_schedule, py_div.
  destruct (Qeq_bool _ 0); cbn; [discriminate|].
  intros H. injection H as <-. eexists. reflexivity.
Qed.

Lemma schedule_loop_consecutive (r M : Q) (count : nat) :
  forall (m : Z) (balance : Q) (i : nat) (r1 r2 : schedule_row),
    schedule_loop r M m count balance !! i = Some r1 ->
    schedule_loop r M m count balance !! S i = Some r2 ->
    principal r2 == principal r1 * (1 + r) /\
    interest r2 == interest r1 - principal r1 * r /\
    month r2 = (month r1 + 1)%Z.
Proof.
  induction count as [|count IH]; intros m balance i r1 r2 H1 H2; [discriminate|].
  destruct i as [|i]; simpl in H1, H2.
  - injection H1 as <-. destruct count as [|count]; [discriminate|].
    simpl in H2. injection H2 as <-. simpl. split; [ring|]. split; [ring | reflexivity].
  - exact (IH _ _ i r1 r2 H1 H2).
Qed.

(** X5: in every schedule that is produced, whatever the loan terms, each
    month's principal component is the previous month's one times
    (1 + monthly rate), and the interest component falls by the monthly
    rate times the principal just repaid; the months are consecutive. *)
Theorem schedule_principal_grows_geometrically (loan_amount interest_rate : Q)
    (repayment_period : nat) (schedule : list schedule_row) (i : nat)
    (r1 r2 : schedule_row) :
  calculate_loan_repayment_schedule loan_amount interest_rate repayment_period
    = Ok schedule ->
  schedule !! i = Some r1 ->
  schedule !! S i = Some r2 ->
  principal r2 == principal r1 * (1 + monthly_rate_of interest_rate) /\
  interest r2 == interest r1 - principal r1 * monthly_rate_of interest_rate /\
  month r2 = (month r1 + 1)%Z.
Proof.
  intros Hok H1 H2. destruct (schedule_ok_inv _ _ _ _ Hok) as [M ->].
  exact (schedule_loop_consecutive _ _ _ _ _ i r1 r2 H1 H2).
Qed.

Lemma schedule_principal_grows_geometrically_witness :
  exists schedule r1 r2,
    calculate_loan_repayment_schedule 1200 12 3 = Ok schedule /\
    schedule !! 0%nat = Some r1 /\ schedule !! 1%nat = Some r2 /\
    principal r2 == principal r1 * (1 + monthly_rate_of 12).
Proof.
  destruct (calculate_loan_repayment_schedule 1200 12 3) as [schedule|e] eqn:E;
    [|vm_compute in E; discriminate E].
  destruct (schedule !! 0%nat) as [r1|] eqn:E1;
    [|vm_compute in E; injection E as <-; discriminate E1].
  destruct (schedule !! 1%nat) as [r2|] eqn:E2;
    [|vm_compute in E; injection E as <-; discriminate E2].
  exists schedule, r1, r2. split; [reflexivity|]. split; [exact E1|]. split; [exact E2|].
  exact (proj1 (schedule_principal_grows_geometrically 1200 12 3 schedule 0 r1 r2 E E1 E2)).
Defined.

(** The number of months of the range [lo, hi] among the [count] months
    that start at [m]. *)
Lemma schedule_loop_range_sum (r M : Q) (lo hi : Z) (count : nat) :
  forall (m : Z) (balance : Q),
    Qsum (map payment
            (List.filter (fun row => (lo <=? month row)%Z && (month row <=? hi)%Z)
                         (schedule_loop r M m count balance)))
    == M * inject_Z (Z.max 0 (Z.min hi (m + Z.of_nat count - 1) - Z.max lo m + 1)).
Proof.
  induction count as [|count IH]; intros m balance.
  - simpl. replace (Z.max 0 _) with 0%Z by lia. unfold Qsum. simpl. ring.
  - cbn [schedule_loop List.filter month].
    destruct ((lo <=? m)%Z && (m <=? hi)%Z) eqn:E.
    + cbn [map payment]. rewrite Qsum_cons, IH.
      replace (Z.max 0 (Z.min hi (m + Z.of_nat (S count) - 1) - Z.max lo m + 1))
        with (1 + Z.max 0 (Z.min hi (m + 1 + Z.of_nat count - 1) - Z.max lo (m + 1) + 1))%Z
        by lia.
      rewrite inject_Z_plus. ring.
    + rewrite IH.
      replace (Z.max 0 (Z.min hi (m + Z.of_nat (S count) - 1) - Z.max lo m + 1))
        with (Z.max 0 (Z.min hi (m + 1 + Z.of_nat count - 1) - Z.max lo (m + 1) + 1))
        by lia.
      reflexivity.
Qed.

Lemma schedule_loop_payments (r M : Q) (count : nat) :
  forall (m : Z) (balance : Q),
    Forall (fun row => payment row = M) (schedule_loop r M m count balance).
Proof.
  induction count as [|count IH]; intros m balance; simpl; constructor;
    [reflexivity | apply IH].
Qed.

Lemma annual_payment_formula (loan_amount interest_rate : Q)
    (repayment_period : nat) (schedule : list schedule_row) :
  calculate_loan_repayment_schedule loan_amount interest_rate repayment_period
    = Ok schedule ->
  exists monthly_payment,
    Forall (fun row => payment row = monthly_payment) schedule /\
    (forall y,
       _get_annual_loan_payment (Some schedule) y
       == monthly_payment *
          inject_Z (Z.max 0 (Z.min (y * 12) (Z.of_nat repayment_period)
                             - Z.max ((y - 1) * 12 + 1) 1 + 1))).
Proof.
  intros Hok. destruct (schedule_ok_inv _ _ _ _ Hok) as [M ->].
  exists M. split; [apply schedule_loop_payments|].
  intros y. rewrite CoverageFacts.get_annual_loan_payment_sum.
  unfold year_payments, in_year.
  rewrite schedule_loop_range_sum.
  replace (1 + Z.of_nat repayment_period - 1)%Z with (Z.of_nat repayment_period) by lia.
  reflexivity.
Qed.

(** X6: for every schedule that is produced, the annual loan payment of
    year y is the monthly payment times the number of months of the term
    that fall in months 12(y-1)+1 .. 12y: twelve payments for a year that
    lies within the term, nothing for a year that starts after the term
    or for a year before the first. *)
Theorem annual_payment_counts_months (loan_amount interest_rate : Q)
    (repayment_period : nat) (schedule : list schedule_row) :
  calculate_loan_repayment_schedule loan_amount interest_rate repayment_period
    = Ok schedule ->
  exists monthly_payment,
    Forall (fun row => payment row = monthly_payment) schedule /\
    (forall y,
       _get_annual_loan_payment (Some schedule) y
       == monthly_payment *
          inject_Z (Z.max 0 (Z.min (y * 12) (Z.of_nat repayment_period)
                             - Z.max ((y - 1) * 12 + 1) 1 + 1))) /\
    (forall y, (1 <= y)%Z -> (y * 12 <= Z.of_nat repayment_period)%Z ->
       _get_annual_loan_payment (Some schedule) y == 12 * monthly_payment) /\
    (forall y, (Z.of_nat repayment_period < (y - 1) * 12 + 1)%Z \/ (y <= 0)%Z ->
       _get_annual_loan_payment (Some schedule) y == 0).
Proof.
  intros Hok.
  destruct (annual_payment_formula _ _ _ _ Hok) as [M [Hall G]].
  exists M. split; [exact Hall|]. split; [exact G|]. split.
  - intros y Hy Hfull. rewrite G.
    replace (Z.max 0 _) with 12%Z by lia. ring.
  - intros y Hout. rewrite G.
    replace (Z.max 0 _) with 0%Z by lia. ring.
Qed.

Lemma annual_payment_counts_months_witness :
  exists schedule monthly_payment,
    calculate_loan_repayment_schedule 1200 12 12 = Ok schedule /\
    _get_annual_loan_payment (Some schedule) 1 == 12 * monthly_payment /\
    _get_annual_loan_payment (Some schedule) 2 == 0.
Proof.
  destruct (schedule_amortizes 1200 12 12) as [schedule [E _]];
    [reflexivity | reflexivity | lia |].
  destruct (annual_payment_counts_months 1200 12 12 schedule E)
    as [mp [_ [_ [Hfull Hout]]]].
  exists schedule, mp. split; [exact E|]. split.
  - apply Hfull; reflexivity.
  - apply Hout. left. reflexivity.
Defined.

End AmortizationFacts.

(** ** The projected statements *)

Module ProjectionFacts.
Import PyNum PyNumFacts FinancialProjections.
Local Open Scope Q_scope.

Lemma additional_interest_positive (loan_amount interest_rate : Q) :
  0 < loan_amount -> 0 < interest_rate ->
  additional_annual_interest loan_amount interest_rate
  == loan_amount * interest_rate / 100.
Proof.
  intros HP Hr. unfold additional_annual_interest.
  apply Qgtb_iff in HP. apply Qgtb_iff in Hr. rewrite HP, Hr. simpl. field.
Qed.

Lemma additional_interest_none (loan_amount interest_rate : Q) :
  loan_amount <= 0 \/ interest_rate <= 0 ->
  additional_annual_interest loan_amount interest_rate = 0.
Proof.
  intros H. unfold additional_annual_interest.
  destruct H as [H|H]; apply Qgtb_false_iff in H; rewrite H;
    [reflexivity | rewrite andb_false_r; reflexivity].
Qed.

Lemma project_income_lookup (historical_data assumptions : gmap string Q)
    (periods : nat) (loan_amount interest_rate : Q) (repayment_period : Z)
    (i : nat) (row : income_projection_row) :
  project_income_statement historical_data assumptions periods loan_amount
    interest_rate repayment_period !! i = Some row
  <-> (i < periods)%nat /\
      row = income_projection_of_year historical_data assumptions loan_amount
              interest_rate (Z.of_nat (S i)).
Proof.
  unfold project_income_statement. rewrite list_lookup_fmap. split.
  - destruct (seq 1 periods !! i) as [k|] eqn:E; [|discriminate].
    apply lookup_seq in E. destruct E as [-> Hlt]. simpl.
    intros H. injection H as <-. split; [exact Hlt | reflexivity].
  - intros [Hlt ->]. rewrite (lookup_seq_lt _ _ _ Hlt). reflexivity.
Qed.

(** X7: the projected income statement has one row per period, numbered
    from year 1; revenue grows geometrically from the historical revenue,
    each year's revenue being the previous year's times (1 + growth);
    and ebitda is the same share 1 - cogs share - opex share of revenue
    in every year. *)
Theorem income_projection_grows_geometrically
    (historical_data assumptions : gmap string Q) (periods : nat)
    (loan_amount interest_rate : Q) (repayment_period : Z) :
  let rows := project_income_statement historical_data assumptions periods
                loan_amount interest_rate repayment_period in
  let growth := get_or assumptions "revenue_growth" 0.05 in
  length rows = periods /\
  forall (i : nat) (row : income_projection_row),
    rows !! i = Some row ->
    ip_year row = Z.of_nat (S i) /\
    ip_revenue row == get_or historical_data "revenue" 0 * (1 + growth) ^ Z.of_nat (S i) /\
    ip_ebitda row
      == ip_revenue row * (1 - get_or assumptions "cogs_percentage" 0.6
                           - get_or assumptions "opex_percentage" 0.25) /\
    (forall next, rows !! S i = Some next ->
       ip_revenue next == ip_revenue row * (1 + growth)).
Proof.
  cbv zeta. split.
  - unfold project_income_statement. rewrite length_map, length_seq. reflexivity.
  - intros i row Hrow. apply project_income_lookup in Hrow. destruct Hrow as [Hlt ->].
    split; [reflexivity|]. split; [reflexivity|]. split; [simpl; ring|].
    intros next Hnext. apply project_income_lookup in Hnext. destruct Hnext as [_ ->].
    unfold income_projection_of_year. cbn [ip_revenue].
    set (g := get_or assumptions "revenue_growth" 0.05).
    assert (E : (1 + g) ^ Z.of_nat (S (S i)) == (1 + g) ^ Z.of_nat (S i) * (1 + g)).
    { replace (Z.of_nat (S (S i))) with (Z.of_nat (S i) + 1)%Z by lia.
      rewrite Qpower_plus' by lia. rewrite Qpower_1_r. reflexivity. }
    rewrite E. ring.
Qed.

(** X8: the loan enters the projected income statement as a flat interest
    charge. Against the projection without a loan, and for a positive
    principal and a positive rate, every year's revenue and ebitda are
    unchanged, the interest expense is higher by principal x rate / 100
    in every year alike (it does not fall as the loan amortizes), and net
    income is lower by (1 - tax rate) times that amount. *)
Theorem loan_is_a_flat_interest_charge
    (historical_data assumptions : gmap string Q) (periods : nat)
    (loan_amount interest_rate : Q) (repayment_period : Z) (i : nat)
    (with_loan without_loan : income_projection_row) :
  0 < loan_amount -> 0 < interest_rate ->
  project_income_statement historical_data assumptions periods loan_amount
    interest_rate repayment_period !! i = Some with_loan ->
  project_income_statement historical_data assumptions periods 0 0 0 !! i
    = Some without_loan ->
  ip_revenue with_loan = ip_revenue without_loan /\
  ip_ebitda with_loan = ip_ebitda without_loan /\
  ip_loan_impact with_loan == loan_amount * interest_rate / 100 /\
  ip_interest_expense with_loan
    == ip_interest_expense without_loan + loan_amount * interest_rate / 100 /\
  ip_net_income with_loan
    == ip_net_income without_loan
       - (1 - get_or assumptions "tax_rate" 0.3) * (loan_amount * interest_rate / 100).
Proof.
  intros HP Hr Hw Hwo.
  apply project_income_lookup in Hw. destruct Hw as [_ ->].
  apply project_income_lookup in Hwo. destruct Hwo as [_ ->].
  pose proof (additional_interest_positive loan_amount interest_rate HP Hr) as Ha.
  split; [reflexivity|]. split; [reflexivity|]. simpl.
  split; [exact Ha|].
  assert (H0 : additional_annual_interest 0 0 = 0) by reflexivity.
  rewrite H0. split; [rewrite Ha; ring|]. rewrite Ha. ring.
Qed.

Lemma loan_is_a_flat_interest_charge_witness :
  exists with_loan without_loan,
    project_income_statement (<["revenue" := 1000]> ∅) ∅ 2 500 10 24 !! 1%nat
      = Some with_loan /\
    project_income_statement (<["revenue" := 1000]> ∅) ∅ 2 0 0 0 !! 1%nat
      = Some without_loan /\
    ip_interest_expense with_loan == ip_interest_expense without_loan + 500 * 10 / 100.
Proof.
  eexists. eexists. split; [reflexivity|]. split; [reflexivity|].
  refine (proj1 (proj2 (proj2 (proj2
    (loan_is_a_flat_interest_charge (<["revenue" := 1000]> ∅) ∅ 2 500 10 24 1 _ _
       _ _ eq_refl eq_refl))))); reflexivity.
Defined.

(** X9: in the coverage ratio of a projected year, the interest on the
    new loan is counted on top of the loan's instalments. For a positive
    principal and rate and a year that lies within the term, the total
    debt service of that year's DSCR row is the historical interest
    expense, plus principal x rate / 100, plus twelve monthly payments of
    the repayment schedule (which themselves contain the loan's
    interest). *)
Theorem debt_service_counts_loan_interest_twice
    (historical_data assumptions : gmap string Q) (periods repayment_period : nat)
    (loan_amount interest_rate : Q) (i : nat) :
  0 < loan_amount -> 0 < interest_rate ->
  (i < periods)%nat -> (12 * S i <= repayment_period)%nat ->
  exists schedule monthly_payment rows row,
    calculate_loan_repayment_schedule loan_amount interest_rate repayment_period
      = Ok schedule /\
    Forall (fun r => payment r = monthly_payment) schedule /\
    calculate_debt_service_coverage_ratio
      (map income_row_of
         (project_income_statement historical_data assumptions periods loan_amount
            interest_rate (Z.of_nat repayment_period)))
      (Some schedule) = Ok rows /\
    rows !! i = Some row /\
    dscr_year row = Z.of_nat (S i) /\
    total_debt_service row
      == get_or historical_data "interest_expense" 0
         + loan_amount * interest_rate / 100
         + 12 * monthly_payment.
Proof.
  intros HP Hr Hi Hterm.
  destruct (AmortizationFacts.schedule_amortizes loan_amount interest_rate
              repayment_period HP Hr ltac:(lia)) as [schedule [Hok _]].
  destruct (AmortizationFacts.annual_payment_formula _ _ _ _ Hok) as [M [Hall Hyear]].
  set (incomes := project_income_statement historical_data assumptions periods
                    loan_amount interest_rate (Z.of_nat repayment_period)).
  destruct (CoverageFacts.dscr_series_rows (map income_row_of incomes) (Some schedule))
    as [rows [Hrows Hrel]].
  assert (Hinc : map income_row_of incomes !! i
                 = Some (income_row_of
                           (income_projection_of_year historical_data assumptions
                              loan_amount interest_rate (Z.of_nat (S i))))).
  { rewrite list_lookup_fmap. unfold incomes.
    rewrite (proj2 (project_income_lookup _ _ _ _ _ _ i _) (conj Hi eq_refl)).
    reflexivity. }
  destruct (Forall2_lookup_l _ _ _ _ _ Hrel Hinc) as [row [Hrow Hrow_ok]].
  destruct (CoverageFacts.dscr_of_row_ok (Some schedule)
              (income_row_of
                 (income_projection_of_year historical_data assumptions
                    loan_amount interest_rate (Z.of_nat (S i)))))
    as [row' [Hok' [Hy [Htds _]]]].
  assert (row' = row) as -> by congruence.
  exists schedule, M, rows, row.
  split; [exact Hok|]. split; [exact Hall|]. split; [exact Hrows|].
  split; [exact Hrow|]. split; [exact Hy|].
  rewrite Htds. cbn [income_row_of interest_expense year ip_interest_expense ip_year
                       income_projection_of_year default].
  rewrite <- CoverageFacts.get_annual_loan_payment_sum, Hyear.
  rewrite (additional_interest_positive _ _ HP Hr).
  replace (Z.max 0 _) with 12%Z by lia.
  unfold id. change (inject_Z 12) with 12. field.
Qed.

Lemma debt_service_counts_loan_interest_twice_witness :
  exists schedule monthly_payment rows row,
    calculate_loan_repayment_schedule 1200 12 12 = Ok schedule /\
    Forall (fun r => payment r = monthly_payment) schedule /\
    calculate_debt_service_coverage_ratio
      (map income_row_of (project_income_statement ∅ ∅ 1 1200 12 12))
      (Some schedule) = Ok rows /\
    rows !! 0%nat = Some row /\
    total_debt_service row == 0 + 1200 * 12 / 100 + 12 * monthly_payment.
Proof.
  destruct (debt_service_counts_loan_interest_twice ∅ ∅ 1 12 1200 12 0)
    as [schedule [mp [rows [row [H1 [H2 [H3 [H4 [_ H5]]]]]]]]];
    [reflexivity | reflexivity | lia | lia |].
  exists schedule, mp, rows, row. repeat split; assumption.
Defined.

Lemma Qmult_le_nonneg_l (a x y : Q) : 0 <= a -> x <= y -> a * x <= a * y.
Proof.
  intros Ha Hxy. rewrite (Qmult_comm a x), (Qmult_comm a y).
  apply Qmult_le_compat_r; assumption.
Qed.

Lemma inject_Z_ge_1 (y : Z) : (1 <= y)%Z -> 1 <= inject_Z y.
Proof. intros H. change (inject_Z 1 <= inject_Z y). rewrite <- Zle_Qle. exact H. Qed.

Lemma inject_Z_mono (x y : Z) : (x <= y)%Z -> inject_Z x <= inject_Z y.
Proof. intros H. rewrite <- Zle_Qle. exact H. Qed.

(** The straight-line balance, for a year from 1 on: no exception, and a
    value between 0 and the loan. *)
Lemma remaining_balance_cases (loan_amount repayment_period : Q) (y : Z) :
  0 <= loan_amount -> (1 <= y)%Z ->
  (repayment_period / 12 < inject_Z y /\
   _calculate_remaining_loan_balance loan_amount y repayment_period = Ok 0) \/
  (inject_Z y <= repayment_period / 12 /\ 0 < repayment_period /\
   0 <= loan_amount / (repayment_period / 12) /\
   0 <= loan_amount - loan_amount / (repayment_period / 12) * (inject_Z y - 1) /\
   _calculate_remaining_loan_balance loan_amount y repayment_period
   = Ok (max0 (loan_amount
               - loan_amount / (repayment_period / 12) * (inject_Z y - 1)))).
Proof.
  intros HP Hy. unfold _calculate_remaining_loan_balance.
  pose proof (inject_Z_ge_1 y Hy) as Hy1.
  set (t := repayment_period / 12).
  assert (Ht : repayment_period == 12 * t) by (unfold t; field).
  destruct (Qgtb (inject_Z y) t) eqn:E.
  - left. split; [apply Qgtb_iff; exact E | reflexivity].
  - right. apply Qgtb_false_iff in E.
    assert (Htpos : 0 < t) by lra.
    rewrite py_div_ok by lra. cbn.
    assert (HA : 0 <= loan_amount / t).
    { apply Qdiv_nonneg; lra. }
    assert (HAt : loan_amount / t * t == loan_amount) by (field; lra).
    split; [exact E|]. split; [lra|]. split; [exact HA|]. split; [|reflexivity].
    assert (Hprod : loan_amount / t * (inject_Z y - 1) <= loan_amount / t * t).
    { apply Qmult_le_nonneg_l; [exact HA | lra]. }
    lra.
Qed.

(** X10: for a loan that is not negative and a year from 1 on, the
    straight-line remaining balance never raises and lies between 0 and
    the loan; it is 0 once the year exceeds the term in years (so a loan
    of less than twelve months never shows a balance), and within a
    positive term it is the loan less (year - 1) annual repayments of
    loan / (term / 12), which for year 1 is the whole loan. *)
Theorem remaining_loan_balance_is_straight_line (loan_amount repayment_period : Q)
    (y : Z) :
  0 <= loan_amount -> (1 <= y)%Z ->
  exists balance,
    _calculate_remaining_loan_balance loan_amount y repayment_period = Ok balance /\
    0 <= balance /\ balance <= loan_amount /\
    (repayment_period / 12 < inject_Z y -> balance = 0) /\
    (inject_Z y <= repayment_period / 12 ->
       balance == loan_amount
                  - loan_amount / (repayment_period / 12) * (inject_Z y - 1)) /\
    (y = 1%Z -> 12 <= repayment_period -> balance == loan_amount).
Proof.
  intros HP Hy.
  destruct (remaining_balance_cases loan_amount repayment_period y HP Hy)
    as [[Hgt Hok] | [Hle [Hrp [HA [Hnn Hok]]]]].
  - exists 0. split; [exact Hok|]. split; [lra|]. split; [exact HP|].
    split; [reflexivity|]. split; [intros H; lra|].
    intros -> H12. exfalso.
    assert (H1 : 1 <= repayment_period / 12).
    { apply Qle_shift_div_l; [reflexivity | lra]. }
    change (inject_Z 1) with 1 in Hgt. lra.
  - eexists. split; [exact Hok|].
    pose proof (inject_Z_ge_1 y Hy) as Hy1.
    assert (Hm : max0 (loan_amount
                       - loan_amount / (repayment_period / 12) * (inject_Z y - 1))
                 == loan_amount
                    - loan_amount / (repayment_period / 12) * (inject_Z y - 1))
      by (apply max0_of_nonneg; exact Hnn).
    assert (Hprod : 0 <= loan_amount / (repayment_period / 12) * (inject_Z y - 1)).
    { apply Qmult_le_0_compat; [exact HA | lra]. }
    split; [apply max0_nonneg|]. split; [rewrite Hm; lra|].
    split; [intros H; lra|]. split; [intros _; exact Hm|].
    intros -> _. rewrite Hm. change (inject_Z 1) with 1. ring.
Qed.

Lemma remaining_loan_balance_is_straight_line_witness :
  exists balance,
    _calculate_remaining_loan_balance 600 2 36 = Ok balance /\
    0 <= balance /\ balance <= 600.
Proof.
  destruct (remaining_loan_balance_is_straight_line 600 36 2) as [b [H1 [H2 [H3 _]]]];
    [discriminate | lia |].
  exists b. repeat split; assumption.
Defined.

Lemma remaining_balance_mono (loan_amount repayment_period : Q) (y1 y2 : Z) :
  0 <= loan_amount -> (1 <= y1)%Z -> (y1 <= y2)%Z ->
  exists b1 b2,
    _calculate_remaining_loan_balance loan_amount y1 repayment_period = Ok b1 /\
    _calculate_remaining_loan_balance loan_amount y2 repayment_period = Ok b2 /\
    0 <= b2 /\ b2 <= b1 /\ b1 <= loan_amount.
Proof.
  intros HP Hy1 Hy12.
  pose proof (inject_Z_mono y1 y2 Hy12) as Hq.
  pose proof (inject_Z_ge_1 y1 Hy1) as Hq1.
  destruct (remaining_balance_cases loan_amount repayment_period y1 HP Hy1)
    as [[Hgt1 Hok1] | [Hle1 [Hrp [HA [Hnn1 Hok1]]]]];
  destruct (remaining_balance_cases loan_amount repayment_period y2 HP ltac:(lia))
    as [[Hgt2 Hok2] | [Hle2 [_ [_ [Hnn2 Hok2]]]]].
  - exists 0, 0. split; [exact Hok1|]. split; [exact Hok2|].
    split; [lra|]. split; [lra | exact HP].
  - exfalso. lra.
  - eexists. exists 0. split; [exact Hok1|]. split; [exact Hok2|].
    split; [lra|]. split; [apply max0_nonneg|].
    rewrite max0_of_nonneg by exact Hnn1.
    assert (Hprod : 0 <= loan_amount / (repayment_period / 12) * (inject_Z y1 - 1)).
    { apply Qmult_le_0_compat; [exact HA | lra]. }
    lra.
  - eexists. eexists. split; [exact Hok1|]. split; [exact Hok2|].
    split; [apply max0_nonneg|]. split.
    + apply AmortizationFacts.max0_mono.
      assert (Hprod : loan_amount / (repayment_period / 12) * (inject_Z y1 - 1)
                      <= loan_amount / (repayment_period / 12) * (inject_Z y2 - 1)).
      { apply Qmult_le_nonneg_l; [exact HA | lra]. }
      lra.
    + rewrite max0_of_nonneg by exact Hnn1.
      assert (Hprod : 0 <= loan_amount / (repayment_period / 12) * (inject_Z y1 - 1)).
      { apply Qmult_le_0_compat; [exact HA | lra]. }
      lra.
Qed.

(** X11: the straight-line balance never rises with the year: from year
    1 on, a later year's balance is at most an earlier year's. *)
Theorem remaining_loan_balance_falls (loan_amount repayment_period : Q) (y1 y2 : Z) :
  0 <= loan_amount -> (1 <= y1)%Z -> (y1 <= y2)%Z ->
  exists b1 b2,
    _calculate_remaining_loan_balance loan_amount y1 repayment_period = Ok b1 /\
    _calculate_remaining_loan_balance loan_amount y2 repayment_period = Ok b2 /\
    b2 <= b1.
Proof.
  intros HP Hy1 Hy12.
  destruct (remaining_balance_mono loan_amount repayment_period y1 y2 HP Hy1 Hy12)
    as [b1 [b2 [H1 [H2 [_ [H _]]]]]].
  exists b1, b2. repeat split; assumption.
Qed.

Lemma remaining_loan_balance_falls_witness :
  exists b1 b2,
    _calculate_remaining_loan_balance 600 1 36 = Ok b1 /\
    _calculate_remaining_loan_balance 600 3 36 = Ok b2 /\
    b2 <= b1.
Proof.
  apply (remaining_loan_balance_falls 600 36 1 3); [discriminate | lia | lia].
Defined.

(** One row of the balance sheet, for a year from 1 on. *)
Lemma balance_projection_of_ok (historical_data assumptions : gmap string Q)
    (loan_amount : Q) (year_data : income_projection_row) :
  (1 <= ip_year year_data)%Z ->
  exists row,
    balance_projection_of historical_data assumptions loan_amount year_data = Ok row /\
    bp_year row = ip_year year_data /\
    bp_equity row = get_or historical_data "equity" 0
                    + ip_net_income year_data * inject_Z (ip_year year_data) /\
    bp_total_liabilities row =
      (if Qgtb loan_amount 0
       then np_add (bp_existing_debt row) (Fin (bp_loan_balance row))
       else bp_existing_debt row) /\
    bp_current_assets row = np_mul (bp_total_assets row) (Fin 0.6) /\
    bp_current_liabilities row = np_mul (bp_total_liabilities row) (Fin 0.4) /\
    (if Qgtb loan_amount 0
     then _calculate_remaining_loan_balance loan_amount (ip_year year_data)
            (get_or assumptions "repayment_period" 60)
     else Ok 0) = Ok (bp_loan_balance row).
Proof.
  intros Hy. unfold balance_projection_of.
  destruct (Qgtb loan_amount 0) eqn:E.
  - apply Qgtb_iff in E.
    destruct (remaining_balance_mono loan_amount
                (get_or assumptions "repayment_period" 60)
                (ip_year year_data) (ip_year year_data) ltac:(lra) Hy ltac:(lia))
      as [b [_ [Hok _]]].
    rewrite Hok. cbn. eexists. split; [reflexivity|]. cbn. repeat split.
  - cbn. eexists. split; [reflexivity|]. cbn. repeat split.
Qed.

Lemma project_balance_sheet_rows (historical_data assumptions : gmap string Q)
    (loan_amount : Q) (income_projections : list income_projection_row) :
  Forall (fun year_data => (1 <= ip_year year_data)%Z) income_projections ->
  exists rows,
    project_balance_sheet historical_data assumptions income_projections loan_amount
      = Ok rows /\
    Forall2 (fun year_data row =>
               balance_projection_of historical_data assumptions loan_amount year_data
               = Ok row)
            income_projections rows.
Proof.
  induction 1 as [|year_data rest Hy Hrest IH]; simpl.
  - exists []. split; [reflexivity | constructor].
  - destruct IH as [rows [Hrows Hall]].
    destruct (balance_projection_of_ok historical_data assumptions loan_amount
                year_data Hy) as [row [Hrow _]].
    rewrite Hrow, Hrows. cbn. exists (row :: rows).
    split; [reflexivity | constructor; assumption].
Qed.

Lemma projected_years_positive (historical_data assumptions : gmap string Q)
    (periods : nat) (loan_amount interest_rate : Q) (repayment_period : Z) :
  Forall (fun year_data => (1 <= ip_year year_data)%Z)
         (project_income_statement historical_data assumptions periods loan_amount
            interest_rate repayment_period).
Proof.
  apply Forall_lookup. intros i row Hrow.
  apply project_income_lookup in Hrow. destruct Hrow as [_ ->]. simpl. lia.
Qed.

(** X12: the balance sheet projected from the projected income statement
    is always produced, with one row per projected year. In every row
    the loan balance lies between 0 and the loan (0 when there is no
    loan), total liabilities are the grown existing liabilities plus that
    balance, and the loan balance of the next year is not higher. The
    term that governs the balance is the [repayment_period] entry of the
    assumptions (60 months when absent), not the term of the loan. *)
Theorem balance_sheet_carries_the_loan
    (historical_data assumptions : gmap string Q) (periods : nat)
    (loan_amount interest_rate : Q) (repayment_period : Z) :
  exists rows,
    project_balance_sheet historical_data assumptions
      (project_income_statement historical_data assumptions periods loan_amount
         interest_rate repayment_period) loan_amount = Ok rows /\
    length rows = periods /\
    forall (i : nat) (row : balance_projection_row),
      rows !! i = Some row ->
      bp_year row = Z.of_nat (S i) /\
      0 <= bp_loan_balance row /\ bp_loan_balance row <= max0 loan_amount /\
      bp_total_liabilities row =
        (if Qgtb loan_amount 0
         then np_add (bp_existing_debt row) (Fin (bp_loan_balance row))
         else bp_existing_debt row) /\
      (if Qgtb loan_amount 0
       then _calculate_remaining_loan_balance loan_amount (Z.of_nat (S i))
              (get_or assumptions "repayment_period" 60)
       else Ok 0) = Ok (bp_loan_balance row) /\
      (forall next, rows !! S i = Some next ->
         bp_loan_balance next <= bp_loan_balance row).
Proof.
  set (incomes := project_income_statement historical_data assumptions periods
                    loan_amount interest_rate repayment_period).
  destruct (project_balance_sheet_rows historical_data assumptions loan_amount incomes
              (projected_years_positive _ _ _ _ _ _)) as [rows [Hrows Hall]].
  exists rows. split; [exact Hrows|].
  split.
  { rewrite <- (Forall2_length _ _ _ Hall). unfold incomes, project_income_statement.
    rewrite length_map, length_seq. reflexivity. }
  assert (Hrow_at : forall i row, rows !! i = Some row ->
            bp_year row = Z.of_nat (S i) /\
            bp_total_liabilities row =
              (if Qgtb loan_amount 0
               then np_add (bp_existing_debt row) (Fin (bp_loan_balance row))
               else bp_existing_debt row) /\
            (if Qgtb loan_amount 0
             then _calculate_remaining_loan_balance loan_amount (Z.of_nat (S i))
                    (get_or assumptions "repayment_period" 60)
             else Ok 0) = Ok (bp_loan_balance row)).
  { intros i row Hrow.
    destruct (Forall2_lookup_r _ _ _ _ _ Hall Hrow) as [inc [Hinc Hok]].
    apply project_income_lookup in Hinc. destruct Hinc as [_ ->].
    destruct (balance_projection_of_ok historical_data assumptions loan_amount
                (income_projection_of_year historical_data assumptions loan_amount
                   interest_rate (Z.of_nat (S i))) ltac:(simpl; lia))
      as [row' [Hok' [Hy [_ [Htl [_ [_ Hb]]]]]]].
    assert (row' = row) as -> by congruence.
    split; [exact Hy|]. split; [exact Htl | exact Hb]. }
  intros i row Hrow. destruct (Hrow_at i row Hrow) as [Hy [Htl Hb]].
  split; [exact Hy|].
  assert (Hbounds : 0 <= bp_loan_balance row /\ bp_loan_balance row <= max0 loan_amount /\
            forall next, rows !! S i = Some next ->
              bp_loan_balance next <= bp_loan_balance row).
  { unfold max0. destruct (Qgtb loan_amount 0) eqn:E.
    - apply Qgtb_iff in E.
      split; [|split].
      + destruct (remaining_balance_mono loan_amount
                    (get_or assumptions "repayment_period" 60)
                    (Z.of_nat (S i)) (Z.of_nat (S i)) ltac:(lra) ltac:(lia) ltac:(lia))
          as [b1 [b2 [H1 [H2 [Hnn _]]]]].
        assert (b2 = bp_loan_balance row) as <- by congruence. exact Hnn.
      + destruct (remaining_balance_mono loan_amount
                    (get_or assumptions "repayment_period" 60)
                    (Z.of_nat (S i)) (Z.of_nat (S i)) ltac:(lra) ltac:(lia) ltac:(lia))
          as [b1 [b2 [H1 [H2 [_ [_ Hle]]]]]].
        assert (b1 = bp_loan_balance row) as <- by congruence. exact Hle.
      + intros next Hnext. destruct (Hrow_at (S i) next Hnext) as [_ [_ Hbn]].
        destruct (remaining_balance_mono loan_amount
                    (get_or assumptions "repayment_period" 60)
                    (Z.of_nat (S i)) (Z.of_nat (S (S i)))
                    ltac:(lra) ltac:(lia) ltac:(lia))
          as [b1 [b2 [H1 [H2 [_ [Hle _]]]]]].
        assert (b1 = bp_loan_balance row) as <- by congruence.
        assert (b2 = bp_loan_balance next) as <- by congruence.
        exact Hle.
    - injection Hb as Hb0. rewrite <- Hb0.
      split; [lra|]. split; [lra|].
      intros next Hnext. destruct (Hrow_at (S i) next Hnext) as [_ [_ Hbn]].
      injection Hbn as Hbn0. rewrite <- Hbn0. lra. }
  destruct Hbounds as [H1 [H2 H3]].
  split; [exact H1|]. split; [exact H2|]. split; [exact Htl|]. split; [exact Hb | exact H3].
Qed.

Lemma project_cash_flow_lookup (assumptions : gmap string Q)
    (loan_amount : Q) (repayment_schedule : option (list schedule_row))
    (income_projections : list income_projection_row) :
  forall (balance_projections : list balance_projection_row) (i : nat)
         (row : cashflow_projection_row),
    project_cash_flow assumptions income_projections balance_projections loan_amount
      repayment_schedule !! i = Some row ->
    exists income balance,
      income_projections !! i = Some income /\
      balance_projections !! i = Some balance /\
      row = cashflow_projection_of assumptions loan_amount repayment_schedule
              income balance.
Proof.
  induction income_projections as [|income incomes IH];
    intros balances i row H; [discriminate|].
  destruct balances as [|balance balances]; [discriminate|].
  destruct i as [|i]; simpl in H.
  - injection H as <-. exists income, balance. repeat split.
  - exact (IH balances i row H).
Qed.

Lemma project_cash_flow_length (assumptions : gmap string Q)
    (loan_amount : Q) (repayment_schedule : option (list schedule_row))
    (income_projections : list income_projection_row) :
  forall balance_projections : list balance_projection_row,
    length (project_cash_flow assumptions income_projections balance_projections
              loan_amount repayment_schedule)
    = Nat.min (length income_projections) (length balance_projections).
Proof.
  induction income_projections as [|income incomes IH]; intros [|balance balances];
    simpl; try reflexivity.
  rewrite IH. reflexivity.
Qed.

(** X13: in the projected cash flow of a loan with its own repayment
    schedule, the row of year 1 books the whole loan as financing inflow
    and deducts none of the twelve instalments of that year; a later
    year that lies within the term books minus twelve monthly payments,
    and a year that starts after the term books nothing. The projection
    has as many rows as the shorter of the two projections it pairs. *)
Theorem first_year_instalments_are_not_deducted (assumptions : gmap string Q)
    (income_projections : list income_projection_row)
    (balance_projections : list balance_projection_row)
    (loan_amount interest_rate : Q) (repayment_period : nat)
    (schedule : list schedule_row) (i : nat) (row : cashflow_projection_row) :
  0 < loan_amount ->
  calculate_loan_repayment_schedule loan_amount interest_rate repayment_period
    = Ok schedule ->
  project_cash_flow assumptions income_projections balance_projections loan_amount
    (Some schedule) !! i = Some row ->
  length (project_cash_flow assumptions income_projections balance_projections
            loan_amount (Some schedule))
    = Nat.min (length income_projections) (length balance_projections) /\
  exists monthly_payment,
    Forall (fun r => payment r = monthly_payment) schedule /\
    (cp_year row = 1%Z -> cp_financing_cashflow row = loan_amount) /\
    ((2 <= cp_year row)%Z -> (cp_year row * 12 <= Z.of_nat repayment_period)%Z ->
       cp_financing_cashflow row == - (12 * monthly_payment)) /\
    ((2 <= cp_year row)%Z ->
     (Z.of_nat repayment_period < (cp_year row - 1) * 12 + 1)%Z ->
       cp_financing_cashflow row == 0) /\
    cp_loan_impact row = cp_financing_cashflow row.
Proof.
  intros HP Hok Hrow. split; [apply project_cash_flow_length|].
  destruct (AmortizationFacts.annual_payment_formula _ _ _ _ Hok) as [M [Hall Hyear]].
  exists M. split; [exact Hall|].
  destruct (project_cash_flow_lookup _ _ _ _ _ _ _ Hrow) as [inc [bal [_ [_ ->]]]].
  apply Qgtb_iff in HP.
  unfold cashflow_projection_of. cbn [cp_year cp_financing_cashflow cp_loan_impact].
  rewrite HP.
  split; [intros ->; reflexivity|]. split; [|split; [|reflexivity]].
  - intros H2 Hfull.
    assert (E : (ip_year inc =? 1)%Z = false) by (apply Z.eqb_neq; lia).
    rewrite E, Hyear. replace (Z.max 0 _) with 12%Z by lia.
    change (inject_Z 12) with 12. ring.
  - intros H2 Hout.
    assert (E : (ip_year inc =? 1)%Z = false) by (apply Z.eqb_neq; lia).
    rewrite E, Hyear. replace (Z.max 0 _) with 0%Z by lia.
    change (inject_Z 0) with 0. ring.
Qed.

Lemma first_year_instalments_are_not_deducted_witness :
  exists schedule row,
    calculate_loan_repayment_schedule 1200 12 12 = Ok schedule /\
    project_cash_flow ∅
      [ {| ip_year := 1; ip_revenue := 0; ip_cogs := 0; ip_gross_profit := 0;
           ip_operating_expenses := 0; ip_ebitda := 0; ip_interest_expense := 0;
           ip_ebit := 0; ip_tax := 0; ip_net_income := 0; ip_loan_impact := 0 |} ]
      [ {| bp_year := 1; bp_total_assets := Fin 0; bp_total_liabilities := Fin 0;
           bp_equity := 0; bp_current_assets := Fin 0; bp_current_liabilities := Fin 0;
           bp_loan_balance := 0; bp_existing_debt := Fin 0 |} ]
      1200 (Some schedule) !! 0%nat = Some row /\
    cp_financing_cashflow row = 1200.
Proof.
  destruct (AmortizationFacts.schedule_amortizes 1200 12 12) as [schedule [E _]];
    [reflexivity | reflexivity | lia |].
  pose (inc := {| ip_year := 1; ip_revenue := 0; ip_cogs := 0; ip_gross_profit := 0;
                  ip_operating_expenses := 0; ip_ebitda := 0; ip_interest_expense := 0;
                  ip_ebit := 0; ip_tax := 0; ip_net_income := 0; ip_loan_impact := 0 |}).
  pose (bal := {| bp_year := 1; bp_total_assets := Fin 0; bp_total_liabilities := Fin 0;
                  bp_equity := 0; bp_current_assets := Fin 0;
                  bp_current_liabilities := Fin 0;
                  bp_loan_balance := 0; bp_existing_debt := Fin 0 |}).
  exists schedule, (cashflow_projection_of ∅ 1200 (Some schedule) inc bal).
  split; [exact E|]. split; [reflexivity|].
  destruct (first_year_instalments_are_not_deducted ∅ [inc] [bal] 1200 12 12 schedule 0
              (cashflow_projection_of ∅ 1200 (Some schedule) inc bal)
              ltac:(reflexivity) E eq_refl) as [_ [mp [_ [H1 _]]]].
  apply H1. reflexivity.
Defined.

End ProjectionFacts.

(** ** Benchmarks and scores *)

Module AnalysisFacts.
Import PyNum PyNumFacts FinancialAnalyzer RiskModels.
Local Open Scope Q_scope.

Lemma assess_lookup (ratios : gmap string Q) (k : string) :
  assess_against_benchmarks ratios !! k
  = assess_ratio INDUSTRY_BENCHMARKS k <$> ratios !! k.
Proof.
  unfold assess_against_benchmarks. rewrite map_lookup_imap.
  destruct (ratios !! k); reflexivity.
Qed.

(** The ratio dict, in full. *)
Lemma comprehensive_ratios_value (financial_data : gmap string Q) :
  comprehensive_ratios financial_data =
  Ok (<["receivables_turnover" :=
          if Qgtb (get0 financial_data "accounts_receivable") 0
          then get0 financial_data "revenue" / get0 financial_data "accounts_receivable"
          else 0]>
     (<["asset_turnover" :=
          if Qgtb (get0 financial_data "total_assets") 0
          then get0 financial_data "revenue" / get0 financial_data "total_assets"
          else 0]>
     (<["debt_to_assets" :=
          if Qgtb (get0 financial_data "total_assets") 0
          then get0 financial_data "total_liabilities" / get0 financial_data "total_assets"
          else 0]>
     (<["debt_to_equity" :=
          if Qgtb (get0 financial_data "equity") 0
          then get0 financial_data "total_liabilities" / get0 financial_data "equity"
          else 0]>
     (<["net_profit_margin" :=
          if Qgtb (get0 financial_data "revenue") 0
          then get0 financial_data "net_income" / get0 financial_data "revenue"
          else 0]>
     (<["return_on_equity" :=
          if Qgtb (get0 financial_data "equity") 0
          then get0 financial_data "net_income" / get0 financial_data "equity"
          else 0]>
     (<["return_on_assets" :=
          if Qgtb (get0 financial_data "total_assets") 0
          then get0 financial_data "net_income" / get0 financial_data "total_assets"
          else 0]>
     (<["quick_ratio" :=
          if Qeq_bool (get0 financial_data "current_liabilities") 0 then 0
          else get0 financial_data "current_assets"
               / get0 financial_data "current_liabilities"]>
     (<["current_ratio" :=
          if Qeq_bool (get0 financial_data "current_liabilities") 0 then 0
          else get0 financial_data "current_assets"
               / get0 financial_data "current_liabilities"]> ∅))))))))).
Proof.
  unfold comprehensive_ratios.
  rewrite RatioFacts.liquidity_ratios_value, RatioFacts.profitability_ratios_value,
    RatioFacts.leverage_ratios_value, RatioFacts.efficiency_ratios_value.
  cbn. destruct (Qeq_bool (get0 financial_data "current_liabilities") 0); reflexivity.
Qed.

Lemma no_benchmark_for (k : string) (v : Q) :
  INDUSTRY_BENCHMARKS !! k = None -> assess_ratio INDUSTRY_BENCHMARKS k v = "No Benchmark".
Proof. intros H. unfold assess_ratio. rewrite H. reflexivity. Qed.

Lemma assess_ratio_band (b : benchmark) (k : string) (v : Q) :
  INDUSTRY_BENCHMARKS !! k = Some b ->
  assess_ratio INDUSTRY_BENCHMARKS k v
  = if Qltb v (bench_min b) then "Below Benchmark"
    else if np_gtb (Fin v) (bench_max b) then "Above Benchmark"
    else "Within Benchmark".
Proof. intros H. unfold assess_ratio. rewrite H. reflexivity. Qed.

(** X14: the ratio analysis never raises, and its assessment has an entry
    for exactly the nine ratios. Of these only current_ratio and
    debt_to_equity are graded against a benchmark band; the seven others,
    return_on_assets and return_on_equity among them, are reported as
    "No Benchmark", because the benchmark table knows them under other
    names (roa, roe). The quick ratio always equals the current ratio. *)
Theorem only_two_ratios_are_graded (financial_data : gmap string Q) :
  exists ratios assessment,
    comprehensive_ratio_analysis financial_data = Ok (ratios, assessment) /\
    (forall k, is_Some (assessment !! k) <-> k ∈ ratio_keys) /\
    (forall k, is_Some (ratios !! k) <-> k ∈ ratio_keys) /\
    ratios !! "quick_ratio" = ratios !! "current_ratio" /\
    Forall (fun k => assessment !! k = Some "No Benchmark")
           ["quick_ratio"; "return_on_assets"; "return_on_equity"; "net_profit_margin";
            "debt_to_assets"; "asset_turnover"; "receivables_turnover"] /\
    Forall (fun k => assessment !! k = Some "Below Benchmark" \/
                     assessment !! k = Some "Above Benchmark" \/
                     assessment !! k = Some "Within Benchmark")
           ["current_ratio"; "debt_to_equity"].
Proof.
  unfold comprehensive_ratio_analysis. rewrite comprehensive_ratios_value. cbn.
  eexists. eexists. split; [reflexivity|].
  match goal with |- context [assess_against_benchmarks ?m] => set (ratios := m) end.
  assert (Hdom : forall k, is_Some (ratios !! k) <-> k ∈ ratio_keys).
  { intros k. unfold ratios, ratio_keys. rewrite !lookup_insert_is_Some, lookup_empty.
    rewrite !elem_of_cons, elem_of_nil. split.
    - intros H. repeat (destruct H as [H|[_ H]]; [subst; tauto|]).
      destruct H as [x Hx]. discriminate.
    - intros H.
      repeat (destruct H as [->|H];
              [repeat (first [left; reflexivity | right; split; [discriminate|]])|]).
      contradiction. }
  split.
  { intros k. rewrite assess_lookup, fmap_is_Some. apply Hdom. }
  split; [exact Hdom|].
  split; [reflexivity|].
  assert (Hgraded : forall k b, k ∈ ratio_keys -> INDUSTRY_BENCHMARKS !! k = Some b ->
            assess_against_benchmarks ratios !! k = Some "Below Benchmark" \/
            assess_against_benchmarks ratios !! k = Some "Above Benchmark" \/
            assess_against_benchmarks ratios !! k = Some "Within Benchmark").
  { intros k b Hk Hb. apply Hdom in Hk. destruct Hk as [v Hv].
    rewrite assess_lookup, Hv. cbn. rewrite (assess_ratio_band b k v Hb).
    destruct (Qltb v (bench_min b)); [left; reflexivity|].
    destruct (np_gtb (Fin v) (bench_max b));
      [right; left; reflexivity | right; right; reflexivity]. }
  assert (Hnone : forall k, k ∈ ratio_keys -> INDUSTRY_BENCHMARKS !! k = None ->
            assess_against_benchmarks ratios !! k = Some "No Benchmark").
  { intros k Hk Hb. apply Hdom in Hk. destruct Hk as [v Hv].
    rewrite assess_lookup, Hv. cbn. rewrite (no_benchmark_for k v Hb). reflexivity. }
  split.
  - repeat constructor; apply Hnone;
      first [reflexivity | unfold ratio_keys; rewrite !elem_of_cons; tauto].
  - apply Forall_cons_2; [|apply Forall_cons_2; [|apply Forall_nil_2]].
    + apply (Hgraded _ {| bench_min := 1.5; bench_max := Fin 3.0 |});
        [unfold ratio_keys; rewrite !elem_of_cons; tauto | reflexivity].
    + apply (Hgraded _ {| bench_min := 0.3; bench_max := Fin 2.0 |});
        [unfold ratio_keys; rewrite !elem_of_cons; tauto | reflexivity].
Qed.

(** X15: the grading of a ratio that has a benchmark. It is "Below
    Benchmark" exactly when the value is under the minimum, "Above
    Benchmark" exactly when it is not under the minimum and over the
    maximum, and "Within Benchmark" otherwise; with an open upper bound
    (debt_service_ratio, roe, roa) it is never "Above Benchmark". A ratio
    without an entry in the table is "No Benchmark". *)
Theorem benchmark_bands (ratios : gmap string Q) (k : string) (v : Q) :
  ratios !! k = Some v ->
  (forall b, INDUSTRY_BENCHMARKS !! k = Some b ->
     (assess_against_benchmarks ratios !! k = Some "Below Benchmark"
        <-> v < bench_min b) /\
     (assess_against_benchmarks ratios !! k = Some "Above Benchmark"
        <-> bench_min b <= v /\ np_gtb (Fin v) (bench_max b) = true) /\
     (assess_against_benchmarks ratios !! k = Some "Within Benchmark"
        <-> bench_min b <= v /\ np_gtb (Fin v) (bench_max b) = false) /\
     (bench_max b = PInf ->
        assess_against_benchmarks ratios !! k <> Some "Above Benchmark")) /\
  (INDUSTRY_BENCHMARKS !! k = None ->
     assess_against_benchmarks ratios !! k = Some "No Benchmark").
Proof.
  intros Hv. rewrite assess_lookup, Hv. cbn [fmap option_fmap option_map]. split.
  - intros b Hb. rewrite (assess_ratio_band b k v Hb).
    destruct (Qltb v (bench_min b)) eqn:E1.
    + apply Qltb_iff in E1.
      split; [split; [intros _; exact E1 | reflexivity]|].
      split; [split; [discriminate | intros [H _]; lra]|].
      split; [split; [discriminate | intros [H _]; lra]|].
      intros _. discriminate.
    + apply Qltb_false_iff in E1.
      destruct (np_gtb (Fin v) (bench_max b)) eqn:E2.
      * split; [split; [discriminate | intros H; lra]|].
        split; [split; [intros _; split; [exact E1 | reflexivity] | reflexivity]|].
        split; [split; [discriminate | intros [_ H]; discriminate H]|].
        intros Hinf. rewrite Hinf in E2. discriminate E2.
      * split; [split; [discriminate | intros H; lra]|].
        split; [split; [discriminate | intros [_ H]; discriminate H]|].
        split; [split; [intros _; split; [exact E1 | reflexivity] | reflexivity]|].
        intros _. discriminate.
  - intros Hb. rewrite (no_benchmark_for k v Hb). reflexivity.
Qed.

Lemma benchmark_bands_witness :
  assess_against_benchmarks (<["current_ratio" := 2]> ∅) !! "current_ratio"
  = Some "Within Benchmark".
Proof.
  destruct (benchmark_bands (<["current_ratio" := 2]> ∅) "current_ratio" 2
              ltac:(apply lookup_insert_eq)) as [H _].
  destruct (H {| bench_min := 1.5; bench_max := Fin 3.0 |} eq_refl) as [_ [_ [Hw _]]].
  apply Hw. split; [discriminate | reflexivity].
Defined.

(** X16: gaps in the data are graded as weak ratios. When the current
    liabilities are 0 or absent the current ratio is 0 and is graded
    "Below Benchmark"; when the equity is absent or not positive the
    debt-to-equity ratio is 0 and is graded "Below Benchmark" too,
    whatever the liabilities are. *)
Theorem data_gaps_are_graded_below (financial_data : gmap string Q) :
  exists ratios assessment,
    comprehensive_ratio_analysis financial_data = Ok (ratios, assessment) /\
    (get0 financial_data "current_liabilities" == 0 ->
       ratios !! "current_ratio" = Some 0 /\
       assessment !! "current_ratio" = Some "Below Benchmark") /\
    (get0 financial_data "equity" <= 0 ->
       ratios !! "debt_to_equity" = Some 0 /\
       assessment !! "debt_to_equity" = Some "Below Benchmark").
Proof.
  unfold comprehensive_ratio_analysis. rewrite comprehensive_ratios_value. cbn.
  eexists. eexists. split; [reflexivity|].
  split.
  - intros H. apply Qeq_bool_iff in H. rewrite assess_lookup.
    rewrite !lookup_insert_ne by discriminate. rewrite lookup_insert_eq, H.
    split; reflexivity.
  - intros H. apply Qgtb_false_iff in H. rewrite assess_lookup.
    rewrite !lookup_insert_ne by discriminate. rewrite lookup_insert_eq, H.
    split; reflexivity.
Qed.

(** X17: because the fifth term of the Altman score is total_assets
    itself, the score of a firm is at least its total assets whenever
    working capital, retained earnings, ebit and the market value of
    equity are not negative; any such firm with total assets above 2.99
    is in the safe zone, whatever its liabilities. *)
Theorem altman_large_assets_are_safe
    (working_capital retained_earnings ebit market_value_equity
     total_assets total_liabilities : Q) :
  0 <= working_capital -> 0 <= retained_earnings -> 0 <= ebit ->
  0 <= market_value_equity -> 2.99 < total_assets ->
  exists z,
    altman_z_score working_capital retained_earnings ebit market_value_equity
      total_assets total_liabilities = Ok z /\
    total_assets <= z /\
    interpret_altman_z_score z = ("Safe Zone", "Low bankruptcy risk").
Proof.
  intros Hwc Hre Hebit Hmve Hta. unfold altman_z_score.
  assert (Hne : ~ total_assets == 0) by lra.
  pose proof Hne as Hne'. apply Qeq_bool_false_iff in Hne'. rewrite Hne'.
  rewrite !py_div_ok, div_if_gt by exact Hne. cbn.
  eexists. split; [reflexivity|].
  assert (H1 : 0 <= working_capital / total_assets) by (apply Qdiv_nonneg; lra).
  assert (H2 : 0 <= retained_earnings / total_assets) by (apply Qdiv_nonneg; lra).
  assert (H3 : 0 <= ebit / total_assets) by (apply Qdiv_nonneg; lra).
  assert (H4 : 0 <= (if Qgtb total_liabilities 0
                     then market_value_equity / total_liabilities else 0)).
  { destruct (Qgtb total_liabilities 0) eqn:E; [|lra].
    apply Qgtb_iff in E. apply Qdiv_nonneg; lra. }
  set (x1 := working_capital / total_assets) in *.
  set (x2 := retained_earnings / total_assets) in *.
  set (x3 := ebit / total_assets) in *.
  set (x4 := if Qgtb total_liabilities 0
             then market_value_equity / total_liabilities else 0) in *.
  assert (Hz : total_assets <= 1.2 * x1 + 1.4 * x2 + 3.3 * x3 + 0.6 * x4 + 1.0 * total_assets)
    by lra.
  split; [exact Hz|].
  unfold interpret_altman_z_score.
  assert (E : Qgtb (1.2 * x1 + 1.4 * x2 + 3.3 * x3 + 0.6 * x4 + 1.0 * total_assets) 2.99
              = true) by (apply Qgtb_iff; lra).
  rewrite E. reflexivity.
Qed.

Lemma altman_large_assets_are_safe_witness :
  exists z,
    altman_z_score 0 0 0 0 1000000 5000000 = Ok z /\
    interpret_altman_z_score z = ("Safe Zone", "Low bankruptcy risk").
Proof.
  destruct (altman_large_assets_are_safe 0 0 0 0 1000000 5000000) as [z [H1 [_ H2]]];
    try discriminate; try reflexivity.
  exists z. split; assumption.
Defined.

Lemma rule_score_points (financial_ratios : gmap string Q) :
  machine_learning_credit_scoring financial_ratios =
    (points (Qgtb (ratio financial_ratios "current_ratio") 1.5)
     + points (Qltb (ratio financial_ratios "debt_to_equity") 2.0)
     + points (Qgtb (ratio financial_ratios "return_on_assets") 0.05)
     + points (Qgtb (ratio financial_ratios "net_profit_margin") 0.1))%Z.
Proof.
  unfold machine_learning_credit_scoring, rule_score, points.
  destruct (Qgtb (ratio financial_ratios "current_ratio") 1.5),
           (Qltb (ratio financial_ratios "debt_to_equity") 2.0),
           (Qgtb (ratio financial_ratios "return_on_assets") 0.05),
           (Qgtb (ratio financial_ratios "net_profit_margin") 0.1); reflexivity.
Qed.

Lemma points_gt_mono (x y c : Q) : x <= y -> (points (Qgtb x c) <= points (Qgtb y c))%Z.
Proof.
  intros H. unfold points.
  destruct (Qgtb x c) eqn:Ex, (Qgtb y c) eqn:Ey; try lia.
  apply Qgtb_iff in Ex. apply Qgtb_false_iff in Ey. lra.
Qed.

Lemma points_lt_mono (x y c : Q) : y <= x -> (points (Qltb x c) <= points (Qltb y c))%Z.
Proof.
  intros H. unfold points.
  destruct (Qltb x c) eqn:Ex, (Qltb y c) eqn:Ey; try lia.
  apply Qltb_iff in Ex. apply Qltb_false_iff in Ey. lra.
Qed.

(** X18: the rule-based credit score is monotone: a ratio set with a
    current ratio, return on assets and net profit margin that are not
    lower, and a debt-to-equity ratio that is not higher, never scores
    less. *)
Theorem credit_score_is_monotone (worse better : gmap string Q) :
  ratio worse "current_ratio" <= ratio better "current_ratio" ->
  ratio better "debt_to_equity" <= ratio worse "debt_to_equity" ->
  ratio worse "return_on_assets" <= ratio better "return_on_assets" ->
  ratio worse "net_profit_margin" <= ratio better "net_profit_margin" ->
  (machine_learning_credit_scoring worse <= machine_learning_credit_scoring better)%Z.
Proof.
  intros H1 H2 H3 H4. rewrite !rule_score_points.
  pose proof (points_gt_mono _ _ 1.5 H1).
  pose proof (points_lt_mono _ _ 2.0 H2).
  pose proof (points_gt_mono _ _ 0.05 H3).
  pose proof (points_gt_mono _ _ 0.1 H4).
  lia.
Qed.

Lemma credit_score_is_monotone_witness :
  (machine_learning_credit_scoring (<["current_ratio" := 1%Q]> ∅)
   <= machine_learning_credit_scoring (<["current_ratio" := 2%Q]> ∅))%Z.
Proof.
  apply credit_score_is_monotone; discriminate.
Defined.

(** X19: scored on the ratios the analysis computes, a firm whose equity
    is absent or not positive has a debt-to-equity ratio of 0 and so
    collects the 25 points of the leverage test, while a firm whose
    current liabilities are 0 or absent has a current ratio of 0 and
    cannot collect the 25 points of the liquidity test. *)
Theorem data_gaps_in_the_credit_score (financial_data : gmap string Q) :
  exists ratios,
    comprehensive_ratios financial_data = Ok ratios /\
    (get0 financial_data "equity" <= 0 ->
       (25 <= machine_learning_credit_scoring ratios)%Z) /\
    (get0 financial_data "current_liabilities" == 0 ->
       (machine_learning_credit_scoring ratios <= 75)%Z).
Proof.
  rewrite comprehensive_ratios_value. eexists. split; [reflexivity|].
  match goal with |- context [machine_learning_credit_scoring ?m] => set (ratios := m) end.
  split.
  - intros H. apply Qgtb_false_iff in H. rewrite rule_score_points.
    assert (E : ratio ratios "debt_to_equity" = 0).
    { unfold ratio, ratios. rewrite !lookup_insert_ne by discriminate.
      rewrite lookup_insert_eq, H. reflexivity. }
    rewrite E. change (Qltb 0 2.0) with true. unfold points.
    destruct (Qgtb (ratio ratios "current_ratio") 1.5),
             (Qgtb (ratio ratios "return_on_assets") 0.05),
             (Qgtb (ratio ratios "net_profit_margin") 0.1); cbn; lia.
  - intros H. apply Qeq_bool_iff in H. rewrite rule_score_points.
    assert (E : ratio ratios "current_ratio" = 0).
    { unfold ratio, ratios. rewrite !lookup_insert_ne by discriminate.
      rewrite lookup_insert_eq, H. reflexivity. }
    rewrite E. change (Qgtb 0 1.5) with false. unfold points.
    destruct (Qltb (ratio ratios "debt_to_equity") 2.0),
             (Qgtb (ratio ratios "return_on_assets") 0.05),
             (Qgtb (ratio ratios "net_profit_margin") 0.1); cbn; lia.
Qed.

End AnalysisFacts.

(** ** Classification and renaming, continued *)

Module DataProcessingFacts.
Import PyStr PyStrFacts DataProcessor ColumnMappingFacts.

Lemma indicator_score_zero_iff (indicators names : list string) :
  indicator_score indicators names = 0%nat
  <-> forall ind, ind ∈ indicators -> any_col_contains ind names = false.
Proof.
  unfold indicator_score. induction indicators as [|ind l IH]; simpl.
  - split; [intros _ ind H; inversion H | reflexivity].
  - rewrite filter_cons. destruct (decide (any_col_contains ind names = true)) as [E|E].
    + simpl. split; [discriminate|]. intros H.
      rewrite (H ind) in E by left. discriminate.
    + rewrite IH. split.
      * intros H x Hx. apply elem_of_cons in Hx. destruct Hx as [->|Hx]; [|auto].
        destruct (any_col_contains ind names); [contradiction | reflexivity].
      * intros H x Hx. apply H. right. exact Hx.
Qed.

Lemma tie_break_known (columns : list string) : tie_break columns <> unknown.
Proof.
  unfold tie_break.
  destruct (any_col_contains "cash flow" _); [discriminate|].
  destruct (any_col_contains "assets" _ && any_col_contains "liabilities" _); discriminate.
Qed.

Lemma best_types_known (columns : list string) (t : statement_type) :
  t ∈ best_types columns -> t <> unknown.
Proof.
  unfold best_types, scores. intros H.
  apply list_elem_of_fmap in H. destruct H as [[t' n] [-> H]].
  apply list_elem_of_filter in H. destruct H as [_ H].
  rewrite !elem_of_cons, elem_of_nil in H.
  destruct H as [H|[H|[H|[]]]]; injection H as -> _; discriminate.
Qed.

(** X20: the classifier answers 'unknown' exactly when none of its
    eighteen indicator keywords occurs in any lower-cased column label;
    as soon as one keyword occurs in one label, the answer is one of the
    three statement types. *)
Theorem unknown_iff_no_indicator (columns : list string) :
  detect_financial_statement_type columns = unknown
  <-> forall ind col, ind ∈ all_indicators -> col ∈ columns ->
        ~ is_substring ind (lower col).
Proof.
  assert (Hscores : max_score columns = 0%nat
            <-> forall ind, ind ∈ all_indicators ->
                  any_col_contains ind (column_names_lower columns) = false).
  { assert (Hm : max_score columns
                  = Nat.max (indicator_score income_indicators (column_names_lower columns))
                      (Nat.max (indicator_score balance_indicators
                                  (column_names_lower columns))
                               (indicator_score cashflow_indicators
                                  (column_names_lower columns)))).
    { unfold max_score, scores, income_score, balance_score, cashflow_score.
      cbn [map foldr snd]. rewrite Nat.max_0_r. reflexivity. }
    rewrite Hm. unfold all_indicators.
    split.
    - intros H ind Hind.
      assert (H1 : indicator_score income_indicators (column_names_lower columns) = 0%nat)
        by lia.
      assert (H2 : indicator_score balance_indicators (column_names_lower columns) = 0%nat)
        by lia.
      assert (H3 : indicator_score cashflow_indicators (column_names_lower columns) = 0%nat)
        by lia.
      rewrite indicator_score_zero_iff in H1, H2, H3.
      rewrite !elem_of_app in Hind. destruct Hind as [Hi|[Hi|Hi]]; auto.
    - intros H.
      assert (H1 : indicator_score income_indicators (column_names_lower columns) = 0%nat).
      { apply indicator_score_zero_iff. intros ind Hi. apply H.
        rewrite !elem_of_app. tauto. }
      assert (H2 : indicator_score balance_indicators (column_names_lower columns) = 0%nat).
      { apply indicator_score_zero_iff. intros ind Hi. apply H.
        rewrite !elem_of_app. tauto. }
      assert (H3 : indicator_score cashflow_indicators (column_names_lower columns) = 0%nat).
      { apply indicator_score_zero_iff. intros ind Hi. apply H.
        rewrite !elem_of_app. tauto. }
      lia. }
  assert (Hdet : detect_financial_statement_type columns = unknown
                 <-> max_score columns = 0%nat).
  { unfold detect_financial_statement_type.
    destruct (0 <? max_score columns)%nat eqn:E.
    - apply Nat.ltb_lt in E. split; [|lia]. intros H. exfalso.
      destruct (best_types columns) as [|t [|t' l]] eqn:Eb.
      + exact (tie_break_known columns H).
      + apply (best_types_known columns t); [rewrite Eb; left | exact H].
      + exact (tie_break_known columns H).
    - apply Nat.ltb_ge in E. split; [intros _; lia | reflexivity]. }
  rewrite Hdet, Hscores. unfold any_col_contains, column_names_lower. split.
  - intros H ind col Hind Hcol Hsub.
    specialize (H ind Hind).
    assert (Ht : existsb (fun c => contains ind c) (map lower columns) = true).
    { apply existsb_exists. exists (lower col). split.
      - apply in_map. apply list_elem_of_In. exact Hcol.
      - apply contains_iff. exact Hsub. }
    congruence.
  - intros H ind Hind.
    destruct (existsb (fun c => contains ind c) (map lower columns)) eqn:E; [|reflexivity].
    exfalso. apply existsb_exists in E. destruct E as [c [Hc Hsub]].
    apply in_map_iff in Hc. destruct Hc as [col [<- Hcol]].
    apply (H ind col Hind); [apply list_elem_of_In; exact Hcol|].
    apply contains_iff. exact Hsub.
Qed.

Lemma any_col_contains_ext (ind : string) (names1 names2 : list string) :
  (forall c, c ∈ names1 <-> c ∈ names2) ->
  any_col_contains ind names1 = any_col_contains ind names2.
Proof.
  intros H. unfold any_col_contains.
  destruct (existsb (fun col => contains ind col) names1) eqn:E1;
    destruct (existsb (fun col => contains ind col) names2) eqn:E2; try reflexivity.
  - apply existsb_exists in E1. destruct E1 as [c [Hc Hs]].
    assert (E : existsb (fun col => contains ind col) names2 = true).
    { apply existsb_exists. exists c. split; [|exact Hs].
      apply list_elem_of_In. apply H. apply list_elem_of_In. exact Hc. }
    congruence.
  - apply existsb_exists in E2. destruct E2 as [c [Hc Hs]].
    assert (E : existsb (fun col => contains ind col) names1 = true).
    { apply existsb_exists. exists c. split; [|exact Hs].
      apply list_elem_of_In. apply H. apply list_elem_of_In. exact Hc. }
    congruence.
Qed.

Lemma indicator_score_ext (indicators names1 names2 : list string) :
  (forall ind, any_col_contains ind names1 = any_col_contains ind names2) ->
  indicator_score indicators names1 = indicator_score indicators names2.
Proof.
  intros H. unfold indicator_score. f_equal.
  induction indicators as [|ind l IH]; [reflexivity|].
  rewrite !filter_cons, IH, (H ind). reflexivity.
Qed.

(** X21: the classification depends only on the set of lower-cased
    column labels: two tables whose labels agree up to letter case, order
    and repetition are classified alike. *)
Theorem classification_ignores_case_and_order (columns1 columns2 : list string) :
  (forall c, c ∈ map lower columns1 <-> c ∈ map lower columns2) ->
  detect_financial_statement_type columns1 = detect_financial_statement_type columns2.
Proof.
  intros H.
  assert (Hany : forall ind,
            any_col_contains ind (column_names_lower columns1)
            = any_col_contains ind (column_names_lower columns2)).
  { intros ind. apply any_col_contains_ext. exact H. }
  assert (Hi : income_score columns1 = income_score columns2)
    by (apply indicator_score_ext; exact Hany).
  assert (Hb : balance_score columns1 = balance_score columns2)
    by (apply indicator_score_ext; exact Hany).
  assert (Hc : cashflow_score columns1 = cashflow_score columns2)
    by (apply indicator_score_ext; exact Hany).
  assert (Hs : scores columns1 = scores columns2)
    by (unfold scores; rewrite Hi, Hb, Hc; reflexivity).
  assert (Hm : max_score columns1 = max_score columns2)
    by (unfold max_score; rewrite Hs; reflexivity).
  assert (Hbest : best_types columns1 = best_types columns2)
    by (unfold best_types; rewrite Hs, Hm; reflexivity).
  assert (Ht : tie_break columns1 = tie_break columns2)
    by (unfold tie_break; rewrite !Hany; reflexivity).
  unfold detect_financial_statement_type. rewrite Hm, Hbest, Ht. reflexivity.
Qed.

Lemma classification_ignores_case_and_order_witness :
  detect_financial_statement_type ["TOTAL ASSETS"; "Equity"; "equity"]
  = detect_financial_statement_type ["equity"; "Total Assets"].
Proof.
  apply classification_ignores_case_and_order. intros c. cbn.
  rewrite !elem_of_cons, !elem_of_nil. tauto.
Defined.

Lemma renamed_label (columns : list string) (i : nat) (c : string) :
  columns !! i = Some c ->
  _map_column_names columns !! i = Some (default c (last_match c)).
Proof.
  intros H. rewrite map_column_names_pointwise, list_lookup_fmap, H. reflexivity.
Qed.

Lemma last_key_matches (c : string) :
  key_matches ["financing cash flow"; "cash from financing activities"] c ->
  last_match c = Some "cash_flow_financing".
Proof.
  intros H. unfold last_match.
  change column_mappings
    with (firstn 13 column_mappings
          ++ [("cash_flow_financing",
               ["financing cash flow"; "cash from financing activities"])]).
  apply last_match_in_last; [exact H|]. intros kv Hkv. inversion Hkv.
Qed.

(** X22: cash_flow_financing, the last canonical key, takes every column
    that one of its two synonyms matches, whatever the earlier keys would
    make of it. This includes every label whose normalised text is a
    piece of "cash from financing activities", such as "Cash" or
    "Activities", and every label that is empty or blank. *)
Theorem last_key_takes_whatever_it_matches (columns : list string) (i : nat)
    (col_name : string) :
  columns !! i = Some col_name ->
  (key_matches ["financing cash flow"; "cash from financing activities"] col_name ->
     _map_column_names columns !! i = Some "cash_flow_financing") /\
  (is_substring (col_lower col_name) "cash from financing activities" ->
     _map_column_names columns !! i = Some "cash_flow_financing") /\
  (col_lower col_name = "" ->
     _map_column_names columns !! i = Some "cash_flow_financing").
Proof.
  intros Hi. rewrite (renamed_label columns i col_name Hi).
  assert (G : key_matches ["financing cash flow"; "cash from financing activities"]
                col_name ->
              Some (default col_name (last_match col_name)) = Some "cash_flow_financing").
  { intros H. rewrite (last_key_matches col_name H). reflexivity. }
  split; [exact G|]. split.
  - intros H. apply G. exists "cash from financing activities".
    split; [right; left | right; exact H].
  - intros H. apply G. exists "cash from financing activities".
    split; [right; left|]. right. rewrite H.
    exists "", "cash from financing activities". reflexivity.
Qed.

Lemma last_key_takes_whatever_it_matches_witness :
  _map_column_names ["Revenue"; " Cash "; "   "] !! 1%nat = Some "cash_flow_financing" /\
  _map_column_names ["Revenue"; " Cash "; "   "] !! 2%nat = Some "cash_flow_financing".
Proof.
  split.
  - apply (proj1 (proj2 (last_key_takes_whatever_it_matches
                           ["Revenue"; " Cash "; "   "] 1 " Cash " eq_refl))).
    exists "", " from financing activities". reflexivity.
  - apply (proj2 (proj2 (last_key_takes_whatever_it_matches
                           ["Revenue"; " Cash "; "   "] 2 "   " eq_refl))).
    reflexivity.
Defined.

(** X23: renaming is not stable under a second pass. A column that the
    first pass has named net_income is renamed revenue by a second pass
    ("income" occurs in "net_income"), current_assets becomes
    total_assets and current_liabilities becomes total_liabilities; the
    eleven other canonical names are kept. *)
Theorem second_pass_renames_again (columns : list string) (i : nat) (k : string) :
  _map_column_names columns !! i = Some k ->
  (k = "net_income" ->
     _map_column_names (_map_column_names columns) !! i = Some "revenue") /\
  (k = "current_assets" ->
     _map_column_names (_map_column_names columns) !! i = Some "total_assets") /\
  (k = "current_liabilities" ->
     _map_column_names (_map_column_names columns) !! i = Some "total_liabilities") /\
  (k ∈ canonical_keys -> k <> "net_income" -> k <> "current_assets" ->
   k <> "current_liabilities" ->
     _map_column_names (_map_column_names columns) !! i = Some k).
Proof.
  intros Hk. rewrite (renamed_label _ i k Hk).
  split; [intros ->; reflexivity|]. split; [intros ->; reflexivity|].
  split; [intros ->; reflexivity|].
  intros Hin H1 H2 H3. unfold canonical_keys in Hin. cbn in Hin.
  rewrite !elem_of_cons, elem_of_nil in Hin.
  repeat (destruct Hin as [->|Hin]; [first [reflexivity | contradiction]|]).
  contradiction.
Qed.

Lemma second_pass_renames_again_witness :
  _map_column_names (_map_column_names ["Net Profit After Tax"]) !! 0%nat
  = Some "revenue".
Proof.
  apply (proj1 (second_pass_renames_again ["Net Profit After Tax"] 0 "net_income"
                  eq_refl)).
  reflexivity.
Defined.

(** *** Metric extraction *)

Section ExtractIdentities.
Import PyNum PyNumFacts.
Local Open Scope Q_scope.
Variable float_of_str : string -> option Q.

Lemma extract_body_inv (df : DataFrame) (st : statement_type) (m : gmap string Q) :
  extract_body float_of_str df st = Ok m ->
  exists row metrics,
    latest_row df = Ok row /\
    extract_core float_of_str df row = Ok metrics /\
    m = match st with
        | income_statement => derive_income metrics
        | balance_sheet => derive_balance metrics
        | _ => metrics
        end.
Proof.
  unfold extract_body, mbind, exc_bind. intros H.
  destruct (latest_row df) as [row|e]; [|discriminate H].
  cbn [ebind] in H.
  destruct (extract_core float_of_str df row) as [metrics|e] eqn:Hc; [|discriminate H].
  injection H as <-. exists row, metrics. auto.
Qed.

Lemma extract_metric_keys (df : DataFrame) (row : list cell) (m m' : gmap string Q)
    (metric k : string) :
  extract_metric float_of_str df row m metric = Ok m' ->
  is_Some (m' !! k) -> is_Some (m !! k) \/ (k = metric /\ metric ∈ columns df).
Proof.
  unfold extract_metric, mbind, exc_bind. case_bool_decide as Hin.
  - intros H.
    destruct (row_get (columns df) row metric) as [[q| |str]|e];
      cbn [ebind] in H; [| | |discriminate H].
    + destruct (Qeq_bool q 0); injection H as <-; [tauto|].
      rewrite lookup_insert_is_Some. intros [->|[_ H]]; tauto.
    + injection H as <-. tauto.
    + destruct (float_of_str str); [|discriminate H].
      injection H as <-. rewrite lookup_insert_is_Some.
      intros [->|[_ H]]; tauto.
  - intros H. injection H as <-. tauto.
Qed.

Lemma extract_fold_keys (df : DataFrame) (row : list cell) (metrics_list : list string) :
  forall (acc : exc (gmap string Q)) (m : gmap string Q) (k : string),
    foldl (fun acc metric => m ← acc; extract_metric float_of_str df row m metric)
          acc metrics_list = Ok m ->
    is_Some (m !! k) ->
    exists m0, acc = Ok m0 /\
      (is_Some (m0 !! k) \/ (k ∈ metrics_list /\ k ∈ columns df)).
Proof.
  induction metrics_list as [|metric l IH]; intros acc m k Hfold Hk; simpl in Hfold.
  - exists m. split; [exact Hfold | left; exact Hk].
  - destruct (IH _ m k Hfold Hk) as [m1 [Hm1 Hcase]].
    destruct acc as [m0|e]; [|discriminate Hm1].
    change (extract_metric float_of_str df row m0 metric = Ok m1) in Hm1.
    exists m0. split; [reflexivity|].
    destruct Hcase as [Hs|[Hin Hcol]].
    + destruct (extract_metric_keys df row m0 m1 metric k Hm1 Hs) as [H|[-> H]].
      * left. exact H.
      * right. split; [left | exact H].
    + right. split; [right; exact Hin | exact Hcol].
Qed.

Lemma extract_core_keys (df : DataFrame) (row : list cell) (m : gmap string Q)
    (k : string) :
  extract_core float_of_str df row = Ok m -> is_Some (m !! k) ->
  k ∈ core_metrics /\ k ∈ columns df.
Proof.
  intros H Hk. destruct (extract_fold_keys df row core_metrics _ m k H Hk)
    as [m0 [Hm0 Hcase]].
  injection Hm0 as <-. destruct Hcase as [Hs|Hs]; [|exact Hs].
  rewrite lookup_empty in Hs. destruct Hs as [x Hx]. discriminate.
Qed.

Lemma derive_income_spec (metrics : gmap string Q) :
  (forall k, is_Some (derive_income metrics !! k) ->
     is_Some (metrics !! k) \/ k = "gross_profit" \/ k = "ebit") /\
  (forall r c, derive_income metrics !! "revenue" = Some r ->
     derive_income metrics !! "cogs" = Some c ->
     derive_income metrics !! "gross_profit" = Some (r - c)) /\
  (forall g o, derive_income metrics !! "gross_profit" = Some g ->
     derive_income metrics !! "operating_expenses" = Some o ->
     derive_income metrics !! "ebit" = Some (g - o)).
Proof.
  unfold derive_income.
  destruct (metrics !! "revenue") as [r0|] eqn:Er;
    destruct (metrics !! "cogs") as [c0|] eqn:Ec;
    match goal with
    | |- context [match ?m !! "gross_profit" with _ => _ end] =>
        destruct (m !! "gross_profit") as [g0|] eqn:Eg;
        destruct (m !! "operating_expenses") as [o0|] eqn:Eo
    end;
    (split; [intros k; rewrite ?lookup_insert_is_Some; intuition auto|]);
    split; intros; simplify_map_eq; reflexivity.
Qed.

Lemma derive_balance_spec (metrics : gmap string Q) :
  (forall k, is_Some (derive_balance metrics !! k) ->
     is_Some (metrics !! k) \/ k = "equity") /\
  (forall ta tl, derive_balance metrics !! "total_assets" = Some ta ->
     derive_balance metrics !! "total_liabilities" = Some tl ->
     exists e, derive_balance metrics !! "equity" = Some e /\
               Qabs (ta - tl - e) <= 0.01).
Proof.
  assert (Hzero : forall x : Q, Qabs (x - x) <= 0.01).
  { intros x. assert (E : x - x == 0) by ring. rewrite E. discriminate. }
  assert (Hset : forall ta0 tl0 : Q,
            metrics !! "total_assets" = Some ta0 ->
            metrics !! "total_liabilities" = Some tl0 ->
            forall ta tl,
              <["equity" := ta0 - tl0]> metrics !! "total_assets" = Some ta ->
              <["equity" := ta0 - tl0]> metrics !! "total_liabilities" = Some tl ->
              exists e, <["equity" := ta0 - tl0]> metrics !! "equity" = Some e /\
                        Qabs (ta - tl - e) <= 0.01).
  { intros ta0 tl0 Ea El ta tl Ha Hl.
    rewrite lookup_insert_ne in Ha by discriminate.
    rewrite lookup_insert_ne in Hl by discriminate.
    rewrite Ea in Ha. rewrite El in Hl. injection Ha as <-. injection Hl as <-.
    exists (ta0 - tl0). split; [apply lookup_insert_eq | apply Hzero]. }
  unfold derive_balance.
  destruct (metrics !! "total_assets") as [ta0|] eqn:Ea;
    [|split; [intros k; tauto | intros ta tl Ha; congruence]].
  destruct (metrics !! "total_liabilities") as [tl0|] eqn:El;
    [|split; [intros k; tauto | intros ta tl _ Hl; congruence]].
  destruct (metrics !! "equity") as [e0|] eqn:Ee.
  - destruct (Qgtb (Qabs (ta0 - tl0 - e0)) 0.01) eqn:E.
    + split; [intros k; rewrite lookup_insert_is_Some; intuition auto|].
      apply Hset; reflexivity.
    + split; [intros k; tauto|].
      intros ta tl Ha Hl. rewrite Ea in Ha. rewrite El in Hl.
      injection Ha as <-. injection Hl as <-.
      exists e0. split; [exact Ee|].
      apply Qgtb_false_iff. exact E.
  - split; [intros k; rewrite lookup_insert_is_Some; intuition auto|].
    apply Hset; reflexivity.
Qed.

(** X24: what metric extraction guarantees. Every key of the result is
    one of the eleven core metric names (and, for a statement of unknown
    type, the label of a column of the table). For an income statement,
    whenever the result has revenue and cogs its gross_profit is their
    difference, and whenever it has gross_profit and operating_expenses
    its ebit is their difference. For a balance sheet, whenever the
    result has total_assets and total_liabilities it has an equity that
    differs from assets less liabilities by at most 0.01. *)
Theorem extraction_enforces_identities (df : DataFrame) :
  (forall st k, is_Some (extract_financial_metrics float_of_str df st !! k) ->
     k ∈ core_metrics) /\
  (forall k, is_Some (extract_financial_metrics float_of_str df unknown !! k) ->
     k ∈ columns df) /\
  (forall r c,
     extract_financial_metrics float_of_str df income_statement !! "revenue" = Some r ->
     extract_financial_metrics float_of_str df income_statement !! "cogs" = Some c ->
     extract_financial_metrics float_of_str df income_statement !! "gross_profit"
       = Some (r - c)) /\
  (forall g o,
     extract_financial_metrics float_of_str df income_statement !! "gross_profit"
       = Some g ->
     extract_financial_metrics float_of_str df income_statement !! "operating_expenses"
       = Some o ->
     extract_financial_metrics float_of_str df income_statement !! "ebit"
       = Some (g - o)) /\
  (forall ta tl,
     extract_financial_metrics float_of_str df balance_sheet !! "total_assets" = Some ta ->
     extract_financial_metrics float_of_str df balance_sheet !! "total_liabilities"
       = Some tl ->
     exists e,
       extract_financial_metrics float_of_str df balance_sheet !! "equity" = Some e /\
       Qabs (ta - tl - e) <= 0.01).
Proof.
  assert (Hcore : forall k, k = "gross_profit" \/ k = "ebit" \/ k = "equity" ->
                            k ∈ core_metrics).
  { intros k [-> | [-> | ->]]; unfold core_metrics; rewrite !elem_of_cons; tauto. }
  split; [|split; [|split; [|split]]].
  - intros st k. unfold extract_financial_metrics.
    destruct (extract_body float_of_str df st) as [m|e] eqn:E;
      [|rewrite lookup_empty; intros [x Hx]; discriminate].
    destruct (extract_body_inv df st m E) as [row [metrics [_ [Hcore_ok ->]]]].
    intros Hk.
    assert (Hbase : is_Some (metrics !! k) -> k ∈ core_metrics)
      by (intros H; exact (proj1 (extract_core_keys df row metrics k Hcore_ok H))).
    destruct st.
    + destruct (proj1 (derive_income_spec metrics) k Hk) as [H|[->| ->]];
        [exact (Hbase H) | apply Hcore; tauto | apply Hcore; tauto].
    + destruct (proj1 (derive_balance_spec metrics) k Hk) as [H| ->];
        [exact (Hbase H) | apply Hcore; tauto].
    + exact (Hbase Hk).
    + exact (Hbase Hk).
  - intros k. unfold extract_financial_metrics.
    destruct (extract_body float_of_str df unknown) as [m|e] eqn:E;
      [|rewrite lookup_empty; intros [x Hx]; discriminate].
    destruct (extract_body_inv df unknown m E) as [row [metrics [_ [Hcore_ok ->]]]].
    intros Hk. exact (proj2 (extract_core_keys df row metrics k Hcore_ok Hk)).
  - intros r c. unfold extract_financial_metrics.
    destruct (extract_body float_of_str df income_statement) as [m|e] eqn:E;
      [|rewrite lookup_empty; discriminate].
    destruct (extract_body_inv df income_statement m E) as [row [metrics [_ [_ ->]]]].
    apply (proj1 (proj2 (derive_income_spec metrics))).
  - intros g o. unfold extract_financial_metrics.
    destruct (extract_body float_of_str df income_statement) as [m|e] eqn:E;
      [|rewrite lookup_empty; discriminate].
    destruct (extract_body_inv df income_statement m E) as [row [metrics [_ [_ ->]]]].
    apply (proj2 (proj2 (derive_income_spec metrics))).
  - intros ta tl. unfold extract_financial_metrics.
    destruct (extract_body float_of_str df balance_sheet) as [m|e] eqn:E;
      [|rewrite lookup_empty; discriminate].
    destruct (extract_body_inv df balance_sheet m E) as [row [metrics [_ [_ ->]]]].
    apply (proj2 (derive_balance_spec metrics)).
Qed.

End ExtractIdentities.

End DataProcessingFacts.

(** ** Uploaded files *)

Module UploadFacts.
Import DataProcessor PyStr.

Lemma has_char_after_sep (sep : ascii) (base ext : string) :
  has_char sep (base +:+ String sep ext) = true.
Proof.
  induction base as [|c base IH]; simpl.
  - rewrite Ascii.eqb_refl. reflexivity.
  - rewrite IH. apply orb_true_r.
Qed.

Lemma after_last_ext (sep : ascii) (base ext : string) :
  has_char sep ext = false -> after_last sep (base +:+ String sep ext) = ext.
Proof.
  intros Hext. induction base as [|c base IH]; simpl.
  - rewrite Hext, Ascii.eqb_refl. reflexivity.
  - rewrite has_char_after_sep. exact IH.
Qed.

Lemma after_last_no_sep (sep : ascii) (s : string) :
  has_char sep s = false -> after_last sep s = s.
Proof.
  destruct s as [|c s]; simpl; [reflexivity|].
  intros H. apply orb_false_iff in H as [Hc Hs]. rewrite Hs.
  rewrite Ascii.eqb_sym, Hc. reflexivity.
Qed.

Lemma file_type_of_ext (base ext : string) :
  has_char "." ext = false -> file_type_of (base +:+ "." +:+ ext) = lower ext.
Proof.
  intros H. unfold file_type_of.
  change (base +:+ "." +:+ ext) with (base +:+ String "." ext).
  rewrite (after_last_ext "." base ext H). reflexivity.
Qed.

Section Upload.
Variables (File D : Type).
Variable file_name : File -> string.
Variables (process_excel_file process_csv_file extract_financial_data_from_pdf
             : File -> exc D).

Local Notation "'process'" :=
  (process_file File D file_name process_excel_file process_csv_file
     extract_financial_data_from_pdf) (only parsing).
Local Notation "'process_all'" :=
  (process_uploaded_files File D file_name process_excel_file process_csv_file
     extract_financial_data_from_pdf) (only parsing).
Local Notation "'step'" :=
  (fun (acc : gmap string (upload_entry D) * list string) (file : File) =>
     let '(entry, err) := process file in
     (<[file_name file := entry]> acc.1,
      acc.2 ++ match err with Some msg => [msg] | None => [] end)) (only parsing).

(** The status of the entry and the error message go together. *)
Lemma process_file_status (file : File) :
  entry_status (process file).1 = success <-> (process file).2 = None.
Proof.
  unfold process_file.
  destruct (String.eqb _ "xlsx" || String.eqb _ "xls");
    [destruct (process_excel_file file); simpl; split; (reflexivity || discriminate)|].
  destruct (String.eqb _ "csv");
    [destruct (process_csv_file file); simpl; split; (reflexivity || discriminate)|].
  destruct (String.eqb _ "pdf");
    [destruct (extract_financial_data_from_pdf file); simpl; split;
     (reflexivity || discriminate)|].
  simpl. split; discriminate.
Qed.

(** X25: the reader of a file is chosen by the text after the last dot
    of its name, whatever its case: ".xlsx" and ".xls" go to the
    spreadsheet reader, ".csv" to the CSV reader, ".pdf" to the PDF
    reader, and what the reader returns is stored as a success; with any
    other extension no reader is consulted, the entry is an error and
    the message names the lower-cased extension and the file. *)
Theorem reader_is_chosen_by_the_last_extension (file : File) (base ext : string) :
  file_name file = base +:+ "." +:+ ext ->
  has_char "." ext = false ->
  (forall data, lower ext = "xlsx" \/ lower ext = "xls" ->
     process_excel_file file = Ok data ->
     process_file File D file_name process_excel_file process_csv_file
       extract_financial_data_from_pdf file
     = ({| entry_data := Some data; entry_type := "excel";
           entry_status := success; entry_error := None |}, None)) /\
  (forall data, lower ext = "csv" -> process_csv_file file = Ok data ->
     process_file File D file_name process_excel_file process_csv_file
       extract_financial_data_from_pdf file
     = ({| entry_data := Some data; entry_type := "csv";
           entry_status := success; entry_error := None |}, None)) /\
  (forall data, lower ext = "pdf" -> extract_financial_data_from_pdf file = Ok data ->
     process_file File D file_name process_excel_file process_csv_file
       extract_financial_data_from_pdf file
     = ({| entry_data := Some data; entry_type := "pdf";
           entry_status := success; entry_error := None |}, None)) /\
  (lower ext <> "xlsx" -> lower ext <> "xls" -> lower ext <> "csv" ->
   lower ext <> "pdf" ->
     process_file File D file_name process_excel_file process_csv_file
       extract_financial_data_from_pdf file
     = ({| entry_data := None; entry_type := lower ext; entry_status := error;
           entry_error := Some ("Unsupported file type: " +:+ lower ext) |},
        Some ("Unsupported file type: " +:+ lower ext +:+ " for " +:+ file_name file))).
Proof.
  intros Hname Hext. unfold process_file.
  rewrite Hname, (file_type_of_ext base ext Hext), <- Hname.
  split; [|split; [|split]].
  - intros data [-> | ->] ->; reflexivity.
  - intros data -> ->. reflexivity.
  - intros data -> ->. reflexivity.
  - intros H1 H2 H3 H4.
    apply String.eqb_neq in H1, H2, H3, H4. rewrite H1, H2, H3, H4. reflexivity.
Qed.

Lemma process_uploaded_files_fold (files : list File) (name : string) :
  forall acc : gmap string (upload_entry D) * list string,
    (foldl step acc files).1 !! name
    = match last (filter (fun file => file_name file = name) files) with
      | Some file => Some (process file).1
      | None => acc.1 !! name
      end /\
    (foldl step acc files).2 = acc.2 ++ omap (fun file => (process file).2) files.
Proof.
  induction files as [|file files IH]; intros acc; simpl.
  - split; [reflexivity | rewrite app_nil_r; reflexivity].
  - destruct (IH (step acc file)) as [IH1 IH2].
    split.
    + rewrite IH1. rewrite filter_cons.
      destruct (decide (file_name file = name)) as [E|E].
      * rewrite last_cons.
        destruct (last (filter (fun file => file_name file = name) files));
          [reflexivity|].
        destruct (process file) as [entry err]. simpl.
        rewrite E. apply lookup_insert_eq.
      * destruct (last (filter (fun file => file_name file = name) files));
          [reflexivity|].
        destruct (process file) as [entry err]. simpl.
        apply lookup_insert_ne. exact E.
    + rewrite IH2. destruct (process file) as [entry [msg|]]; simpl.
      * rewrite <- app_assoc. reflexivity.
      * rewrite app_nil_r. reflexivity.
Qed.

(** X26: the files of one upload are processed independently. The
    entry stored under a name is that of the last uploaded file of that
    name (names that no file has are absent), so a failing file never
    hides or changes the entry of another one; the error list holds one
    message per failed file, in upload order, and is empty exactly when
    every file has the status success. *)
Theorem uploads_are_processed_independently (uploaded_files : list File) :
  let process_one :=
    process_file File D file_name process_excel_file process_csv_file
      extract_financial_data_from_pdf in
  let result :=
    process_uploaded_files File D file_name process_excel_file process_csv_file
      extract_financial_data_from_pdf uploaded_files in
  (forall name,
     result.1 !! name
     = (fun file => (process_one file).1)
         <$> last (filter (fun file => file_name file = name) uploaded_files)) /\
  result.2 = omap (fun file => (process_one file).2) uploaded_files /\
  (result.2 = [] <->
   Forall (fun file => entry_status (process_one file).1 = success) uploaded_files).
Proof.
  cbv zeta.
  assert (Herr : (process_all uploaded_files).2
                 = omap (fun file => (process file).2) uploaded_files).
  { exact (proj2 (process_uploaded_files_fold uploaded_files "" (∅, []))). }
  split; [|split; [exact Herr|]].
  - intros name. unfold process_uploaded_files.
    rewrite (proj1 (process_uploaded_files_fold uploaded_files name (∅, []))).
    destruct (last _); [reflexivity | apply lookup_empty].
  - rewrite Herr. clear Herr.
    induction uploaded_files as [|file files IH]; simpl.
    + split; [constructor | reflexivity].
    + rewrite Forall_cons, <- IH, process_file_status.
      destruct ((process file).2) as [msg|]; simpl.
      * split; [discriminate | intros [H _]; discriminate].
      * tauto.
Qed.

End Upload.

Lemma reader_is_chosen_by_the_last_extension_witness :
  process_file string nat id (fun _ => Ok 1%nat) (fun _ => Ok 2%nat) (fun _ => Ok 3%nat)
    "accounts.2023.XLSX"
  = ({| entry_data := Some 1%nat; entry_type := "excel";
        entry_status := success; entry_error := None |}, None).
Proof.
  apply (proj1 (reader_is_chosen_by_the_last_extension string nat id
                  (fun _ => Ok 1%nat) (fun _ => Ok 2%nat) (fun _ => Ok 3%nat)
                  "accounts.2023.XLSX" "accounts.2023" "XLSX" eq_refl eq_refl)).
  - left. reflexivity.
  - reflexivity.
Defined.

End UploadFacts.

(** ** Sheet detection *)

Module FileProcessorFacts.
Import DataProcessor FileProcessor PyStr.

Lemma any_col_contains_iff (term : string) (names : list string) :
  any_col_contains term names = true
  <-> exists name, name ∈ names /\ is_substring term name.
Proof.
  unfold any_col_contains. rewrite existsb_exists. split.
  - intros [name [Hin H]]. exists name.
    split; [apply list_elem_of_In; exact Hin | apply PyStrFacts.contains_iff; exact H].
  - intros [name [Hin H]]. exists name.
    split; [apply list_elem_of_In; exact Hin | apply PyStrFacts.contains_iff; exact H].
Qed.

Lemma two_pass_the_filter {A : Type} (P : A -> bool) (l : list A) :
  NoDup l ->
  (2 <= length (List.filter P l))%nat
  <-> exists x y, x <> y /\ (In x l /\ P x = true) /\ (In y l /\ P y = true).
Proof.
  intros Hnd.
  assert (Hf : List.NoDup (List.filter P l))
    by (apply List.NoDup_filter, NoDup_ListNoDup; exact Hnd).
  assert (Hin : forall x, In x (List.filter P l) <-> In x l /\ P x = true)
    by (intros x; apply filter_In).
  destruct (List.filter P l) as [|a [|b r]]; simpl.
  - split; [lia|]. intros [x [y [_ [Hx _]]]]. apply Hin in Hx. destruct Hx.
  - split; [lia|]. intros [x [y [Hne [Hx Hy]]]]. apply Hin in Hx, Hy.
    destruct Hx as [<-|[]], Hy as [<-|[]]. contradiction.
  - split; [|lia]. intros _. exists a, b.
    split; [|split; apply Hin; simpl; auto].
    intros ->. inversion Hf as [|? ? Hnot _]. apply Hnot. left. reflexivity.
Qed.

(** X27: a sheet sample looks like financial data exactly when it has a
    row and two different terms among revenue, income, profit, assets,
    liabilities, equity, cash and debt each occur in the lower-cased
    label of some column. The terms are counted, not the columns (one
    label holding two terms is enough), and the cells are not looked
    at. *)
Theorem looks_like_financial_data_iff (df : DataFrame) :
  _looks_like_financial_data (Some df) = true
  <-> rows df <> [] /\
      exists term1 term2,
        term1 <> term2 /\
        (term1 ∈ sheet_financial_terms /\
         exists col, col ∈ columns df /\ is_substring term1 (lower col)) /\
        (term2 ∈ sheet_financial_terms /\
         exists col, col ∈ columns df /\ is_substring term2 (lower col)).
Proof.
  assert (Hterm : forall term,
            (In term sheet_financial_terms /\
             any_col_contains term (map lower (columns df)) = true)
            <-> (term ∈ sheet_financial_terms /\
                 exists col, col ∈ columns df /\ is_substring term (lower col))).
  { intros term. rewrite any_col_contains_iff, list_elem_of_In.
    split; intros [Hin [x [Hx H]]]; (split; [exact Hin|]).
    - apply list_elem_of_fmap in Hx as [col [-> Hcol]]. exists col. tauto.
    - exists (lower x). split; [apply list_elem_of_fmap; exists x; tauto | exact H]. }
  assert (Hcount :
            (2 <=? length (List.filter
                             (fun term => any_col_contains term (map lower (columns df)))
                             sheet_financial_terms))%nat = true
            <-> exists term1 term2,
                 term1 <> term2 /\
                 (term1 ∈ sheet_financial_terms /\
                  exists col, col ∈ columns df /\ is_substring term1 (lower col)) /\
                 (term2 ∈ sheet_financial_terms /\
                  exists col, col ∈ columns df /\ is_substring term2 (lower col))).
  { assert (Hnd : NoDup sheet_financial_terms)
      by (apply (bool_decide_unpack _); vm_compute; reflexivity).
    rewrite Nat.leb_le, (two_pass_the_filter _ _ Hnd).
    split; intros [t1 [t2 [Hne [H1 H2]]]]; exists t1, t2;
      (split; [exact Hne|]); split; apply Hterm; assumption. }
  unfold _looks_like_financial_data, df_empty.
  destruct (rows df) as [|r rs].
  - split; [discriminate | intros [H _]; contradiction].
  - destruct (columns df) as [|c cs] eqn:Ec.
    + split; [discriminate|].
      intros [_ [t1 [t2 [_ [[_ [col [Hcol _]]] _]]]]]. inversion Hcol.
    + rewrite Hcount. split; [intros H; split; [discriminate | exact H] | tauto].
Qed.

End FileProcessorFacts.

(** ** Compliance with the CBK limits *)

Module ComplianceFacts.
Import PyNum PyNumFacts FinancialProjections CBKRegulations.
Local Open Scope Q_scope.

Local Notation "'obligor_violation'" :=
  "Exceeds single obligor limit (25% of core capital)"%string (only parsing).
Local Notation "'debt_service_violation'" :=
  "Debt service ratio exceeds 50%"%string (only parsing).

Lemma compliance_report_value (loan_data : gmap string npfloat)
    (loan_amount core_capital : npfloat) :
  loan_data !! "loan_amount" = Some loan_amount ->
  loan_data !! "core_capital" = Some core_capital ->
  generate_compliance_report loan_data
  = Ok ((if check_single_obligor_limit loan_amount core_capital
         then [] else [obligor_violation])
        ++ (if check_debt_service_ratio
                 (default (Fin 0) (loan_data !! "debt_service_ratio"))
            then [] else [debt_service_violation])).
Proof.
  intros Ha Hc. unfold generate_compliance_report, item, mbind, exc_bind.
  rewrite Ha, Hc. cbn [ebind].
  destruct (check_single_obligor_limit loan_amount core_capital);
    destruct (check_debt_service_ratio _); reflexivity.
Qed.

Lemma np_leb_fin (a b : Q) : np_leb (Fin a) (Fin b) = false <-> b < a.
Proof.
  simpl. split.
  - intros H. apply Qnot_le_lt. intros Hle. apply Qle_bool_iff in Hle. congruence.
  - intros H. destruct (Qle_bool a b) eqn:E; [|reflexivity].
    apply Qle_bool_iff in E. exfalso. exact (Qlt_not_le _ _ H E).
Qed.

(** X28: the compliance report. It cannot be produced without a
    loan_amount and a core_capital (KeyError). With both, it lists the
    single obligor violation exactly when the loan is above a quarter of
    the core capital, and the debt service violation exactly when the
    ratio is above 0.5; a missing ratio counts as 0 and is never a
    violation, a ratio that is not a number always is; nothing else is
    ever listed. *)
Theorem compliance_report_spec (loan_data : gmap string npfloat) :
  (loan_data !! "loan_amount" = None \/ loan_data !! "core_capital" = None ->
     generate_compliance_report loan_data = Raise "KeyError") /\
  (forall loan_amount core_capital : Q,
     loan_data !! "loan_amount" = Some (Fin loan_amount) ->
     loan_data !! "core_capital" = Some (Fin core_capital) ->
     exists violations,
       generate_compliance_report loan_data = Ok violations /\
       (obligor_violation ∈ violations <-> core_capital * 0.25 < loan_amount) /\
       (forall ratio, loan_data !! "debt_service_ratio" = Some (Fin ratio) ->
          (debt_service_violation ∈ violations <-> 0.50 < ratio)) /\
       (loan_data !! "debt_service_ratio" = None ->
          debt_service_violation ∉ violations) /\
       (loan_data !! "debt_service_ratio" = Some NaN ->
          debt_service_violation ∈ violations) /\
       (forall v, v ∈ violations ->
          v = obligor_violation \/ v = debt_service_violation)).
Proof.
  split.
  - unfold generate_compliance_report, item, mbind, exc_bind.
    intros [H|H].
    + rewrite H. reflexivity.
    + rewrite H. destruct (loan_data !! "loan_amount"); reflexivity.
  - intros a c Ha Hc. eexists. split; [apply (compliance_report_value _ _ _ Ha Hc)|].
    assert (Hne : obligor_violation <> debt_service_violation) by discriminate.
    assert (Hob : check_single_obligor_limit (Fin a) (Fin c) = false <-> c * 0.25 < a)
      by (unfold check_single_obligor_limit; apply np_leb_fin).
    split; [|split; [|split; [|split]]].
    + rewrite <- Hob.
      destruct (check_single_obligor_limit (Fin a) (Fin c));
        destruct (check_debt_service_ratio _); simpl;
        rewrite ?elem_of_cons, ?elem_of_nil; intuition (try discriminate; auto).
    + intros ratio Hr. rewrite Hr.
      change (default (Fin 0) (Some (Fin ratio))) with (Fin ratio).
      assert (Hds : check_debt_service_ratio (Fin ratio) = false <-> 0.50 < ratio)
        by (unfold check_debt_service_ratio; apply np_leb_fin).
      rewrite <- Hds.
      destruct (check_single_obligor_limit (Fin a) (Fin c));
        destruct (check_debt_service_ratio (Fin ratio)); simpl;
        rewrite ?elem_of_cons, ?elem_of_nil; intuition (try discriminate; auto).
    + intros Hr. rewrite Hr. cbn [default].
      change (check_debt_service_ratio (Fin 0)) with true.
      destruct (check_single_obligor_limit (Fin a) (Fin c)); simpl;
        rewrite ?elem_of_cons, ?elem_of_nil; intuition (try discriminate; auto).
    + intros Hr. rewrite Hr. cbn [default].
      change (check_debt_service_ratio NaN) with false.
      destruct (check_single_obligor_limit (Fin a) (Fin c)); simpl;
        rewrite ?elem_of_cons, ?elem_of_nil; intuition (try discriminate; auto).
    + intros v.
      destruct (check_single_obligor_limit (Fin a) (Fin c));
        destruct (check_debt_service_ratio _); simpl;
        rewrite ?elem_of_cons, ?elem_of_nil; intuition (try discriminate; auto).
Qed.

Lemma row_status (repayment_schedule : option (list schedule_row))
    (income : income_row) (row : dscr_row) :
  dscr_of_row repayment_schedule income = Ok row ->
  (status row = Adequate <-> np_ge (dscr row) 1.25).
Proof.
  intros H.
  destruct (CoverageFacts.dscr_of_row_ok repayment_schedule income)
    as [row' [Hrow' [_ [_ [_ Hst]]]]].
  rewrite H in Hrow'. injection Hrow' as <-. exact Hst.
Qed.

Lemma series_status (income_projections : list income_row)
    (repayment_schedule : option (list schedule_row)) (analysis : list dscr_row) :
  calculate_debt_service_coverage_ratio income_projections repayment_schedule
    = Ok analysis ->
  Forall (fun row => status row = Adequate <-> np_ge (dscr row) 1.25) analysis.
Proof.
  intros H.
  destruct (CoverageFacts.dscr_series_rows income_projections repayment_schedule)
    as [rows [Hrows Hall]].
  rewrite H in Hrows. injection Hrows as <-. clear H.
  induction Hall as [|income row incomes rows Hrow _ IH]; constructor.
  - exact (row_status _ _ _ Hrow).
  - exact IH.
Qed.

Lemma np_min2_ge (c : Q) (acc x : npfloat) :
  np_ge acc c -> np_ge x c -> np_ge (np_min2 acc x) c.
Proof.
  intros Ha Hx. destruct acc, x; simpl in *; try contradiction; try exact I;
    try assumption;
    match goal with
    | |- context [if ?b then _ else _] => destruct b; assumption
    end.
Qed.

Lemma foldl_min2_ge (c : Q) (l : list npfloat) :
  Forall (fun x => np_ge x c) l ->
  forall acc, np_ge acc c -> np_ge (foldl np_min2 acc l) c.
Proof.
  induction 1 as [|y l Hy _ IH]; intros acc Hacc; [exact Hacc|].
  apply IH, np_min2_ge; assumption.
Qed.

Lemma series_min_ge (c : Q) (l : list npfloat) :
  l <> [] -> Forall (fun x => np_ge x c) l -> np_ge (series_min l) c.
Proof.
  destruct l as [|x l]; [contradiction|]. intros _ H.
  apply Forall_cons in H as [Hx Hl].
  apply (foldl_min2_ge c l Hl (np_min2 NaN x)).
  destruct x; exact Hx.
Qed.

(** X29: the report page hands the least debt service COVERAGE ratio of
    the projections to a check that wants a ratio of at most 0.5. So a
    loan whose coverage is Adequate (at least 1.25) in every projected
    year is always reported with the violation "Debt service ratio
    exceeds 50%", whatever the loan and the capital; while with no
    coverage analysis at all the default 0.35 passes the same check. *)
Theorem adequate_coverage_is_reported_as_a_violation
    (loan_amount core_capital : Q) (income_projections : list income_row)
    (repayment_schedule : option (list schedule_row)) (analysis : list dscr_row) :
  calculate_debt_service_coverage_ratio income_projections repayment_schedule
    = Ok analysis ->
  analysis <> [] ->
  Forall (fun row => status row = Adequate) analysis ->
  (exists violations,
     page_compliance_check loan_amount core_capital (Some analysis) = Ok violations /\
     debt_service_violation ∈ violations) /\
  (exists violations,
     page_compliance_check loan_amount core_capital None = Ok violations /\
     debt_service_violation ∉ violations).
Proof.
  intros Hseries Hne Hall. split.
  - assert (Hmin : np_ge (series_min (map dscr analysis)) 1.25).
    { apply series_min_ge.
      - destruct analysis; [contradiction | discriminate].
      - apply Forall_fmap. pose proof (series_status _ _ _ Hseries) as Hst.
        clear Hseries Hne. induction Hall as [|row rows Hrow _ IH]; [constructor|].
        apply Forall_cons in Hst as [Hst1 Hst2].
        constructor; [apply Hst1; exact Hrow | exact (IH Hst2)]. }
    assert (Hfail : check_debt_service_ratio (series_min (map dscr analysis)) = false).
    { unfold check_debt_service_ratio.
      destruct (series_min (map dscr analysis)) as [q| | |]; simpl in Hmin;
        try contradiction; [|reflexivity].
      apply np_leb_fin. apply Qlt_le_trans with (y := 1.25); [reflexivity | exact Hmin]. }
    unfold page_compliance_check, compliance_data, mbind, exc_bind.
    destruct analysis as [|row rows]; [contradiction|]. cbn [ebind].
    eexists. split.
    + apply (compliance_report_value _ (Fin loan_amount) (Fin core_capital)).
      * rewrite lookup_insert_ne by discriminate.
        rewrite lookup_insert_ne by discriminate. apply lookup_insert_eq.
      * rewrite lookup_insert_ne by discriminate. apply lookup_insert_eq.
    + rewrite lookup_insert_eq.
      match goal with
      | |- context [default (Fin 0) (Some ?x)] =>
          change (default (Fin 0) (Some x)) with x
      end. rewrite Hfail.
      apply elem_of_app. right. left.
  - unfold page_compliance_check, compliance_data, mbind, exc_bind. cbn [ebind].
    eexists. split.
    + apply (compliance_report_value _ (Fin loan_amount) (Fin core_capital)).
      * rewrite lookup_insert_ne by discriminate.
        rewrite lookup_insert_ne by discriminate. apply lookup_insert_eq.
      * rewrite lookup_insert_ne by discriminate. apply lookup_insert_eq.
    + rewrite lookup_insert_eq.
      match goal with
      | |- context [default (Fin 0) (Some ?x)] =>
          change (default (Fin 0) (Some x)) with x
      end.
      change (check_debt_service_ratio (Fin 0.35)) with true.
      rewrite app_nil_r.
      destruct (check_single_obligor_limit _ _);
        rewrite ?elem_of_cons, ?elem_of_nil; intros H; [exact H|].
      destruct H as [H|H]; [discriminate H | exact H].
Qed.

Lemma adequate_coverage_is_reported_as_a_violation_witness :
  exists violations,
    page_compliance_check 1000 100000
      (Some [ {| dscr_year := 1; dscr_ebitda := 100; total_debt_service := 10;
                 dscr := Fin (100 / 10); status := Adequate |} ]) = Ok violations /\
    debt_service_violation ∈ violations.
Proof.
  apply (proj1 (adequate_coverage_is_reported_as_a_violation 1000 100000
                  [ {| year := 1; ebitda := 100; interest_expense := Some 10 |} ]
                  None
                  [ {| dscr_year := 1; dscr_ebitda := 100; total_debt_service := 10;
                       dscr := Fin (100 / 10); status := Adequate |} ]
                  ltac:(vm_compute; reflexivity) ltac:(discriminate)
                  ltac:(repeat constructor))).
Defined.

End ComplianceFacts.

(** ** Permissions *)

Module AuthenticationFacts.
Import Authentication.

Lemma rank_cases (role : string) :
  (role_hierarchy !! role = None /\ rank role = 0%nat) \/
  (is_Some (role_hierarchy !! role) /\ (1 <= rank role <= 4)%nat).
Proof.
  unfold rank, role_hierarchy.
  destruct (decide (role = "Loan Officer")) as [->|H1];
    [right; split; [vm_compute; eauto | vm_compute; lia]|].
  destruct (decide (role = "Branch Manager")) as [->|H2];
    [right; split; [vm_compute; eauto | vm_compute; lia]|].
  destruct (decide (role = "Risk Manager")) as [->|H3];
    [right; split; [vm_compute; eauto | vm_compute; lia]|].
  destruct (decide (role = "Admin")) as [->|H4];
    [right; split; [vm_compute; eauto | vm_compute; lia]|].
  left. rewrite !lookup_insert_ne by congruence. rewrite lookup_empty.
  split; reflexivity.
Qed.

(** X30: permissions compare ranks. The check is reflexive, transitive
    and total, and Admin passes every check; a required role that is not
    one of the four known names (a misspelt or differently cased one
    included) has rank 0 and is granted to every user, known or not;
    and a user whose role is unknown passes exactly the checks for
    unknown required roles. *)
Theorem permission_compares_ranks :
  (forall role, check_permission role role = true) /\
  (forall a b c, check_permission a b = true -> check_permission b c = true ->
                 check_permission a c = true) /\
  (forall a b, check_permission a b = true \/ check_permission b a = true) /\
  (forall required, check_permission "Admin" required = true) /\
  (forall user required, role_hierarchy !! required = None ->
                         check_permission user required = true) /\
  (forall user required, role_hierarchy !! user = None ->
     (check_permission user required = true <-> role_hierarchy !! required = None)).
Proof.
  unfold check_permission.
  split; [intros role; apply Nat.leb_refl|].
  split; [intros a b c H1 H2; apply Nat.leb_le in H1, H2; apply Nat.leb_le; lia|].
  split; [intros a b; rewrite !Nat.leb_le; lia|].
  split.
  { intros required. apply Nat.leb_le. change (rank "Admin") with 4%nat.
    destruct (rank_cases required) as [[_ H]|[_ H]]; lia. }
  split.
  { intros user required H. apply Nat.leb_le.
    destruct (rank_cases required) as [[_ Hr]|[[x Hx] _]]; [lia | congruence]. }
  intros user required Hu. rewrite Nat.leb_le.
  destruct (rank_cases user) as [[_ Hru]|[[x Hx] _]]; [|congruence].
  destruct (rank_cases required) as [[Hn Hr]|[[x Hx] Hr]].
  - split; [intros _; exact Hn | lia].
  - split; [lia | congruence].
Qed.

End AuthenticationFacts.
